(** * vsphere-csi-driver: node volume lifecycle and the operation ledger

    A shallow embedding of
    - [pkg/csi/service/node.go] (stage / publish / unpublish / unstage of
      block-backed volumes, [convertUUID]), and
    - the [cnsvolumeoperationrequest] store ([GetRequestDetails],
      [StoreRequestDetails]),
    together with the properties the specification states about them.

    Go functions that return [(value, error)] become functions into
    [result]; functions that touch the host or the API server thread an
    explicit state.  Logging is left out throughout. *)

From Stdlib Require Import ZArith String Ascii.
From stdpp Require Import gmap strings list fin_maps.

Local Open Scope string_scope.
Local Open Scope list_scope.

(** ** Results of Go calls *)

(** A call either returns a value, returns a non-nil [error], or panics
    (nil dereference). *)
Inductive result (E A : Type) : Type :=
  | Ok (a : A)
  | Err (e : E)
  | Panic.
Arguments Ok {E A} a.
Arguments Err {E A} e.
Arguments Panic {E A}.

Definition is_ok {E A} (r : result E A) : bool :=
  match r with Ok _ => true | _ => false end.

(** * The idempotent operation ledger *)
Module Ledger.

(** [OperationDetails]: one record of an operation invoked on a volume.
    The package-local type and the API type
    [cnsvolumeoperationrequestv1alpha1.OperationDetails] carry the same five
    fields; one record stands for both.  [metav1.Time] is a number here. *)
Record OperationDetails : Type := mkOperationDetails {
  TaskInvocationTimestamp : Z;
  TaskID : string;
  OpID : string;
  TaskStatus : string;
  Error : string
}.

(** [VolumeOperationRequestDetails]: what callers store and get back.
    [OperationDetails] is a pointer in the source, hence the option. *)
Record VolumeOperationRequestDetails : Type := mkRequestDetails {
  Name : string;
  VolumeID : string;
  SnapshotID : string;
  Capacity : Z;
  OperationDetails_ : option OperationDetails
}.

(** [CnsVolumeOperationRequest]: the persisted instance, [Spec.Name] and the
    five [Status] fields. *)
Record CnsVolumeOperationRequest : Type := mkInstance {
  Spec_Name : string;
  Status_VolumeID : string;
  Status_SnapshotID : string;
  Status_Capacity : Z;
  FirstOperationDetails : OperationDetails;
  LatestOperationDetails : list OperationDetails
}.

(** Modelled from the spec: the constant [maxEntriesInLatestOperationDetails]
    is declared outside the given sources; the ledger's list is "capped at
    10". *)
Definition maxEntriesInLatestOperationDetails : nat := 10.

(** Modelled from the spec: [CreateVolumeOperationRequestDetails] is declared
    outside the given sources; it builds the request details from its
    arguments, field by field. *)
Definition CreateVolumeOperationRequestDetails
    (name volumeID snapshotID : string) (capacity : Z)
    (taskInvocationTimestamp : Z) (taskID opID taskStatus error : string)
    : VolumeOperationRequestDetails :=
  {| Name := name; VolumeID := volumeID; SnapshotID := snapshotID;
     Capacity := capacity;
     OperationDetails_ :=
       Some {| TaskInvocationTimestamp := taskInvocationTimestamp;
               TaskID := taskID; OpID := opID; TaskStatus := taskStatus;
               Error := error |} |}.

(** Modelled from the spec: [convertToCnsVolumeOperationRequestDetails] is
    declared outside the given sources; it copies the five fields into the
    API type. *)
Definition convertToCnsVolumeOperationRequestDetails
    (details : OperationDetails) : OperationDetails :=
  {| TaskInvocationTimestamp := TaskInvocationTimestamp details;
     TaskID := TaskID details; OpID := OpID details;
     TaskStatus := TaskStatus details; Error := Error details |}.

(** *** The API server behind [k8sclient] *)

Inductive error : Type :=
  | ErrNotFound                (* apierrors.IsNotFound *)
  | ErrAlreadyExists
  | ErrConflict                (* optimistic-concurrency conflict *)
  | ErrUnavailable             (* any other failure of the client call *)
  | ErrMsg (msg : string).     (* errors.New / fmt.Errorf *)

(** The store holds at most one instance per name (all instances live in
    [csiconfig.DefaultCSINamespace], so the name is the key).  The three
    [fail_] fields say which client calls the server refuses. *)
Record ApiServer : Type := mkApiServer {
  objects : gmap string CnsVolumeOperationRequest;
  fail_get : string -> option error;
  fail_create : string -> option error;
  fail_update : string -> option error
}.

Definition set_objects (s : ApiServer)
    (o : gmap string CnsVolumeOperationRequest) : ApiServer :=
  {| objects := o; fail_get := fail_get s; fail_create := fail_create s;
     fail_update := fail_update s |}.

Definition k8sclient_Get (name : string) (s : ApiServer)
    : result error CnsVolumeOperationRequest :=
  match fail_get s name with
  | Some e => Err e
  | None =>
      match objects s !! name with
      | Some instance => Ok instance
      | None => Err ErrNotFound
      end
  end.

Definition IsNotFound (e : error) : bool :=
  match e with ErrNotFound => true | _ => false end.

Definition k8sclient_Create (name : string)
    (instance : CnsVolumeOperationRequest) (s : ApiServer)
    : result error unit * ApiServer :=
  match fail_create s name with
  | Some e => (Err e, s)
  | None =>
      match objects s !! name with
      | Some _ => (Err ErrAlreadyExists, s)
      | None => (Ok tt, set_objects s (<[name := instance]> (objects s)))
      end
  end.

Definition k8sclient_Update (name : string)
    (instance : CnsVolumeOperationRequest) (s : ApiServer)
    : result error unit * ApiServer :=
  match fail_update s name with
  | Some e => (Err e, s)
  | None =>
      match objects s !! name with
      | Some _ => (Ok tt, set_objects s (<[name := instance]> (objects s)))
      | None => (Err ErrNotFound, s)
      end
  end.

(** *** GetRequestDetails *)

Definition GetRequestDetails (name : string) (s : ApiServer)
    : result error VolumeOperationRequestDetails :=
  match k8sclient_Get name s with
  | Err e => Err e
  | Panic => Panic
  | Ok instance =>
      let n := length (LatestOperationDetails instance) in
      if Nat.eqb n 0 then
        Err (ErrMsg "length of LatestOperationDetails expected to be greater than 1 if the instance exists")
      else
        match LatestOperationDetails instance !! (n - 1) with
        | None => Panic   (* index out of range; excluded by the test above *)
        | Some operationDetailsToReturn =>
            Ok (CreateVolumeOperationRequestDetails
                  (Spec_Name instance) (Status_VolumeID instance)
                  (Status_SnapshotID instance) (Status_Capacity instance)
                  (TaskInvocationTimestamp operationDetailsToReturn)
                  (TaskID operationDetailsToReturn)
                  (OpID operationDetailsToReturn)
                  (TaskStatus operationDetailsToReturn)
                  (Error operationDetailsToReturn))
        end
  end.

(** *** StoreRequestDetails *)

(** The loop
    [for index := len(latest) - 1; index >= 0; index--]: [n] is
    [index + 1].  [instanceList] is read, [updatedList] (its deep copy) is
    written; the flag is [operationExistsInList]. *)
Fixpoint updateExistingOperation (operationDetailsToStore : OperationDetails)
    (instanceList updatedList : list OperationDetails) (n : nat)
    : list OperationDetails * bool :=
  match n with
  | O => (updatedList, false)
  | S index =>
      match instanceList !! index with
      | Some operationDetail =>
          if String.eqb (TaskID operationDetailsToStore) (TaskID operationDetail)
          then (<[index := operationDetailsToStore]> updatedList, true)
          else updateExistingOperation operationDetailsToStore
                 instanceList updatedList index
      | None =>
          updateExistingOperation operationDetailsToStore
            instanceList updatedList index
      end
  end.

(** The instance handed to [k8sclient.Update]. *)
Definition updatedInstance (instance : CnsVolumeOperationRequest)
    (operationToStore : VolumeOperationRequestDetails)
    (taskID : string) (operationDetailsToStore : OperationDetails)
    : CnsVolumeOperationRequest :=
  let firstOp := FirstOperationDetails instance in
  let first' :=
    if String.eqb (TaskID firstOp) "" || String.eqb (TaskID firstOp) taskID
    then operationDetailsToStore else firstOp in
  let '(latest, operationExistsInList) :=
    updateExistingOperation operationDetailsToStore
      (LatestOperationDetails instance) (LatestOperationDetails instance)
      (length (LatestOperationDetails instance)) in
  let latest' :=
    if negb operationExistsInList then
      let appended := latest ++ [operationDetailsToStore] in
      if Nat.ltb maxEntriesInLatestOperationDetails (length appended)
      then drop 1 appended else appended
    else latest in
  {| Spec_Name := Spec_Name instance;
     Status_VolumeID := VolumeID operationToStore;
     Status_SnapshotID := SnapshotID operationToStore;
     Status_Capacity := Capacity operationToStore;
     FirstOperationDetails := first';
     LatestOperationDetails := latest' |}.

Definition StoreRequestDetails
    (operationToStore : option VolumeOperationRequestDetails) (s : ApiServer)
    : result error unit * ApiServer :=
  match operationToStore with
  | None => (Err (ErrMsg "cannot store empty operation"), s)
  | Some operationToStore =>
      match OperationDetails_ operationToStore with
      | None => (Panic, s)     (* *operationToStore.OperationDetails *)
      | Some details =>
          let operationDetailsToStore :=
            convertToCnsVolumeOperationRequestDetails details in
          let name := Name operationToStore in
          match k8sclient_Get name s with
          | Panic => (Panic, s)
          | Err err =>
              if IsNotFound err then
                let newInstance :=
                  {| Spec_Name := name;
                     Status_VolumeID := VolumeID operationToStore;
                     Status_SnapshotID := SnapshotID operationToStore;
                     Status_Capacity := Capacity operationToStore;
                     FirstOperationDetails := operationDetailsToStore;
                     LatestOperationDetails := [operationDetailsToStore] |} in
                k8sclient_Create name newInstance s
              else (Err err, s)
          | Ok instance =>
              k8sclient_Update name
                (updatedInstance instance operationToStore
                   (TaskID details) operationDetailsToStore) s
          end
      end
  end.

(** The list after a store, as a function of the list before. *)
Definition stored_list (l : list OperationDetails) (od : OperationDetails)
    : list OperationDetails :=
  LatestOperationDetails
    (updatedInstance
       (mkInstance "" "" "" 0 od l) (mkRequestDetails "" "" "" 0 (Some od))
       (TaskID od) od).

(** ** The ledger invariant *)

(** Every stored entry has between 1 and 10 latest operation details. *)
Definition ledger_inv (s : ApiServer) : Prop :=
  ∀ name instance, objects s !! name = Some instance →
    (1 ≤ length (LatestOperationDetails instance)
       ≤ maxEntriesInLatestOperationDetails)%nat.

(** A ledger reached from the empty store by any sequence of stores. *)
Inductive reachable (s0 : ApiServer) : ApiServer → Prop :=
  | reach_init : objects s0 = ∅ → reachable s0 s0
  | reach_store s op :
      reachable s0 s → reachable s0 (snd (StoreRequestDetails op s)).

End Ledger.

(** * The node service *)
Module Node.

(** gRPC status codes the node service returns. *)
Inductive Code : Type :=
  | InvalidArgument | FailedPrecondition | NotFound | AlreadyExists
  | Internal | Unknown.

(** Go [error] values: a gRPC status ([status.Error], [status.Errorf];
    [msg] is the message or its format string), the not-exist error of
    package [os], or any other error ([errors.New], [fmt.Errorf], failures
    of [os] and [gofsutil]). *)
Inductive error : Type :=
  | Status (c : Code) (msg : string)
  | ENOENT
  | GoError (msg : string).

Definition IsNotExist (e : error) : bool :=
  match e with ENOENT => true | _ => false end.

Definition devDiskID : string := "/dev/disk/by-id".
Definition blockPrefix : string := "wwn-0x".

(** ** Data *)

Record nodeStageParams : Type := mkStageParams {
  sp_volID : string;
  sp_fsType : string;
  sp_stagingTarget : string;
  sp_mntFlags : list string;
  sp_ro : bool
}.

Record nodePublishParams : Type := mkPublishParams {
  volID : string;
  target : string;
  stagingTarget : string;
  diskID : string;
  volumePath : string;
  device : string;
  ro : bool
}.

(** [Device]: details of a block device. *)
Record Device : Type := mkDevice {
  FullPath : string;
  Name : string;
  RealDev : string
}.

(** [gofsutil.Info]: one entry of the mount table. *)
Record Info : Type := mkInfo {
  Device_ : string;
  Path : string;
  Source : string;
  Type_ : string;
  Opts : list string
}.

(** CSI volume capability: the access type is a oneof (absent, mount or
    block), the access mode an enumeration. *)
Inductive AccessType : Type :=
  | AccessMount (FsType : string) (MountFlags : list string)
  | AccessBlock.

Inductive AccessMode : Type :=
  | MODE_UNKNOWN
  | SINGLE_NODE_WRITER
  | SINGLE_NODE_READER_ONLY
  | MULTI_NODE_READER_ONLY
  | MULTI_NODE_SINGLE_WRITER
  | MULTI_NODE_MULTI_WRITER.

Record VolumeCapability : Type := mkCapability {
  access_type : option AccessType;
  access_mode : AccessMode
}.

Record NodeStageVolumeRequest : Type := mkStageReq {
  stage_VolumeId : string;
  stage_PublishContext : gmap string string;
  stage_StagingTargetPath : string;
  stage_VolumeCapability : VolumeCapability
}.

Record NodePublishVolumeRequest : Type := mkPublishReq {
  pub_VolumeId : string;
  pub_PublishContext : gmap string string;
  pub_StagingTargetPath : string;
  pub_TargetPath : string;
  pub_VolumeCapability : VolumeCapability;
  pub_Readonly : bool
}.

Record NodeUnstageVolumeRequest : Type := mkUnstageReq {
  unstage_VolumeId : string;
  unstage_StagingTargetPath : string
}.

Record NodeUnpublishVolumeRequest : Type := mkUnpublishReq {
  unpub_VolumeId : string;
  unpub_TargetPath : string
}.

(** ** Package [common]

    The helpers and constants of package [common] (and two constants of
    [csitypes] / [cnstypes]) that [node.go] uses are declared outside the
    given sources; the service is parameterised by them. *)
Class Common : Type := mkCommon {
  IsFileVolumeRequest : VolumeCapability -> bool;
  IsVolumeReadOnly : VolumeCapability -> bool;
  GetVolumeCapabilityFsType : VolumeCapability -> string;
  IsFileVolumeMount : string -> list Info -> bool;
  AttributeFirstClassDiskUUID : string;
  Nfsv4AccessPoint : string;
  EnvClusterFlavor : string;
  CnsClusterFlavorGuest : string
}.

(** Modelled from the spec: [common.IsTargetInMounts] is declared outside the
    given sources; it is the mount inspector's
    "ContainsPath(mounts, path) -> bool", containment of the path among the
    mount paths. *)
Definition IsTargetInMounts (path : string) (mnts : list Info) : bool :=
  existsb (fun m => String.eqb (Path m) path) mnts.

(** ** The host

    What the service sees of the machine it runs on: the file system, the
    mount table and the environment.  Every state-changing call the service
    makes is a [Cmd]; the host [refuses] some of them (the call returns an
    error and changes nothing), and [mount_entry] is the line the mount
    table shows for an accepted mount command.  [log] records the commands
    issued, in order. *)
Inductive Inode : Type :=
  | Regular
  | Directory
  | DeviceNode
  | Symlink (dest : string)   (* dest: where the link finally resolves to *)
  | Unreadable.               (* stat fails with an error other than not-exist *)

Inductive Cmd : Type :=
  | CmdOpenCreate (path : string)                (* os.OpenFile(path, O_CREATE, 0755) *)
  | CmdMkdir (path : string)                     (* os.Mkdir(path, 0750) *)
  | CmdRemove (path : string)                    (* os.Remove *)
  | CmdMount (source tgt fsType : string) (opts : list string)
  | CmdFormatAndMount (source tgt fsType : string) (opts : list string)
  | CmdBindMount (source tgt : string) (opts : list string)
  | CmdUnmount (tgt : string).

Record World : Type := mkWorld {
  files : gmap string Inode;
  mountTable : list Info;
  mounts_unreadable : bool;
  environ : gmap string string;
  refuses : Cmd -> bool;
  mount_entry : Cmd -> Info;
  log : list Cmd
}.

Definition set_files (w : World) (f : gmap string Inode) : World :=
  {| files := f; mountTable := mountTable w;
     mounts_unreadable := mounts_unreadable w; environ := environ w;
     refuses := refuses w; mount_entry := mount_entry w; log := log w |}.

Definition set_mountTable (w : World) (t : list Info) : World :=
  {| files := files w; mountTable := t;
     mounts_unreadable := mounts_unreadable w; environ := environ w;
     refuses := refuses w; mount_entry := mount_entry w; log := log w |}.

Definition issue (c : Cmd) (w : World) : World :=
  {| files := files w; mountTable := mountTable w;
     mounts_unreadable := mounts_unreadable w; environ := environ w;
     refuses := refuses w; mount_entry := mount_entry w;
     log := log w ++ [c] |}.

(** Computations on the host. *)
Definition M (A : Type) : Type := World -> result error A * World.

Definition ret {A} (a : A) : M A := fun w => (Ok a, w).
Definition fail {A} (e : error) : M A := fun w => (Err e, w).
Definition panic {A} : M A := fun w => (Panic, w).

Definition bind {A B} (m : M A) (k : A -> M B) : M B :=
  fun w =>
    match m w with
    | (Ok a, w') => k a w'
    | (Err e, w') => (Err e, w')
    | (Panic, w') => (Panic, w')
    end.

(** [try m]: run [m] and hand its error, if any, to the caller, as
    [x, err := m()] does. *)
Definition try {A} (m : M A) : M (A + error) :=
  fun w =>
    match m w with
    | (Ok a, w') => (Ok (inl a), w')
    | (Err e, w') => (Ok (inr e), w')
    | (Panic, w') => (Panic, w')
    end.

(** A call that only reads the host. *)
Definition query {A} (f : World -> result error A) : M A :=
  fun w => (f w, w).

Declare Scope host_scope.
Delimit Scope host_scope with host.
Notation "x <- m ;; k" := (bind m (fun x => k))
  (at level 100, m at next level, right associativity) : host_scope.
Notation "m ;;; k" := (bind m (fun _ => k))
  (at level 100, right associativity) : host_scope.
Local Open Scope host_scope.

(** *** Package [os] and [path/filepath] *)

Record FileInfo : Type := mkFileInfo {
  fi_Name : string;
  fi_IsDir : bool;
  fi_IsDevice : bool       (* Mode() & os.ModeDevice != 0 *)
}.

(** Last element of a slash-separated path (paths carry no trailing
    slash here). *)
Fixpoint base_from (p acc : string) : string :=
  match p with
  | EmptyString => acc
  | String c rest =>
      if Ascii.eqb c "/" then base_from rest "" else base_from rest (acc +:+ String c "")
  end.
Definition Base (p : string) : string := base_from p "".

Definition info_of (p : string) (i : Inode) : result error FileInfo :=
  match i with
  | Regular => Ok (mkFileInfo (Base p) false false)
  | Directory => Ok (mkFileInfo (Base p) true false)
  | DeviceNode => Ok (mkFileInfo (Base p) false true)
  | Symlink _ => Ok (mkFileInfo (Base p) false false)
  | Unreadable => Err (GoError "stat failed")
  end.

Definition os_Lstat (p : string) (w : World) : result error FileInfo :=
  match files w !! p with
  | None => Err ENOENT
  | Some i => info_of p i
  end.

Definition EvalSymlinks (p : string) (w : World) : result error string :=
  match files w !! p with
  | None => Err ENOENT
  | Some Unreadable => Err (GoError "lstat failed")
  | Some (Symlink d) =>
      match files w !! d with
      | None => Err ENOENT
      | Some Unreadable => Err (GoError "lstat failed")
      | Some (Symlink _) => Err (GoError "too many links")
      | Some _ => Ok d
      end
  | Some _ => Ok p
  end.

Definition os_Stat (p : string) (w : World) : result error FileInfo :=
  match files w !! p with
  | None => Err ENOENT
  | Some (Symlink d) =>
      match files w !! d with
      | None => Err ENOENT
      | Some (Symlink _) => Err (GoError "too many links")
      | Some i => info_of p i
      end
  | Some i => info_of p i
  end.

(** Where a create through [p] lands: behind the link if [p] is one. *)
Definition create_path (p : string) (w : World) : string :=
  match files w !! p with
  | Some (Symlink d) => d
  | _ => p
  end.

Definition os_OpenFile_create (p : string) : M unit :=
  fun w =>
    let w := issue (CmdOpenCreate p) w in
    if refuses w (CmdOpenCreate p) then (Err (GoError "open failed"), w)
    else
      match files w !! create_path p w with
      | Some _ => (Ok tt, w)
      | None => (Ok tt, set_files w (<[create_path p w := Regular]> (files w)))
      end.

Definition os_Mkdir (p : string) : M unit :=
  fun w =>
    let w := issue (CmdMkdir p) w in
    if refuses w (CmdMkdir p) then (Err (GoError "mkdir failed"), w)
    else
      match files w !! p with
      | Some _ => (Err (GoError "file exists"), w)
      | None => (Ok tt, set_files w (<[p := Directory]> (files w)))
      end.

Definition os_Remove (p : string) : M unit :=
  fun w =>
    let w := issue (CmdRemove p) w in
    if refuses w (CmdRemove p) then (Err (GoError "remove failed"), w)
    else
      match files w !! p with
      | None => (Err ENOENT, w)
      | Some _ => (Ok tt, set_files w (delete p (files w)))
      end.

Definition os_Getenv (k : string) (w : World) : string :=
  default "" (environ w !! k).

(** Names of the entries of directory [dir]. *)
Fixpoint strip_prefix (pre s : string) : option string :=
  match pre, s with
  | EmptyString, _ => Some s
  | String a pre', String b s' =>
      if Ascii.eqb a b then strip_prefix pre' s' else None
  | String _ _, EmptyString => None
  end.

Fixpoint has_slash (s : string) : bool :=
  match s with
  | EmptyString => false
  | String c rest => Ascii.eqb c "/" || has_slash rest
  end.

Definition child_name (dir p : string) : option string :=
  match strip_prefix (dir +:+ "/") p with
  | Some n => if String.eqb n "" || has_slash n then None else Some n
  | None => None
  end.

Definition ReadDir (dir : string) (w : World) : result error (list string) :=
  match files w !! dir with
  | Some Directory =>
      Ok (omap (fun kv => child_name dir (fst kv)) (map_to_list (files w)))
  | Some _ => Err (GoError "not a directory")
  | None => Err ENOENT
  end.

(** *** Package [gofsutil] *)

Definition GetMounts (w : World) : result error (list Info) :=
  if mounts_unreadable w then Err (GoError "cannot read mount table")
  else Ok (mountTable w).

(** All mounts of the given device. *)
Definition GetDevMounts (dev : string) (w : World) : result error (list Info) :=
  match GetMounts w with
  | Ok mnts => Ok (List.filter (fun m => String.eqb (Device_ m) dev) mnts)
  | Err e => Err e
  | Panic => Panic
  end.

Definition mount_command (c : Cmd) : M unit :=
  fun w =>
    let w := issue c w in
    if refuses w c then (Err (GoError "mount failed"), w)
    else (Ok tt, set_mountTable w (mountTable w ++ [mount_entry w c])).

Definition Mount (source tgt fsType : string) (opts : list string) : M unit :=
  mount_command (CmdMount source tgt fsType opts).

Definition FormatAndMount (source tgt fsType : string) (opts : list string) : M unit :=
  mount_command (CmdFormatAndMount source tgt fsType opts).

Definition BindMount (source tgt : string) (opts : list string) : M unit :=
  mount_command (CmdBindMount source tgt opts).

(** Drops the most recent mount at [tgt]. *)
Fixpoint remove_last_at (tgt : string) (mnts : list Info) : option (list Info) :=
  match mnts with
  | [] => None
  | m :: rest =>
      match remove_last_at tgt rest with
      | Some rest' => Some (m :: rest')
      | None => if String.eqb (Path m) tgt then Some rest else None
      end
  end.

Definition Unmount (tgt : string) : M unit :=
  fun w =>
    let w := issue (CmdUnmount tgt) w in
    if refuses w (CmdUnmount tgt) then (Err (GoError "unmount failed"), w)
    else
      match remove_last_at tgt (mountTable w) with
      | None => (Err (GoError "not mounted"), w)
      | Some t => (Ok tt, set_mountTable w t)
      end.

(** [x, err := m(); if err != nil { return nil, e }]: any error of [m]
    is replaced by [e]. *)
Definition or_fail {A} (m : M A) (e : error) : M A :=
  fun w =>
    match m w with
    | (Err _, w') => (Err e, w')
    | r => r
    end.

(** ** Helpers of [node.go] *)

Fixpoint contains (list : list string) (item : string) : bool :=
  match list with
  | [] => false
  | x :: rest => if String.eqb x item then true else contains rest item
  end.

(** [getDevice]: the device at [path], or an error if it does not exist or
    is not a device. *)
Definition getDevice (path : string) : M Device :=
  fi <- query (os_Lstat path) ;;
  d <- query (EvalSymlinks path) ;;
  ds <- query (os_Stat d) ;;
  if negb (fi_IsDevice ds) then fail (GoError "%s is not a block device")
  else ret {| Name := fi_Name fi; FullPath := path; RealDev := d |}.

(** [getDiskPath]; [files] is the optional listing used by tests. *)
Definition getDiskPath (id : string) (files : option (list string)) : M string :=
  devs <- match files with
          | None => query (ReadDir devDiskID)
          | Some fs => ret fs
          end ;;
  let targetDisk := blockPrefix +:+ id in
  match List.find (fun f => String.eqb f targetDisk) devs with
  | Some f => ret (devDiskID +:+ "/" +:+ f)
  | None => ret ""
  end.

Definition verifyVolumeAttached (diskID : string) : M string :=
  volPath <- or_fail (getDiskPath diskID None)
               (Status Internal "Error trying to read attached disks: %v") ;;
  if String.eqb volPath "" then
    fail (Status NotFound "disk: %s not attached to node")
  else ret volPath.

(** [verifyTargetDir]: the target path is not empty, exists and is a
    directory. *)
Definition verifyTargetDir (target : string) (targetShouldExist : bool) : M bool :=
  if String.eqb target "" then
    fail (Status InvalidArgument "target path required")
  else
    r <- try (query (os_Stat target)) ;;
    match r with
    | inr err =>
        if IsNotExist err then
          if targetShouldExist then
            fail (Status FailedPrecondition "target: %s not pre-created")
          else ret false
        else fail (Status Internal "failed to stat target, err: %s")
    | inl tgtStat =>
        if negb (fi_IsDir tgtStat) then
          fail (Status FailedPrecondition "existing path: %s is not a directory")
        else ret true
    end.

(** [mkdir]: creates the directory if needed; the flag says whether it was
    created. *)
Definition mkdir (path : string) : M bool :=
  r <- try (query (os_Stat path)) ;;
  match r with
  | inr err =>
      if IsNotExist err then
        (os_Mkdir path ;;; ret true)
      else fail err
  | inl st =>
      if negb (fi_IsDir st) then fail (GoError "existing path is not a directory")
      else ret false
  end.

(** [mkfile]: creates the file if needed; the flag says whether it was
    created.  When [os.Stat] fails with an error other than not-exist, [st]
    is nil and [st.IsDir()] panics. *)
Definition mkfile (path : string) : M bool :=
  r <- try (query (os_Stat path)) ;;
  match r with
  | inr err =>
      if IsNotExist err then
        (os_OpenFile_create path ;;; ret true)
      else panic
  | inl st =>
      if fi_IsDir st then fail (GoError "existing path is a directory")
      else ret false
  end.

(** [rmpath]: removes the target path, file or (empty) directory. *)
Definition rmpath (target : string) : M unit :=
  or_fail (os_Remove target)
    (Status Internal "Unable to remove target path: %s, err: %v").

(** [getDevMounts]: the mounts of the device, bind mounts included. *)
Definition getDevMounts (sysDevice : Device) : M (list Info) :=
  mnts <- query GetMounts ;;
  ret (List.filter
         (fun m => String.eqb (Device_ m) (RealDev sysDevice)
                   || (String.eqb (Device_ m) "devtmpfs"
                       && String.eqb (Source m) (RealDev sysDevice)))
         mnts).

(** [getDevFromMount]: the device mounted at [target]; [None] is the nil
    device of the source. *)
Definition getDevFromMount (target : string) : M (option Device) :=
  mnts <- query GetMounts ;;
  match List.find (fun m => String.eqb (Path m) target) mnts with
  | Some m =>
      let d := if String.eqb (Device_ m) "udev" || String.eqb (Device_ m) "devtmpfs"
               then Source m else Device_ m in
      dev <- getDevice d ;;
      ret (Some dev)
  | None => ret None
  end.

(** [convertUUID]: converts a UUID to vSphere format.  Go strings are byte
    strings: [len] counts bytes and [uuid[i:j]] is [substring i (j - i)]. *)
Definition lower (c : ascii) : ascii :=
  let n := N_of_ascii c in
  if (N.leb 65 n && N.leb n 90)%bool then ascii_of_N (n + 32) else c.

(** [strings.ToLower] on ASCII text: on a string whose bytes are all below
    0x80 Go lowers the letters A-Z byte by byte.  (On other bytes Go decodes
    UTF-8 and may change the length; this definition leaves them alone, so
    it stands for [strings.ToLower] on ASCII strings only.) *)
Fixpoint ToLower (s : string) : string :=
  match s with
  | EmptyString => EmptyString
  | String c rest => String (lower c) (ToLower rest)
  end.

Definition convertUUID (uuid : string) : result error string :=
  if negb (Nat.eqb (String.length uuid) 36) then
    Err (GoError "uuid length should be 36")
  else
    let convertedUUID :=
      substring 6 2 uuid +:+ substring 4 2 uuid +:+ substring 2 2 uuid
        +:+ substring 0 2 uuid +:+ "-"
        +:+ substring 11 2 uuid +:+ substring 9 2 uuid +:+ "-"
        +:+ substring 16 2 uuid +:+ substring 14 2 uuid +:+ "-"
        +:+ substring 19 4 uuid +:+ "-"
        +:+ substring 24 12 uuid in
    Ok (ToLower convertedUUID).

(** ** The service *)
Section Service.
Context `{Common}.

Definition getDiskID (pubCtx : gmap string string) : M string :=
  match pubCtx !! AttributeFirstClassDiskUUID with
  | Some diskID => ret diskID
  | None => fail (Status InvalidArgument "Attribute: %s required in publish context")
  end.

Definition ensureMountVol (volCap : VolumeCapability) : M (string * list string) :=
  match access_type volCap with
  | Some (AccessMount _ mntFlags) =>
      ret (GetVolumeCapabilityFsType volCap, mntFlags)
  | _ => fail (Status InvalidArgument "access type missing")
  end.

Definition rwo_of (ro : bool) : string := if ro then "ro" else "rw".

Definition nodeStageBlockVolume (req : NodeStageVolumeRequest)
    (params : nodeStageParams) : M unit :=
  diskID <- getDiskID (stage_PublishContext req) ;;
  volPath <- verifyVolumeAttached diskID ;;
  dev <- or_fail (getDevice volPath)
           (Status Internal "error getting block device for volume: %q. Parameters: %v err: %v") ;;
  match access_type (stage_VolumeCapability req) with
  | Some AccessBlock => ret tt
  | _ =>
      mnts <- or_fail (query (GetDevMounts (RealDev dev)))
                (Status Internal "could not reliably determine existing mount status. Parameters: %v err: %v") ;;
      if Nat.eqb (length mnts) 0 then
        if sp_ro params then
          or_fail (Mount (FullPath dev) (sp_stagingTarget params) (sp_fsType params)
                     (sp_mntFlags params ++ ["ro"]))
            (Status Internal "error mounting volume. Parameters: %v err: %v")
        else
          or_fail (FormatAndMount (FullPath dev) (sp_stagingTarget params)
                     (sp_fsType params) (sp_mntFlags params))
            (Status Internal "error in formating and mounting volume. Parameters: %v err: %v")
      else
        match List.find (fun m => String.eqb (Path m) (sp_stagingTarget params)) mnts with
        | Some m =>
            if contains (Opts m) (rwo_of (sp_ro params)) then ret tt
            else fail (Status AlreadyExists "access mode conflicts with existing mount at %q")
        | None => fail (Status Internal "device already in use and mounted elsewhere")
        end
  end.

Definition NodeStageVolume (req : NodeStageVolumeRequest) : M unit :=
  let volumeID := stage_VolumeId req in
  let volCap := stage_VolumeCapability req in
  if IsFileVolumeRequest volCap then ret tt
  else
    let params := {| sp_volID := volumeID; sp_fsType := ""; sp_stagingTarget := "";
                     sp_mntFlags := []; sp_ro := IsVolumeReadOnly volCap |} in
    match access_type volCap with
    | Some (AccessMount _ _) =>
        fm <- ensureMountVol volCap ;;
        let params := {| sp_volID := volumeID; sp_fsType := fst fm;
                         sp_stagingTarget := stage_StagingTargetPath req;
                         sp_mntFlags := snd fm; sp_ro := sp_ro params |} in
        verifyTargetDir (sp_stagingTarget params) true ;;;
        nodeStageBlockVolume req params
    | _ => nodeStageBlockVolume req params
    end.

(** [isBlockVolumeMounted]: is the block volume still mounted at the staging
    target. *)
Definition isBlockVolumeMounted (volID stagingTargetPath : string) : M bool :=
  dev <- or_fail (getDevFromMount stagingTargetPath)
           (Status Internal "isBlockVolumeMounted: error getting block device for volume: %s, err: %s") ;;
  match dev with
  | None => ret false
  | Some dev =>
      mnts <- or_fail (query (GetDevMounts (RealDev dev)))
                (Status Internal "isBlockVolumeMounted: could not reliably determine existing mount status: %s") ;;
      if Nat.ltb 1 (length mnts) then
        fail (Status Internal "isBlockVolumeMounted: volume: %s appears mounted in multiple places")
      else ret true
  end.

Definition NodeUnstageVolume (req : NodeUnstageVolumeRequest) : M unit :=
  let stagingTarget := unstage_StagingTargetPath req in
  mnts <- or_fail (query GetMounts)
            (Status Internal "could not retrieve existing mount points: %v") ;;
  let targetFound := IsTargetInMounts stagingTarget mnts in
  if negb targetFound then ret tt
  else
    let volID := unstage_VolumeId req in
    dirExists <- verifyTargetDir stagingTarget false ;;
    if negb dirExists then ret tt
    else
      isMounted <- isBlockVolumeMounted volID stagingTarget ;;
      if isMounted then
        or_fail (Unmount stagingTarget)
          (Status Internal "Error unmounting stagingTarget: %v")
      else ret tt.

(** [isBlockVolumePublished]: does the device backing the block volume
    exist. *)
Definition isBlockVolumePublished (volID target : string) : M bool :=
  dev <- or_fail (getDevFromMount target)
           (Status Internal "error getting block device for volume: %s, err: %v") ;;
  match dev with
  | None =>
      or_fail (rmpath target)
        (Status Internal "Failed to delete the target path %q. Error: %v") ;;;
      ret false
  | Some _ => ret true
  end.

Definition NodeUnpublishVolume (req : NodeUnpublishVolumeRequest) : M unit :=
  let volID := unpub_VolumeId req in
  let target := unpub_TargetPath req in
  r <- try (query (os_Stat target)) ;;
  match r with
  | inr err =>
      if IsNotExist err then ret tt
      else fail (Status Internal "failed to stat target %q, err: %v")
  | inl _ =>
      mnts <- or_fail (query GetMounts)
                (Status Internal "could not retrieve existing mount points: %q") ;;
      let isPresent := IsTargetInMounts target mnts in
      if negb isPresent then ret tt
      else
        let isFileMount := IsFileVolumeMount target mnts in
        isPublished <- (if negb isFileMount then isBlockVolumePublished volID target
                        else ret true) ;;
        if isPublished then
          or_fail (Unmount target)
            (Status Internal "Error unmounting target %q for volume %q. %q") ;;;
          rmpath target
        else ret tt
  end.

Definition publishMountVol (req : NodePublishVolumeRequest) (dev : Device)
    (params : nodePublishParams) : M unit :=
  fm <- ensureMountVol (pub_VolumeCapability req) ;;
  let mntFlags := snd fm in
  or_fail (mkdir (target params))
    (Status Internal "Unable to create target dir: %q, err: %v") ;;;
  verifyTargetDir (stagingTarget params) true ;;;
  devMnts <- or_fail (getDevMounts dev)
               (Status Internal "could not reliably determine existing mount status. Parameters: %v err: %v") ;;
  let doBindMount :=
    let mntFlags := if ro params then mntFlags ++ ["ro"] else mntFlags in
    or_fail (BindMount (stagingTarget params) (target params) mntFlags)
      (Status Internal "error mounting volume. Parameters: %v err: %v") in
  if Nat.ltb 1 (length devMnts) then
    match List.find (fun m => String.eqb (Path m) (target params)) devMnts with
    | Some m =>
        if negb (contains (Opts m) (rwo_of (ro params))) then
          fail (Status AlreadyExists "volume previously published with different options")
        else ret tt
    | None => doBindMount
    end
  else if Nat.eqb (length devMnts) 0 then
    fail (Status FailedPrecondition "Volume ID: %q does not appear staged to %q")
  else doBindMount.

Definition publishBlockVol (req : NodePublishVolumeRequest) (dev : Device)
    (params : nodePublishParams) : M unit :=
  or_fail (mkfile (target params))
    (Status Internal "Unable to create target file: %q, err: %v") ;;;
  if ro params then
    fail (Status InvalidArgument "read only not supported for Block Volume")
  else
    devMnts <- or_fail (getDevMounts dev)
                 (Status Internal "could not reliably determine existing mount status. Parameters: %v err: %v") ;;
    match devMnts with
    | [] =>
        or_fail (BindMount (FullPath dev) (target params) [])
          (Status Internal "error mounting volume. Parameters: %v err: %v")
    | [m] =>
        if negb (String.eqb (Path m) (target params)) then
          fail (Status Internal "device already in use and mounted elsewhere")
        else ret tt
    | _ => fail (Status AlreadyExists "block volume already mounted in more than one place")
    end.

Definition publishFileVol (req : NodePublishVolumeRequest)
    (params : nodePublishParams) : M unit :=
  fm <- ensureMountVol (pub_VolumeCapability req) ;;
  let fsType := fst fm in
  let mntFlags := snd fm in
  or_fail (mkdir (target params))
    (Status Internal "Unable to create target dir: %q, err: %v") ;;;
  mnts <- or_fail (query GetMounts)
            (Status Internal "could not retrieve existing mount points: %q") ;;
  match List.find (fun m => String.eqb (Path m) (target params)) mnts with
  | Some m =>
      if negb (contains (Opts m) (rwo_of (ro params))) then
        fail (Status AlreadyExists "volume previously published with different options")
      else ret tt
  | None =>
      let mntFlags := if ro params then mntFlags ++ ["ro"] else mntFlags in
      flavor <- (fun w => (Ok (os_Getenv EnvClusterFlavor w), w)) ;;
      let mntFlags := if String.eqb flavor CnsClusterFlavorGuest
                      then mntFlags ++ ["hard"] else mntFlags in
      match pub_PublishContext req !! Nfsv4AccessPoint with
      | None => fail (Status Internal "NFSv4 accesspoint not set in publish context")
      | Some mntSrc =>
          or_fail (Mount mntSrc (target params) fsType mntFlags)
            (Status Internal "error publish volume to target path: %q")
      end
  end.

Definition NodePublishVolume (req : NodePublishVolumeRequest) : M unit :=
  let params := {| volID := pub_VolumeId req; target := pub_TargetPath req;
                   stagingTarget := pub_StagingTargetPath req; diskID := "";
                   volumePath := ""; device := ""; ro := pub_Readonly req |} in
  if String.eqb (stagingTarget params) "" then
    fail (Status FailedPrecondition "staging target path %q not set")
  else
    let volCap := pub_VolumeCapability req in
    if negb (IsFileVolumeRequest volCap) then
      diskID <- getDiskID (pub_PublishContext req) ;;
      volPath <- verifyVolumeAttached diskID ;;
      dev <- or_fail (getDevice volPath)
               (Status Internal "error getting block device for volume: %q. Parameters: %v err: %v") ;;
      let params := {| volID := volID params; target := target params;
                       stagingTarget := stagingTarget params; diskID := diskID;
                       volumePath := FullPath dev; device := RealDev dev;
                       ro := ro params |} in
      match access_type volCap with
      | Some AccessBlock => publishBlockVol req dev params
      | _ => publishMountVol req dev params
      end
    else publishFileVol req params.

End Service.

(** ** [convertUUID] as the specification words it

    "byte-swaps the first three hyphen-separated groups, keeps the last two
    groups, and lowercases the result".  These definitions follow that
    sentence, not the code; [convertUUID] above is compared with them. *)

(** The pieces of [s] between occurrences of [sep]. *)
Fixpoint split_on (sep : ascii) (s : string) : list string :=
  match s with
  | EmptyString => [EmptyString]
  | String c rest =>
      if Ascii.eqb c sep then EmptyString :: split_on sep rest
      else match split_on sep rest with
           | g :: gs => String c g :: gs
           | [] => [String c EmptyString]
           end
  end.

(** A group of hex digits as its bytes, two digits each. *)
Fixpoint byte_pairs (g : string) : list string :=
  match g with
  | String a (String b rest) => String a (String b EmptyString) :: byte_pairs rest
  | String a EmptyString => [String a EmptyString]
  | EmptyString => []
  end.

(** The bytes of a group in reverse order. *)
Definition byte_swap (g : string) : string :=
  String.concat "" (rev (byte_pairs g)).

Definition convertUUID_as_specified (uuid : string) : option string :=
  match split_on "-" uuid with
  | [g1; g2; g3; g4; g5] =>
      Some (ToLower (String.concat "-"
                       [byte_swap g1; byte_swap g2; byte_swap g3; g4; g5]))
  | _ => None
  end.

(** UUID strings: five groups of 8, 4, 4, 4 and 12 hex digits, separated
    by hyphens (36 bytes in all). *)
Definition is_hex (c : ascii) : bool :=
  let n := N_of_ascii c in
  ((N.leb 48 n && N.leb n 57)            (* 0-9 *)
   || (N.leb 65 n && N.leb n 70)         (* A-F *)
   || (N.leb 97 n && N.leb n 102))%bool. (* a-f *)

(** Reads [n] hex digits off the front of [s]; what is left of [s]. *)
Fixpoint hex_group (n : nat) (s : string) : option string :=
  match n with
  | O => Some s
  | S n' =>
      match s with
      | String c rest => if is_hex c then hex_group n' rest else None
      | EmptyString => None
      end
  end.

Fixpoint has_layout (groups : list nat) (s : string) : bool :=
  match groups with
  | [] => false
  | [n] =>
      match hex_group n s with
      | Some EmptyString => true
      | _ => false
      end
  | n :: gs =>
      match hex_group n s with
      | Some (String c rest) => Ascii.eqb c "-" && has_layout gs rest
      | _ => false
      end
  end.

Definition is_uuid (s : string) : bool := has_layout [8; 4; 4; 4; 12]%nat s.

Fixpoint no_hyphen (g : string) : bool :=
  match g with
  | EmptyString => true
  | String c rest => negb (Ascii.eqb c "-") && no_hyphen rest
  end.

(** ** Vocabulary for the properties *)

(** [m] only reads the host. *)
Definition read_only {A} (m : M A) : Prop := ∀ w, snd (m w) = w.




(** [w1] has the mount state and the dispositions of [w]. *)
Definition same_mounts (w w1 : World) : Prop :=
  mountTable w1 = mountTable w ∧ mounts_unreadable w1 = mounts_unreadable w
  ∧ refuses w1 = refuses w ∧ mount_entry w1 = mount_entry w.

(** The host after an accepted mount command [c]. *)
Definition mounted (c : Cmd) (w : World) : World :=
  set_mountTable (issue c w) (mountTable w ++ [mount_entry w c]).

(** The mount-table line [m] names the device: its device field is the
    device's real path, or it is a devtmpfs line with that path as source.
    A line under another placeholder, such as udev, does not. *)
Definition lists_device (dev : Device) (m : Info) : bool :=
  String.eqb (Device_ m) (RealDev dev)
  || (String.eqb (Device_ m) "devtmpfs" && String.eqb (Source m) (RealDev dev)).

(** Number of mounts at [path] in a mount list. *)
Definition mounts_at (path : string) (mnts : list Info) : nat :=
  length (List.filter (fun m => String.eqb (Path m) path) mnts).

(** The parameters [NodePublishVolume] hands to the block and mount
    branches once the device is resolved. *)
Definition publishParams (req : NodePublishVolumeRequest) (diskID : string)
    (dev : Device) : nodePublishParams :=
  {| volID := pub_VolumeId req; target := pub_TargetPath req;
     stagingTarget := pub_StagingTargetPath req; diskID := diskID;
     volumePath := FullPath dev; device := RealDev dev;
     ro := pub_Readonly req |}.

(** The parameters [NodeStageVolume] hands on for a mount volume. *)
Definition stageParams `{Common} (req : NodeStageVolumeRequest)
    (mntFlags : list string) : nodeStageParams :=
  {| sp_volID := stage_VolumeId req;
     sp_fsType := GetVolumeCapabilityFsType (stage_VolumeCapability req);
     sp_stagingTarget := stage_StagingTargetPath req;
     sp_mntFlags := mntFlags;
     sp_ro := IsVolumeReadOnly (stage_VolumeCapability req) |}.

(** The result of [m] depends on nothing but the file system. *)
Definition files_only {A} (m : M A) : Prop :=
  ∀ w w', files w' = files w → fst (m w') = fst (m w).

End Node.

(** * A concrete host and concrete requests *)
Module Fixture.
Import Node.

(** One possible package [common]. *)
Definition fx_common : Common :=
  {| IsFileVolumeRequest cap :=
       match access_mode cap with
       | MULTI_NODE_READER_ONLY | MULTI_NODE_SINGLE_WRITER
       | MULTI_NODE_MULTI_WRITER => true
       | _ => false
       end;
     IsVolumeReadOnly cap :=
       match access_mode cap with
       | SINGLE_NODE_READER_ONLY | MULTI_NODE_READER_ONLY => true
       | _ => false
       end;
     GetVolumeCapabilityFsType cap :=
       match access_type cap with
       | Some (AccessMount fs _) => if String.eqb fs "" then "ext4" else fs
       | _ => "ext4"
       end;
     IsFileVolumeMount tgt mnts :=
       match List.find (fun m => String.eqb (Path m) tgt) mnts with
       | Some m => String.eqb (Type_ m) "nfs" || String.eqb (Type_ m) "nfs4"
       | None => false
       end;
     AttributeFirstClassDiskUUID := "diskUUID";
     Nfsv4AccessPoint := "Nfsv4AccessPoint";
     EnvClusterFlavor := "CLUSTER_FLAVOR";
     CnsClusterFlavorGuest := "GUEST_CLUSTER" |}.

(** The disk [6000c29] is attached as [/dev/sdb]. *)
Definition fx_files : gmap string Inode :=
  list_to_map
    [ ("/dev/disk/by-id", Directory);
      ("/dev/disk/by-id/wwn-0x6000c29", Symlink "/dev/sdb");
      ("/dev/sdb", DeviceNode);
      ("/staging", Directory) ].

Definition fx_dev : Device :=
  {| FullPath := "/dev/disk/by-id/wwn-0x6000c29"; Name := "wwn-0x6000c29";
     RealDev := "/dev/sdb" |}.

Definition with_rw (opts : list string) : list string :=
  if contains opts "ro" then opts else "rw" :: opts.

Definition fx_mount_entry (c : Cmd) : Info :=
  match c with
  | CmdMount src tgt fs opts | CmdFormatAndMount src tgt fs opts =>
      mkInfo "/dev/sdb" tgt src fs (with_rw opts)
  | CmdBindMount src tgt opts => mkInfo "/dev/sdb" tgt src "ext4" (with_rw opts)
  | _ => mkInfo "" "" "" "" []
  end.

Definition fx_host (fs : gmap string Inode) (mnts : list Info) : World :=
  {| files := fs; mountTable := mnts; mounts_unreadable := false;
     environ := ∅; refuses := fun _ => false;
     mount_entry := fx_mount_entry; log := [] |}.

(** A host that lists a bind mount of a device node under the udev
    placeholder. *)
Definition fx_udev_host (fs : gmap string Inode) (mnts : list Info) : World :=
  {| files := fs; mountTable := mnts; mounts_unreadable := false;
     environ := ∅; refuses := fun _ => false;
     mount_entry := fun c =>
       match c with
       | CmdBindMount src tgt opts =>
           mkInfo "udev" tgt "/dev/sdb" "devtmpfs" (with_rw opts)
       | _ => fx_mount_entry c
       end;
     log := [] |}.

Definition fx_ctx : gmap string string := {[ "diskUUID" := "6000c29" ]}.

Definition fx_staged : Info :=
  mkInfo "/dev/sdb" "/staging" "/dev/sdb" "ext4" ["rw"; "relatime"].
Definition fx_elsewhere (p : string) : Info :=
  mkInfo "/dev/sdb" p "/dev/sdb" "ext4" ["rw"; "relatime"].


(** The disk published as a raw block device at [p], as a host with the
    udev placeholder lists it. *)
Definition fx_udev_line (p : string) : Info :=
  mkInfo "udev" p "/dev/sdb" "devtmpfs" ["rw"; "relatime"].

Definition cap_block : VolumeCapability :=
  mkCapability (Some AccessBlock) SINGLE_NODE_WRITER.
Definition cap_mount : VolumeCapability :=
  mkCapability (Some (AccessMount "ext4" ["noatime"])) SINGLE_NODE_WRITER.
Definition cap_mount_ro : VolumeCapability :=
  mkCapability (Some (AccessMount "ext4" ["noatime"])) SINGLE_NODE_READER_ONLY.

Definition fx_publish (cap : VolumeCapability) (readonly : bool)
    : NodePublishVolumeRequest :=
  {| pub_VolumeId := "vol-1"; pub_PublishContext := fx_ctx;
     pub_StagingTargetPath := "/staging"; pub_TargetPath := "/target";
     pub_VolumeCapability := cap; pub_Readonly := readonly |}.

Definition fx_stage (cap : VolumeCapability) : NodeStageVolumeRequest :=
  {| stage_VolumeId := "vol-1"; stage_PublishContext := fx_ctx;
     stage_StagingTargetPath := "/staging"; stage_VolumeCapability := cap |}.

Definition fx_unstage : NodeUnstageVolumeRequest :=
  {| unstage_VolumeId := "vol-1"; unstage_StagingTargetPath := "/staging" |}.

Definition fx_unpublish : NodeUnpublishVolumeRequest :=
  {| unpub_VolumeId := "vol-1"; unpub_TargetPath := "/target" |}.

End Fixture.

(** Ledger fixtures. *)
Module LedgerFixture.
Import Ledger.

Definition fx_task (n : Z) (id : string) : OperationDetails :=
  {| TaskInvocationTimestamp := n; TaskID := id; OpID := "op";
     TaskStatus := "InProgress"; Error := "" |}.

Definition fx_instance (l : list OperationDetails) : CnsVolumeOperationRequest :=
  {| Spec_Name := "pvc-1"; Status_VolumeID := "vol-1"; Status_SnapshotID := "";
     Status_Capacity := 1024; FirstOperationDetails := fx_task 1 "task-1";
     LatestOperationDetails := l |}.

Definition fx_server (l : list OperationDetails) : ApiServer :=
  {| objects := {[ "pvc-1" := fx_instance l ]};
     fail_get := fun _ => None; fail_create := fun _ => None;
     fail_update := fun _ => None |}.

Definition fx_request (d : OperationDetails) : VolumeOperationRequestDetails :=
  {| Name := "pvc-1"; VolumeID := "vol-1"; SnapshotID := ""; Capacity := 1024;
     OperationDetails_ := Some d |}.

End LedgerFixture.

(** * More on the ledger: vocabulary *)
Module LedgerMore.
Import Ledger.

(** The instance [StoreRequestDetails] creates for a name it does not find. *)
Definition createdInstance (operationToStore : VolumeOperationRequestDetails)
    (details : OperationDetails) : CnsVolumeOperationRequest :=
  {| Spec_Name := Name operationToStore;
     Status_VolumeID := VolumeID operationToStore;
     Status_SnapshotID := SnapshotID operationToStore;
     Status_Capacity := Capacity operationToStore;
     FirstOperationDetails := details;
     LatestOperationDetails := [details] |}.

(** Every entry is stored under the name its spec carries. *)
Definition names_agree (s : ApiServer) : Prop :=
  ∀ name instance, objects s !! name = Some instance →
    Spec_Name instance = name.

(** No two of an entry's latest operation details carry the same TaskID. *)
Definition tasks_distinct (s : ApiServer) : Prop :=
  ∀ name instance, objects s !! name = Some instance →
    NoDup (TaskID <$> LatestOperationDetails instance).

(** The operation a get returns after a store: the stored one, unless its
    TaskID was already in the list at another place than the end. *)
Definition latest_after (l : list OperationDetails) (d : OperationDetails)
    : OperationDetails :=
  match last l with
  | Some x =>
      if negb (String.eqb (TaskID x) (TaskID d))
         && existsb (fun y => String.eqb (TaskID y) (TaskID d)) l
      then x else d
  | None => d
  end.

End LedgerMore.

(** * More on the node service: vocabulary and further functions *)
Module NodeMore.
Import Node.
Local Open Scope host_scope.

(** [m] issues at most [n] commands, all of them among [A]. *)
Definition emits {T} (n : nat) (A : Cmd → Prop) (m : M T) : Prop :=
  ∀ w, ∃ cs, log (snd (m w)) = log w ++ cs ∧ (length cs ≤ n)%nat ∧ Forall A cs.

(** [m] leaves the file system as it is. *)
Definition keeps_files {T} (m : M T) : Prop :=
  ∀ w, files (snd (m w)) = files w.

(** [m] leaves the mount table as it is. *)
Definition keeps_mounts {T} (m : M T) : Prop :=
  ∀ w, mountTable (snd (m w)) = mountTable w.

Definition is_mount_cmd (c : Cmd) : bool :=
  match c with
  | CmdMount _ _ _ _ | CmdFormatAndMount _ _ _ _ | CmdBindMount _ _ _ => true
  | _ => false
  end.

(** The path a command is aimed at. *)
Definition cmd_target (c : Cmd) : string :=
  match c with
  | CmdOpenCreate p | CmdMkdir p | CmdRemove p => p
  | CmdMount _ t _ _ | CmdFormatAndMount _ t _ _ | CmdBindMount _ t _ => t
  | CmdUnmount t => t
  end.


(** The device token [getDevFromMount] resolves for a mount entry. *)
Definition mount_token (m : Info) : string :=
  if String.eqb (Device_ m) "udev" || String.eqb (Device_ m) "devtmpfs"
  then Source m else Device_ m.

(** The path a stage mounts at: the staging target of a mount volume (the
    parameters of other volumes carry no staging target). *)
Definition stage_target (req : NodeStageVolumeRequest) : string :=
  match access_type (stage_VolumeCapability req) with
  | Some (AccessMount _ _) => stage_StagingTargetPath req
  | _ => ""
  end.

(** A mount or a format-and-mount at [t]. *)
Definition is_stage_cmd (t : string) (c : Cmd) : Prop :=
  match c with
  | CmdMount _ t' _ _ | CmdFormatAndMount _ t' _ _ => t' = t
  | _ => False
  end.

(** Creation of [t], or a mount or bind mount at [t]. *)
Definition is_publish_cmd (t : string) (c : Cmd) : Prop :=
  match c with
  | CmdOpenCreate p | CmdMkdir p => p = t
  | CmdMount _ t' _ _ | CmdBindMount _ t' _ => t' = t
  | _ => False
  end.

(** ** Rescanning a device *)

(** [filepath.Join("/sys/block", name, "device", "rescan")] for a [name]
    without slash: [Join] drops empty elements and cleans the result, so
    that an empty name or "." leaves no element and ".." removes "block". *)
Definition rescan_file (name : string) : string :=
  if String.eqb name "" || String.eqb name "." then "/sys/block/device/rescan"
  else if String.eqb name ".." then "/sys/device/rescan"
  else "/sys/block/" +:+ name +:+ "/device/rescan".

(** [getDeviceRescanPath]: the file to write to for a rescan of the device;
    [strings.Split] is [split_on], [strings.HasPrefix] is [String.prefix]. *)
Definition getDeviceRescanPath (dev : Device) : M string :=
  let parts := split_on "/" (RealDev dev) in
  match parts with
  | [_; p1; p2] =>
      if String.prefix "dev" p1 then query (EvalSymlinks (rescan_file p2))
      else fail (GoError "illegal path for device %q")
  | _ => fail (GoError "illegal path for device %q")
  end.

(** Every byte of [s] is below 0x80. *)
Fixpoint is_ascii (s : string) : bool :=
  match s with
  | EmptyString => true
  | String c rest => N.ltb (N_of_ascii c) 128 && is_ascii rest
  end.

End NodeMore.

(** * A file volume and a guest-cluster host *)
Module FixtureMore.
Import Node Fixture.

Definition cap_file : VolumeCapability :=
  mkCapability (Some (AccessMount "nfs4" ["noatime"])) MULTI_NODE_MULTI_WRITER.

Definition fx_file_ctx : gmap string string :=
  {[ "Nfsv4AccessPoint" := "10.0.0.7:/share" ]}.

Definition fx_publish_file (readonly : bool) : NodePublishVolumeRequest :=
  {| pub_VolumeId := "file-1"; pub_PublishContext := fx_file_ctx;
     pub_StagingTargetPath := "/staging"; pub_TargetPath := "/target";
     pub_VolumeCapability := cap_file; pub_Readonly := readonly |}.

(** A host of a guest cluster; a mount shows with its source as device. *)
Definition fx_guest_host (fs : gmap string Inode) (mnts : list Info) : World :=
  {| files := fs; mountTable := mnts; mounts_unreadable := false;
     environ := {[ "CLUSTER_FLAVOR" := "GUEST_CLUSTER" ]};
     refuses := fun _ => false;
     mount_entry := fun c =>
       match c with
       | CmdMount src tgt fs opts => mkInfo src tgt src fs (with_rw opts)
       | _ => fx_mount_entry c
       end;
     log := [] |}.

(** A request without the disk UUID in its publish context. *)
Definition fx_publish_no_disk : NodePublishVolumeRequest :=
  {| pub_VolumeId := "vol-1"; pub_PublishContext := ∅;
     pub_StagingTargetPath := "/staging"; pub_TargetPath := "/target";
     pub_VolumeCapability := cap_block; pub_Readonly := false |}.

Definition fx_stage_no_disk : NodeStageVolumeRequest :=
  {| stage_VolumeId := "vol-1"; stage_PublishContext := ∅;
     stage_StagingTargetPath := "/staging"; stage_VolumeCapability := cap_mount |}.

End FixtureMore.
(** * Properties of the ledger *)
Module LedgerSpec.
Import Ledger.
Local Open Scope nat_scope.

Lemma convert_id details :
  convertToCnsVolumeOperationRequestDetails details = details.
Proof. by destruct details. Qed.

(** What the backwards scan over the stored list does: either no element
    below [n] carries the task id and nothing is written, or the last such
    element is the one overwritten. *)
Lemma updateExistingOperation_spec od (l u : list OperationDetails) n :
  (updateExistingOperation od l u n = (u, false)
   ∧ ∀ j x, j < n → l !! j = Some x → TaskID x ≠ TaskID od)
  ∨ (∃ i old, i < n ∧ l !! i = Some old ∧ TaskID old = TaskID od
     ∧ updateExistingOperation od l u n = (<[i := od]> u, true)
     ∧ ∀ j x, i < j → j < n → l !! j = Some x → TaskID x ≠ TaskID od).
Proof.
  induction n as [|index IH]; simpl.
  - left. split; [done | intros; lia].
  - destruct (l !! index) as [operationDetail|] eqn:Hix.
    + destruct (String.eqb (TaskID od) (TaskID operationDetail)) eqn:Heq.
      * apply String.eqb_eq in Heq. right.
        exists index, operationDetail. repeat split; auto; intros; lia.
      * apply String.eqb_neq in Heq.
        destruct IH as [[Hr Hno] | (i & old & Hi & Hl & Ht & Hr & Hno)].
        -- left. split; [done|]. intros j x Hj Hx.
           destruct (decide (j = index)) as [->|]; [|apply (Hno j); [lia|done]].
           rewrite Hix in Hx. injection Hx as <-. congruence.
        -- right. exists i, old. repeat split; auto.
           intros j x Hij Hj Hx.
           destruct (decide (j = index)) as [->|]; [|apply (Hno j); [lia..|done]].
           rewrite Hix in Hx. injection Hx as <-. congruence.
    + destruct IH as [[Hr Hno] | (i & old & Hi & Hl & Ht & Hr & Hno)].
      * left. split; [done|]. intros j x Hj Hx.
        destruct (decide (j = index)) as [->|]; [congruence|].
        apply (Hno j); [lia|done].
      * right. exists i, old. repeat split; auto.
        intros j x Hij Hj Hx.
        destruct (decide (j = index)) as [->|]; [congruence|].
        apply (Hno j); [lia..|done].
Qed.

Lemma scan_fresh od (l : list OperationDetails) :
  (∀ x, x ∈ l → TaskID x ≠ TaskID od) →
  updateExistingOperation od l l (length l) = (l, false).
Proof.
  intros Hfresh.
  destruct (updateExistingOperation_spec od l l (length l))
    as [[Hr _] | (i & old & _ & Hl & Ht & _)]; [done|].
  exfalso. apply (Hfresh old); [|done].
  apply list_elem_of_lookup. eauto.
Qed.

Lemma scan_known od (l : list OperationDetails) :
  (∃ x, x ∈ l ∧ TaskID x = TaskID od) →
  ∃ i old, l !! i = Some old ∧ TaskID old = TaskID od
    ∧ updateExistingOperation od l l (length l) = (<[i := od]> l, true)
    ∧ ∀ j x, i < j → l !! j = Some x → TaskID x ≠ TaskID od.
Proof.
  intros (x & Hin & Hx).
  destruct (updateExistingOperation_spec od l l (length l))
    as [[_ Hno] | (i & old & Hi & Hl & Ht & Hr & Hno)].
  - exfalso. apply list_elem_of_lookup in Hin as [j Hj].
    apply (Hno j x); [by eapply lookup_lt_Some | done | done].
  - exists i, old. repeat split; auto.
    intros j y Hij Hy. apply (Hno j); [done | by eapply lookup_lt_Some | done].
Qed.

Lemma updatedInstance_latest instance op od :
  LatestOperationDetails (updatedInstance instance op (TaskID od) od)
  = stored_list (LatestOperationDetails instance) od.
Proof.
  unfold stored_list, updatedInstance; simpl.
  by destruct (updateExistingOperation od _ _ _) as [latest []].
Qed.

Lemma stored_list_fresh (l : list OperationDetails) (od : OperationDetails) :
  (∀ x, x ∈ l → TaskID x ≠ TaskID od) →
  stored_list l od =
    if decide (length l < maxEntriesInLatestOperationDetails)
    then l ++ [od] else drop 1 l ++ [od].
Proof.
  intros Hfresh. unfold stored_list, updatedInstance; simpl.
  rewrite (scan_fresh od l Hfresh); simpl.
  rewrite length_app; simpl.
  destruct (Nat.ltb_spec maxEntriesInLatestOperationDetails (length l + 1));
    case_decide; try lia; [|done].
  destruct l; simpl in *; [unfold maxEntriesInLatestOperationDetails in *; lia|].
  by rewrite !drop_0.
Qed.

Lemma stored_list_bound (l : list OperationDetails) (od : OperationDetails) :
  length l ≤ maxEntriesInLatestOperationDetails →
  1 ≤ length (stored_list l od) ≤ maxEntriesInLatestOperationDetails.
Proof.
  intros Hlen. unfold stored_list, updatedInstance; simpl.
  destruct (updateExistingOperation_spec od l l (length l))
    as [[-> _] | (i & old & Hi & Hl & Ht & -> & _)]; simpl.
  - rewrite length_app; simpl.
    destruct (Nat.ltb_spec maxEntriesInLatestOperationDetails (length l + 1)).
    + rewrite length_drop, length_app; simpl. unfold maxEntriesInLatestOperationDetails in *. lia.
    + rewrite length_app; simpl. lia.
  - rewrite length_insert. lia.
Qed.

Lemma ledger_inv_insert s name instance :
  ledger_inv s →
  1 ≤ length (LatestOperationDetails instance)
    ≤ maxEntriesInLatestOperationDetails →
  ledger_inv (set_objects s (<[name := instance]> (objects s))).
Proof.
  intros Hinv Hlen name' instance'. simpl. rewrite lookup_insert.
  case_decide; [by intros [= <-] | by apply Hinv].
Qed.

Lemma ledger_inv_store op s :
  ledger_inv s → ledger_inv (snd (StoreRequestDetails op s)).
Proof.
  intros Hinv. unfold StoreRequestDetails.
  destruct op as [op|]; [|done].
  destruct (OperationDetails_ op) as [details|]; [|done].
  rewrite convert_id.
  assert (Hnew : ∀ instance,
            LatestOperationDetails instance = [details] →
            ledger_inv (snd (k8sclient_Create (Name op) instance s))).
  { intros instance Hl. unfold k8sclient_Create.
    destruct (fail_create s (Name op)); [done|].
    destruct (objects s !! Name op); [done|].
    apply ledger_inv_insert; [done|]. rewrite Hl; simpl.
    unfold maxEntriesInLatestOperationDetails. lia. }
  unfold k8sclient_Get.
  destruct (fail_get s (Name op)) as [e|].
  - destruct (IsNotFound e); [by apply Hnew | done].
  - destruct (objects s !! Name op) as [instance|] eqn:Hobj;
      [|by apply Hnew].
    unfold k8sclient_Update.
    destruct (fail_update s (Name op)); [done|]. rewrite Hobj.
    apply ledger_inv_insert; [done|].
    rewrite updatedInstance_latest.
    apply stored_list_bound. by apply (Hinv _ _ Hobj).
Qed.

Lemma reachable_inv s0 s : reachable s0 s → ledger_inv s.
Proof.
  induction 1 as [Hempty | s op _ IH].
  - intros name instance. by rewrite Hempty, lookup_empty.
  - by apply ledger_inv_store.
Qed.

(** C4. Storing into an existing entry: an operation whose TaskID occurs
    nowhere in LatestOperationDetails is appended at the end, and when the
    list would then exceed 10 elements its oldest element is dropped, so a
    list of at most 10 stays at most 10; an operation whose TaskID occurs in
    the list overwrites that element (the last one carrying it) in place and
    the length is unchanged. *)
Theorem C4_store_into_existing_entry s op details instance :
  OperationDetails_ op = Some details →
  objects s !! Name op = Some instance →
  fail_get s (Name op) = None →
  fail_update s (Name op) = None →
  let l := LatestOperationDetails instance in
  ∃ instance',
    StoreRequestDetails (Some op) s
      = (Ok tt, set_objects s (<[Name op := instance']> (objects s)))
    ∧ ((∀ x, x ∈ l → TaskID x ≠ TaskID details) →
         LatestOperationDetails instance'
           = (if decide (length l < 10) then l ++ [details]
              else drop 1 l ++ [details])
         ∧ (length l ≤ 10 → length (LatestOperationDetails instance') ≤ 10))
    ∧ ((∃ x, x ∈ l ∧ TaskID x = TaskID details) →
         ∃ i old, l !! i = Some old ∧ TaskID old = TaskID details
           ∧ (∀ j x, i < j → l !! j = Some x → TaskID x ≠ TaskID details)
           ∧ LatestOperationDetails instance' = <[i := details]> l
           ∧ length (LatestOperationDetails instance') = length l).
Proof.
  intros Hdet Hobj Hfg Hfu l.
  eexists. split.
  { unfold StoreRequestDetails, k8sclient_Get, k8sclient_Update.
    rewrite Hdet, Hfg, Hobj, Hfu, convert_id. reflexivity. }
  rewrite updatedInstance_latest. fold l. split.
  - intros Hfresh. split; [by apply stored_list_fresh|].
    intros Hlen. by apply stored_list_bound.
  - intros Hknown.
    destruct (scan_known details l Hknown) as (i & old & Hl & Ht & Hr & Hno).
    exists i, old. repeat split; auto.
    + unfold stored_list, updatedInstance; simpl. by rewrite Hr.
    + unfold stored_list, updatedInstance; simpl. rewrite Hr; simpl.
      apply length_insert.
Qed.

(** C8. GetRequestDetails hands back exactly one operation, the last element
    of the entry's LatestOperationDetails, together with the entry's name,
    VolumeID, SnapshotID and Capacity; on an entry whose list is empty it
    returns an error. *)
Theorem C8_get_returns_latest_only s name instance :
  objects s !! name = Some instance →
  fail_get s name = None →
  (LatestOperationDetails instance = [] →
     ∃ msg, GetRequestDetails name s = Err (ErrMsg msg))
  ∧ (∀ history latest,
       LatestOperationDetails instance = history ++ [latest] →
       GetRequestDetails name s
         = Ok {| Name := Spec_Name instance;
                 VolumeID := Status_VolumeID instance;
                 SnapshotID := Status_SnapshotID instance;
                 Capacity := Status_Capacity instance;
                 OperationDetails_ := Some latest |}).
Proof.
  intros Hobj Hfg. unfold GetRequestDetails, k8sclient_Get.
  rewrite Hfg, Hobj. split.
  - intros ->. simpl. eauto.
  - intros history latest ->.
    rewrite length_app; simpl.
    replace (length history + 1 - 1) with (length history + 0) by lia.
    rewrite lookup_app_r, Nat.add_0_r, Nat.sub_diag by lia; simpl.
    destruct (Nat.eqb_spec (length history + 1) 0); [lia|].
    unfold CreateVolumeOperationRequestDetails. by destruct latest.
Qed.

(** ** The theorems on a concrete ledger *)

Import LedgerFixture.

Lemma C4_witness :
  LatestOperationDetails <$>
    (objects (snd (StoreRequestDetails (Some (fx_request (fx_task 2 "task-2")))
                     (fx_server [fx_task 1 "task-1"]))) !! "pvc-1")
  = Some [fx_task 1 "task-1"; fx_task 2 "task-2"].
Proof.
  destruct (C4_store_into_existing_entry (fx_server [fx_task 1 "task-1"])
              (fx_request (fx_task 2 "task-2")) (fx_task 2 "task-2")
              (fx_instance [fx_task 1 "task-1"]))
    as (instance' & Hrun & Hfresh & _); [reflexivity..|].
  assert (Hnew : ∀ x, x ∈ [fx_task 1 "task-1"] →
                      TaskID x ≠ TaskID (fx_task 2 "task-2")).
  { intros x Hx. apply list_elem_of_singleton in Hx as ->. discriminate. }
  destruct (Hfresh Hnew) as [Hlist _].
  rewrite Hrun. simpl. rewrite lookup_insert_eq. simpl.
  rewrite Hlist. reflexivity.
Defined.

Lemma C8_witness :
  GetRequestDetails "pvc-1"
    (fx_server [fx_task 1 "task-1"; fx_task 2 "task-2"])
  = Ok (fx_request (fx_task 2 "task-2")).
Proof.
  destruct (C8_get_returns_latest_only
              (fx_server [fx_task 1 "task-1"; fx_task 2 "task-2"]) "pvc-1"
              (fx_instance [fx_task 1 "task-1"; fx_task 2 "task-2"]))
    as [_ Hlast]; [reflexivity..|].
  apply (Hlast [fx_task 1 "task-1"] (fx_task 2 "task-2")). reflexivity.
Defined.

End LedgerSpec.

(** * Properties of the node service *)
Module NodeSpec.
Import Node.
Local Open Scope nat_scope.

(** ** convertUUID *)

Lemma append_cons c s r : String c s +:+ r = String c (s +:+ r).
Proof. reflexivity. Qed.

Lemma append_empty_r s : s +:+ EmptyString = s.
Proof. induction s as [|c s IH]; [done|]. by rewrite append_cons, IH. Qed.

Lemma is_hex_not_hyphen c : is_hex c = true → Ascii.eqb c "-" = false.
Proof.
  destruct c as [[] [] [] [] [] [] [] []]; vm_compute; congruence.
Qed.

Lemma hex_group_inv n s r :
  hex_group n s = Some r →
  ∃ g, s = g +:+ r ∧ String.length g = n ∧ no_hyphen g = true.
Proof.
  revert s. induction n as [|n IH]; intros s Hg; simpl in Hg.
  - exists EmptyString. by injection Hg as ->.
  - destruct s as [|c rest]; [done|].
    destruct (is_hex c) eqn:Hc; [|done].
    destruct (IH _ Hg) as (g & -> & Hlen & Hno).
    exists (String c g). simpl. rewrite (is_hex_not_hyphen _ Hc), Hlen, Hno. done.
Qed.

Lemma split_on_group g rest :
  no_hyphen g = true →
  split_on "-" (g +:+ String "-" rest) = g :: split_on "-" rest.
Proof.
  induction g as [|c g IH]; [done|]. simpl.
  intros [Hc Hg]%andb_prop. apply negb_true_iff in Hc.
  by rewrite Hc, (IH Hg).
Qed.

Lemma split_on_last g : no_hyphen g = true → split_on "-" g = [g].
Proof.
  induction g as [|c g IH]; simpl; [done|].
  intros [Hc Hg]%andb_prop. apply negb_true_iff in Hc.
  by rewrite Hc, (IH Hg).
Qed.

Lemma length_S_inv g n :
  String.length g = S n → ∃ c g', g = String c g' ∧ String.length g' = n.
Proof. destruct g as [|c g']; simpl; [done|]. intros [= <-]. eauto. Qed.

Lemma length_O_inv g : String.length g = 0 → g = EmptyString.
Proof. by destruct g. Qed.

(** Splits a string of known length into its characters. *)
Ltac explode H :=
  repeat match type of H with
         | String.length ?g = S _ =>
             let c := fresh "c" in
             let g' := fresh "g" in
             apply length_S_inv in H as (c & g' & -> & H)
         | String.length ?g = 0 => apply length_O_inv in H as ->
         end.

Lemma is_uuid_inv s :
  is_uuid s = true →
  ∃ g1 g2 g3 g4 g5,
    s = g1 +:+ String "-" (g2 +:+ String "-" (g3 +:+ String "-"
          (g4 +:+ String "-" g5)))
    ∧ (String.length g1 = 8 ∧ String.length g2 = 4 ∧ String.length g3 = 4
       ∧ String.length g4 = 4 ∧ String.length g5 = 12)
    ∧ (no_hyphen g1 = true ∧ no_hyphen g2 = true ∧ no_hyphen g3 = true
       ∧ no_hyphen g4 = true ∧ no_hyphen g5 = true).
Proof.
  unfold is_uuid. cbn [has_layout]. intros Hl.
  destruct (hex_group 8 s) as [[|c1 r1]|] eqn:H1; [done| |done].
  apply andb_prop in Hl as [->%Ascii.eqb_eq Hl].
  destruct (hex_group 4 r1) as [[|c2 r2]|] eqn:H2; [done| |done].
  apply andb_prop in Hl as [->%Ascii.eqb_eq Hl].
  destruct (hex_group 4 r2) as [[|c3 r3]|] eqn:H3; [done| |done].
  apply andb_prop in Hl as [->%Ascii.eqb_eq Hl].
  destruct (hex_group 4 r3) as [[|c4 r4]|] eqn:H4; [done| |done].
  apply andb_prop in Hl as [->%Ascii.eqb_eq Hl].
  destruct (hex_group 12 r4) as [[|c5 r5]|] eqn:H5; [|done..].
  apply hex_group_inv in H1 as (g1 & -> & L1 & N1).
  apply hex_group_inv in H2 as (g2 & -> & L2 & N2).
  apply hex_group_inv in H3 as (g3 & -> & L3 & N3).
  apply hex_group_inv in H4 as (g4 & -> & L4 & N4).
  apply hex_group_inv in H5 as (g5 & -> & L5 & N5).
  exists g1, g2, g3, g4, g5. rewrite append_empty_r. done.
Qed.

Lemma convertUUID_refines uuid :
  is_uuid uuid = true →
  ∃ converted, convertUUID_as_specified uuid = Some converted
               ∧ convertUUID uuid = Ok converted.
Proof.
  intros (g1 & g2 & g3 & g4 & g5 & -> & (L1 & L2 & L3 & L4 & L5)
          & (N1 & N2 & N3 & N4 & N5))%is_uuid_inv.
  eexists. split.
  - unfold convertUUID_as_specified.
    rewrite !split_on_group, split_on_last by done. reflexivity.
  - explode L1. explode L2. explode L3. explode L4. explode L5.
    reflexivity.
Qed.

Lemma convertUUID_wrong_length uuid :
  String.length uuid ≠ 36 →
  convertUUID uuid = Err (GoError "uuid length should be 36").
Proof.
  intros Hlen. unfold convertUUID.
  by destruct (Nat.eqb_spec (String.length uuid) 36).
Qed.

(** C9. On a UUID string (36 bytes: groups of 8-4-4-4-12 hex digits)
    convertUUID returns the string obtained by reversing the bytes of the
    first three hyphen-separated groups, keeping the last two, and
    lowercasing; the documented example converts as stated; on any input whose
    length is not 36 it returns an error. *)
Theorem C9_convertUUID :
  (∀ uuid, is_uuid uuid = true →
     String.length uuid = 36
     ∧ ∃ converted, convertUUID_as_specified uuid = Some converted
                    ∧ convertUUID uuid = Ok converted)
  ∧ convertUUID "6B8C2042-0DD1-D037-156F-435F999D94C1"
      = Ok "42208c6b-d10d-37d0-156f-435f999d94c1"
  ∧ (∀ uuid, String.length uuid ≠ 36 →
       ∃ msg, convertUUID uuid = Err (GoError msg)).
Proof.
  split; [|split].
  - intros uuid Hu. split; [|by apply convertUUID_refines].
    destruct (Nat.eq_dec (String.length uuid) 36) as [|Hne]; [done|].
    destruct (convertUUID_refines uuid Hu) as (c & _ & Hc).
    by rewrite (convertUUID_wrong_length uuid Hne) in Hc.
  - reflexivity.
  - intros uuid Hlen. eexists. by apply convertUUID_wrong_length.
Qed.

(** ** Running computations *)

Lemma run_bind {A B} (m : M A) (k : A → M B) w a w' :
  m w = (Ok a, w') → bind m k w = k a w'.
Proof. intros Hm. unfold bind. by rewrite Hm. Qed.

Lemma run_bind_err {A B} (m : M A) (k : A → M B) w e w' :
  m w = (Err e, w') → bind m k w = (Err e, w').
Proof. intros Hm. unfold bind. by rewrite Hm. Qed.

Lemma run_or_fail_ok {A} (m : M A) e w a w' :
  m w = (Ok a, w') → or_fail m e w = (Ok a, w').
Proof. intros Hm. unfold or_fail. by rewrite Hm. Qed.


Lemma run_read_only {A} (m : M A) w (r : result error A) :
  read_only m → fst (m w) = r → m w = (r, w).
Proof. intros Hro <-. rewrite <- (Hro w) at 3. by destruct (m w). Qed.

(** ** Computations that only read the host *)

Lemma ro_ret {A} (a : A) : read_only (ret a).
Proof. done. Qed.
Lemma ro_fail {A} e : read_only (@fail A e).
Proof. done. Qed.
Lemma ro_panic {A} : read_only (@panic A).
Proof. done. Qed.
Lemma ro_query {A} (f : World → result error A) : read_only (query f).
Proof. done. Qed.
Lemma ro_bind {A B} (m : M A) (k : A → M B) :
  read_only m → (∀ a, read_only (k a)) → read_only (bind m k).
Proof.
  intros Hm Hk w. unfold bind. specialize (Hm w).
  destruct (m w) as [[a| |] w']; simpl in *; subst; [apply Hk|done..].
Qed.
Lemma ro_try {A} (m : M A) : read_only m → read_only (try m).
Proof.
  intros Hm w. unfold try. specialize (Hm w).
  by destruct (m w) as [[a| |] w'].
Qed.
Lemma ro_or_fail {A} (m : M A) e : read_only m → read_only (or_fail m e).
Proof.
  intros Hm w. unfold or_fail. specialize (Hm w).
  by destruct (m w) as [[a| |] w'].
Qed.

Ltac ro_tac :=
  repeat first
    [ apply ro_ret | apply ro_fail | apply ro_panic | apply ro_query
    | apply ro_try | apply ro_or_fail
    | apply ro_bind; [|intros ?]
    | match goal with
      | |- read_only (match ?x with _ => _ end) => destruct x
      end ].

Lemma getDevice_ro path : read_only (getDevice path).
Proof. unfold getDevice. ro_tac. Qed.

Lemma getDiskPath_ro id : read_only (getDiskPath id None).
Proof. unfold getDiskPath. cbv zeta. ro_tac. Qed.

Lemma verifyVolumeAttached_ro diskID : read_only (verifyVolumeAttached diskID).
Proof.
  unfold verifyVolumeAttached.
  apply ro_bind; [apply ro_or_fail, getDiskPath_ro | intros ?]. ro_tac.
Qed.

Lemma verifyTargetDir_ro tgt b : read_only (verifyTargetDir tgt b).
Proof. unfold verifyTargetDir. ro_tac. Qed.

Lemma getDevMounts_ro dev : read_only (getDevMounts dev).
Proof. unfold getDevMounts. ro_tac. Qed.

Lemma getDevFromMount_ro tgt : read_only (getDevFromMount tgt).
Proof.
  unfold getDevFromMount. apply ro_bind; [apply ro_query | intros mnts].
  destruct (List.find _ mnts); [|apply ro_ret].
  apply ro_bind; [apply getDevice_ro | intros ?; apply ro_ret].
Qed.

(** ** Computations that ignore the mount state *)







(** ** Computations that depend on the file system only *)

Lemma fo_ret {A} (a : A) : files_only (ret a).
Proof. done. Qed.
Lemma fo_fail {A} e : files_only (@fail A e).
Proof. done. Qed.
Lemma fo_query {A} (f : World → result error A) :
  (∀ w w', files w' = files w → f w' = f w) → files_only (query f).
Proof. intros Hf w w' Hw. unfold query; simpl. by apply Hf. Qed.
Lemma fo_bind {A B} (m : M A) (k : A → M B) :
  read_only m → files_only m → (∀ a, files_only (k a)) →
  files_only (bind m k).
Proof.
  intros Hro Hm Hk w w' Hw. unfold bind.
  pose proof (Hm w w' Hw) as Hfst.
  pose proof (Hro w) as H1. pose proof (Hro w') as H2.
  destruct (m w) as [r w1], (m w') as [r' w1']; simpl in *; subst.
  destruct r; [by apply Hk | done..].
Qed.
Lemma fo_try {A} (m : M A) : files_only m → files_only (try m).
Proof.
  intros Hm w w' Hw. unfold try. specialize (Hm w w' Hw).
  destruct (m w) as [r w1], (m w') as [r' w1']; simpl in *; subst.
  by destruct r.
Qed.
Lemma fo_or_fail {A} (m : M A) e : files_only m → files_only (or_fail m e).
Proof.
  intros Hm w w' Hw. unfold or_fail. specialize (Hm w w' Hw).
  destruct (m w) as [r w1], (m w') as [r' w1']; simpl in *; subst.
  by destruct r.
Qed.

Lemma os_Stat_files p w w' : files w' = files w → os_Stat p w' = os_Stat p w.
Proof. intros Hw. unfold os_Stat. by rewrite Hw. Qed.
Lemma os_Lstat_files p w w' : files w' = files w → os_Lstat p w' = os_Lstat p w.
Proof. intros Hw. unfold os_Lstat. by rewrite Hw. Qed.
Lemma EvalSymlinks_files p w w' :
  files w' = files w → EvalSymlinks p w' = EvalSymlinks p w.
Proof. intros Hw. unfold EvalSymlinks. by rewrite Hw. Qed.
Lemma ReadDir_files p w w' : files w' = files w → ReadDir p w' = ReadDir p w.
Proof. intros Hw. unfold ReadDir. by rewrite Hw. Qed.

Lemma getDevice_fo path : files_only (getDevice path).
Proof.
  unfold getDevice.
  apply fo_bind; [apply ro_query | apply fo_query, os_Lstat_files | intros fi].
  apply fo_bind; [apply ro_query | apply fo_query, EvalSymlinks_files | intros d].
  apply fo_bind; [apply ro_query | apply fo_query, os_Stat_files | intros ds].
  destruct (negb (fi_IsDevice ds)); [apply fo_fail | apply fo_ret].
Qed.

Lemma verifyVolumeAttached_fo diskID : files_only (verifyVolumeAttached diskID).
Proof.
  unfold verifyVolumeAttached.
  apply fo_bind; [apply ro_or_fail, getDiskPath_ro | | intros volPath].
  - apply fo_or_fail. unfold getDiskPath. cbv zeta.
    apply fo_bind; [apply ro_query | apply fo_query, ReadDir_files | intros devs].
    destruct (List.find _ devs); apply fo_ret.
  - destruct (String.eqb volPath ""); [apply fo_fail | apply fo_ret].
Qed.

Lemma verifyTargetDir_fo tgt b : files_only (verifyTargetDir tgt b).
Proof.
  unfold verifyTargetDir.
  destruct (String.eqb tgt ""); [apply fo_fail|].
  apply fo_bind;
    [apply ro_try, ro_query | apply fo_try, fo_query, os_Stat_files | intros r].
  destruct r as [st|e].
  - destruct (negb (fi_IsDir st)); [apply fo_fail | apply fo_ret].
  - destruct (IsNotExist e); [destruct b|]; first [apply fo_fail | apply fo_ret].
Qed.

(** ** Computations that cannot succeed *)


Section Service.
Context `{C : Common}.

Lemma getDiskID_ro ctx : read_only (getDiskID ctx).
Proof. unfold getDiskID. ro_tac. Qed.


(** *** File creation by [mkfile] *)

Lemma mkfile_result path w :
  fst (mkfile path w) =
    match os_Stat path w with
    | Ok st => if fi_IsDir st then Err (GoError "existing path is a directory")
               else Ok false
    | Err e =>
        if IsNotExist e then
          if refuses w (CmdOpenCreate path) then Err (GoError "open failed")
          else Ok true
        else Panic
    | Panic => Panic
    end.
Proof.
  unfold mkfile, bind, try, query.
  destruct (os_Stat path w) as [st|e|]; simpl; [by destruct (fi_IsDir st)| |done].
  destruct (IsNotExist e); [|done].
  unfold os_OpenFile_create; simpl.
  destruct (refuses w (CmdOpenCreate path)); [done|].
  by destruct (files w !! create_path path (issue (CmdOpenCreate path) w)).
Qed.

(** A target that does not exist yet exists as a file once [mkfile] ran. *)
Lemma mkfile_creates path w :
  os_Stat path w = Err ENOENT →
  refuses w (CmdOpenCreate path) = false →
  ∃ w', mkfile path w = (Ok true, w')
        ∧ os_Stat path w' = Ok (mkFileInfo (Base path) false false)
        ∧ log w' = log w ++ [CmdOpenCreate path]
        ∧ mountTable w' = mountTable w.
Proof.
  intros Hstat Hacc. unfold mkfile, bind, try, query. rewrite Hstat; simpl.
  unfold os_OpenFile_create; simpl. rewrite Hacc.
  unfold os_Stat in Hstat. unfold create_path; simpl.
  destruct (files w !! path) as [i|] eqn:Hp.
  - destruct i; simpl in Hstat; try discriminate.
    destruct (files w !! dest) as [j|] eqn:Hd.
    { by destruct j. }
    eexists. split; [reflexivity|]. repeat split.
    unfold os_Stat; simpl.
    assert (path ≠ dest) by congruence.
    rewrite lookup_insert_ne, Hp, lookup_insert_eq by done. done.
  - rewrite Hp. eexists. split; [reflexivity|]. repeat split.
    unfold os_Stat; simpl. by rewrite lookup_insert_eq.
Qed.

(** *** Block publish of a read-only volume *)

Lemma publishBlockVol_ro req dev params w :
  ro params = true →
  publishBlockVol req dev params w =
    match mkfile (target params) w with
    | (Ok _, w') =>
        (Err (Status InvalidArgument "read only not supported for Block Volume"), w')
    | (Err _, w') =>
        (Err (Status Internal "Unable to create target file: %q, err: %v"), w')
    | (Panic, w') => (Panic, w')
    end.
Proof.
  intros Hro. unfold publishBlockVol, bind, or_fail.
  destruct (mkfile (target params) w) as [[b|e|] w']; [|done..].
  by rewrite Hro.
Qed.



(** [NodePublishVolume] up to the choice of branch. *)
Lemma NodePublishVolume_block req w diskID volPath dev :
  String.eqb (pub_StagingTargetPath req) "" = false →
  IsFileVolumeRequest (pub_VolumeCapability req) = false →
  access_type (pub_VolumeCapability req) = Some AccessBlock →
  fst (getDiskID (pub_PublishContext req) w) = Ok diskID →
  fst (verifyVolumeAttached diskID w) = Ok volPath →
  fst (getDevice volPath w) = Ok dev →
  NodePublishVolume req w = publishBlockVol req dev (publishParams req diskID dev) w.
Proof.
  intros Hst Hfile Hacc Hid Hvol Hdev.
  apply run_read_only in Hid; [|apply getDiskID_ro].
  apply run_read_only in Hvol; [|apply verifyVolumeAttached_ro].
  apply run_read_only in Hdev; [|apply getDevice_ro].
  unfold NodePublishVolume; simpl. rewrite Hst, Hfile; simpl.
  rewrite (run_bind _ _ _ _ _ Hid), (run_bind _ _ _ _ _ Hvol).
  rewrite (run_bind _ _ _ _ _ (run_or_fail_ok _ _ _ _ _ Hdev)).
  by rewrite Hacc.
Qed.

Lemma NodePublishVolume_mount req w diskID volPath dev fs flags :
  String.eqb (pub_StagingTargetPath req) "" = false →
  IsFileVolumeRequest (pub_VolumeCapability req) = false →
  access_type (pub_VolumeCapability req) = Some (AccessMount fs flags) →
  fst (getDiskID (pub_PublishContext req) w) = Ok diskID →
  fst (verifyVolumeAttached diskID w) = Ok volPath →
  fst (getDevice volPath w) = Ok dev →
  NodePublishVolume req w = publishMountVol req dev (publishParams req diskID dev) w.
Proof.
  intros Hst Hfile Hacc Hid Hvol Hdev.
  apply run_read_only in Hid; [|apply getDiskID_ro].
  apply run_read_only in Hvol; [|apply verifyVolumeAttached_ro].
  apply run_read_only in Hdev; [|apply getDevice_ro].
  unfold NodePublishVolume; simpl. rewrite Hst, Hfile; simpl.
  rewrite (run_bind _ _ _ _ _ Hid), (run_bind _ _ _ _ _ Hvol).
  rewrite (run_bind _ _ _ _ _ (run_or_fail_ok _ _ _ _ _ Hdev)).
  by rewrite Hacc.
Qed.


(** C10. A block publish with readOnly=true whose target does not exist yet
    creates the target file before it rejects the request: the call returns
    InvalidArgument, and afterwards the target exists as a file; nothing was
    mounted and nothing was removed. *)
Theorem C10_rejected_block_publish_leaves_file req w diskID volPath dev :
  String.eqb (pub_StagingTargetPath req) "" = false →
  IsFileVolumeRequest (pub_VolumeCapability req) = false →
  access_type (pub_VolumeCapability req) = Some AccessBlock →
  fst (getDiskID (pub_PublishContext req) w) = Ok diskID →
  fst (verifyVolumeAttached diskID w) = Ok volPath →
  fst (getDevice volPath w) = Ok dev →
  pub_Readonly req = true →
  os_Stat (pub_TargetPath req) w = Err ENOENT →
  refuses w (CmdOpenCreate (pub_TargetPath req)) = false →
  ∃ w',
    NodePublishVolume req w
      = (Err (Status InvalidArgument "read only not supported for Block Volume"), w')
    ∧ os_Stat (pub_TargetPath req) w'
        = Ok (mkFileInfo (Base (pub_TargetPath req)) false false)
    ∧ log w' = log w ++ [CmdOpenCreate (pub_TargetPath req)]
    ∧ mountTable w' = mountTable w.
Proof.
  intros Hst Hfile Hacc Hid Hvol Hdev Hro Hstat Hcreate.
  rewrite (NodePublishVolume_block req w diskID volPath dev) by done.
  rewrite publishBlockVol_ro by done. simpl.
  destruct (mkfile_creates _ _ Hstat Hcreate) as (w' & -> & Hnow & Hlog & Hmt).
  by exists w'.
Qed.

(** *** Mount commands *)

Lemma mount_command_run c e w :
  or_fail (mount_command c) e w =
    if refuses w c then (Err e, issue c w) else (Ok tt, mounted c w).
Proof.
  unfold or_fail, mount_command; simpl. by destruct (refuses w c).
Qed.

Lemma mount_command_log c e w :
  log (snd (or_fail (mount_command c) e w)) = log w ++ [c].
Proof. rewrite mount_command_run. by destruct (refuses w c). Qed.

Lemma mkfile_keeps path w : same_mounts w (snd (mkfile path w)).
Proof.
  unfold mkfile, bind, try, query.
  destruct (os_Stat path w) as [st|e|]; simpl;
    [by destruct (fi_IsDir st)| |done].
  destruct (IsNotExist e); [|done].
  unfold os_OpenFile_create; simpl.
  destruct (refuses w (CmdOpenCreate path)); [done|].
  by destruct (files w !! create_path path (issue (CmdOpenCreate path) w)).
Qed.

Lemma mkdir_keeps path w : same_mounts w (snd (mkdir path w)).
Proof.
  unfold mkdir, bind, try, query.
  destruct (os_Stat path w) as [st|e|]; simpl;
    [by destruct (fi_IsDir st)| |done].
  destruct (IsNotExist e); [|done].
  unfold os_Mkdir; simpl.
  destruct (refuses w (CmdMkdir path)); [done|].
  by destruct (files w !! path).
Qed.

Lemma getDevMounts_same dev w w1 :
  same_mounts w w1 → fst (getDevMounts dev w1) = fst (getDevMounts dev w).
Proof.
  intros (Ht & Hu & _). unfold getDevMounts, bind, query, GetMounts.
  rewrite Ht, Hu. by destruct (mounts_unreadable w).
Qed.

(** *** Block publish, read-write *)

(** The block branch after the target file is in place and the mounts of
    the device are known. *)
Lemma publishBlockVol_by_count req dev params w created devMnts :
  ro params = false →
  fst (mkfile (target params) w) = Ok created →
  fst (getDevMounts dev w) = Ok devMnts →
  let w1 := snd (mkfile (target params) w) in
  publishBlockVol req dev params w =
    match devMnts with
    | [] =>
        or_fail (BindMount (FullPath dev) (target params) [])
          (Status Internal "error mounting volume. Parameters: %v err: %v") w1
    | [m] =>
        if negb (String.eqb (Path m) (target params)) then
          (Err (Status Internal "device already in use and mounted elsewhere"), w1)
        else (Ok tt, w1)
    | _ =>
        (Err (Status AlreadyExists
                "block volume already mounted in more than one place"), w1)
    end.
Proof.
  intros Hro Hmk Hmnts w1.
  assert (Hmk' : mkfile (target params) w = (Ok created, w1)).
  { unfold w1. by destruct (mkfile (target params) w); simpl in *; subst. }
  assert (Hm1 : getDevMounts dev w1 = (Ok devMnts, w1)).
  { apply run_read_only; [apply getDevMounts_ro|].
    rewrite (getDevMounts_same dev w w1); [done | apply mkfile_keeps]. }
  unfold publishBlockVol.
  rewrite (run_bind _ _ _ _ _ (run_or_fail_ok _ _ _ _ _ Hmk')), Hro.
  rewrite (run_bind _ _ _ _ _ (run_or_fail_ok _ _ _ _ _ Hm1)).
  destruct devMnts as [|m [|m' rest]]; try done.
  by destruct (negb (String.eqb (Path m) (target params))).
Qed.

(** A block publish with readOnly=false, once the target file is in place,
    by the mounts [getDevMounts] reports for the device: with none the
    device's full path is bind-mounted onto the target (with no mount flags)
    and the call succeeds when the host accepts the bind mount; with exactly
    one whose path differs from the target the call fails Internal; with
    more than one it fails AlreadyExists. *)
Lemma block_publish_by_mount_count req w diskID volPath dev created devMnts :
  String.eqb (pub_StagingTargetPath req) "" = false →
  IsFileVolumeRequest (pub_VolumeCapability req) = false →
  access_type (pub_VolumeCapability req) = Some AccessBlock →
  fst (getDiskID (pub_PublishContext req) w) = Ok diskID →
  fst (verifyVolumeAttached diskID w) = Ok volPath →
  fst (getDevice volPath w) = Ok dev →
  pub_Readonly req = false →
  fst (mkfile (pub_TargetPath req) w) = Ok created →
  fst (getDevMounts dev w) = Ok devMnts →
  let w1 := snd (mkfile (pub_TargetPath req) w) in
  let c := CmdBindMount (FullPath dev) (pub_TargetPath req) [] in
  (devMnts = [] →
     log (snd (NodePublishVolume req w)) = log w1 ++ [c]
     ∧ (refuses w c = false → NodePublishVolume req w = (Ok tt, mounted c w1)))
  ∧ (∀ m, devMnts = [m] → String.eqb (Path m) (pub_TargetPath req) = false →
       ∃ msg, NodePublishVolume req w = (Err (Status Internal msg), w1))
  ∧ (1 < length devMnts →
       ∃ msg, NodePublishVolume req w = (Err (Status AlreadyExists msg), w1)).
Proof.
  intros Hst Hfile Hacc Hid Hvol Hdev Hro Hmk Hmnts w1 c.
  rewrite (NodePublishVolume_block req w diskID volPath dev) by done.
  rewrite (publishBlockVol_by_count req dev _ w created devMnts) by done.
  simpl. fold w1. split; [|split].
  - intros ->. unfold BindMount. split; [apply mount_command_log|].
    intros Hacc'. rewrite mount_command_run. fold c.
    destruct (mkfile_keeps (pub_TargetPath req) w) as (_ & _ & Hr & _).
    fold w1 in Hr. by rewrite Hr, Hacc'.
  - intros m -> Hne. rewrite Hne. simpl. eauto.
  - intros Hlen. destruct devMnts as [|m [|m' rest]]; simpl in Hlen; try lia.
    eauto.
Qed.

(** *** Mount publish *)

Lemma publishMountVol_by_count req dev params w fs flags created devMnts :
  access_type (pub_VolumeCapability req) = Some (AccessMount fs flags) →
  fst (mkdir (target params) w) = Ok created →
  let w1 := snd (mkdir (target params) w) in
  fst (verifyTargetDir (stagingTarget params) true w1) = Ok true →
  fst (getDevMounts dev w) = Ok devMnts →
  let bindmount :=
    or_fail (BindMount (stagingTarget params) (target params)
               (if ro params then flags ++ ["ro"] else flags))
      (Status Internal "error mounting volume. Parameters: %v err: %v") in
  publishMountVol req dev params w =
    if Nat.ltb 1 (length devMnts) then
      match List.find (fun m => String.eqb (Path m) (target params)) devMnts with
      | Some m =>
          if negb (contains (Opts m) (rwo_of (ro params))) then
            (Err (Status AlreadyExists
                    "volume previously published with different options"), w1)
          else (Ok tt, w1)
      | None => bindmount w1
      end
    else if Nat.eqb (length devMnts) 0 then
      (Err (Status FailedPrecondition
              "Volume ID: %q does not appear staged to %q"), w1)
    else bindmount w1.
Proof.
  intros Hacc Hmk w1 Hver Hmnts bindmount.
  assert (Hmk' : mkdir (target params) w = (Ok created, w1)).
  { unfold w1. by destruct (mkdir (target params) w); simpl in *; subst. }
  apply run_read_only in Hver; [|apply verifyTargetDir_ro].
  assert (Hm1 : getDevMounts dev w1 = (Ok devMnts, w1)).
  { apply run_read_only; [apply getDevMounts_ro|].
    rewrite (getDevMounts_same dev w w1); [done | apply mkdir_keeps]. }
  unfold publishMountVol, ensureMountVol. rewrite Hacc.
  rewrite (run_bind _ _ _ _ _ (eq_refl : ret _ w = (Ok _, w))). simpl.
  rewrite (run_bind _ _ _ _ _ (run_or_fail_ok _ _ _ _ _ Hmk')).
  rewrite (run_bind _ _ _ _ _ Hver).
  rewrite (run_bind _ _ _ _ _ (run_or_fail_ok _ _ _ _ _ Hm1)).
  destruct (Nat.ltb 1 (length devMnts)).
  - destruct (List.find _ devMnts) as [m|]; [|done].
    by destruct (negb (contains (Opts m) (rwo_of (ro params)))).
  - by destruct (Nat.eqb (length devMnts) 0).
Qed.

Lemma getDevMounts_table dev w table :
  GetMounts w = Ok table →
  fst (getDevMounts dev w) = Ok (List.filter (lists_device dev) table).
Proof.
  intros Ht. unfold getDevMounts, bind, query. by rewrite Ht.
Qed.

(** C5. With two mounts that the mount table lists under the device's real
    path (as the device of the line, or as the source of a devtmpfs line),
    neither at the publish target: a block publish (readOnly=false, target
    file in place) fails AlreadyExists; a mount publish (target directory in
    place, staging target verified) bind-mounts the staging target onto the
    target, with "ro" appended to the mount flags when read-only, and
    succeeds when the host accepts the bind mount, failing Internal only
    when it refuses. *)
Theorem C5_publish_with_two_other_mounts req w diskID volPath dev table m1 m2 :
  String.eqb (pub_StagingTargetPath req) "" = false →
  IsFileVolumeRequest (pub_VolumeCapability req) = false →
  fst (getDiskID (pub_PublishContext req) w) = Ok diskID →
  fst (verifyVolumeAttached diskID w) = Ok volPath →
  fst (getDevice volPath w) = Ok dev →
  GetMounts w = Ok table →
  List.filter (lists_device dev) table = [m1; m2] →
  String.eqb (Path m1) (pub_TargetPath req) = false →
  String.eqb (Path m2) (pub_TargetPath req) = false →
  (∀ created,
     access_type (pub_VolumeCapability req) = Some AccessBlock →
     pub_Readonly req = false →
     fst (mkfile (pub_TargetPath req) w) = Ok created →
     NodePublishVolume req w
       = (Err (Status AlreadyExists
                 "block volume already mounted in more than one place"),
          snd (mkfile (pub_TargetPath req) w)))
  ∧ (∀ fs flags created,
       access_type (pub_VolumeCapability req) = Some (AccessMount fs flags) →
       fst (mkdir (pub_TargetPath req) w) = Ok created →
       let w1 := snd (mkdir (pub_TargetPath req) w) in
       fst (verifyTargetDir (pub_StagingTargetPath req) true w1) = Ok true →
       let c := CmdBindMount (pub_StagingTargetPath req) (pub_TargetPath req)
                  (if pub_Readonly req then flags ++ ["ro"] else flags) in
       NodePublishVolume req w =
         if refuses w c then
           (Err (Status Internal "error mounting volume. Parameters: %v err: %v"),
            issue c w1)
         else (Ok tt, mounted c w1)).
Proof.
  intros Hst Hfile Hid Hvol Hdev Htable Hlines Hp1 Hp2.
  assert (Hmnts : fst (getDevMounts dev w) = Ok [m1; m2]).
  { by rewrite (getDevMounts_table dev w table Htable), Hlines. }
  split.
  - intros created Hacc Hro Hmk.
    rewrite (NodePublishVolume_block req w diskID volPath dev) by done.
    by rewrite (publishBlockVol_by_count req dev _ w created [m1; m2]).
  - intros fs flags created Hacc Hmk w1 Hver c.
    rewrite (NodePublishVolume_mount req w diskID volPath dev fs flags) by done.
    rewrite (publishMountVol_by_count req dev _ w fs flags created [m1; m2])
      by done.
    simpl. rewrite Hp1, Hp2. fold w1. unfold BindMount.
    rewrite mount_command_run. fold c.
    destruct (mkdir_keeps (pub_TargetPath req) w) as (_ & _ & Hr & _).
    fold w1 in Hr. by rewrite Hr.
Qed.

(** *** Stage *)

(** [NodeStageVolume] of a mount volume, once the staging target is verified,
    the device resolved and its mounts known. *)
Lemma NodeStageVolume_mount req w fs flags diskID volPath dev mnts :
  IsFileVolumeRequest (stage_VolumeCapability req) = false →
  access_type (stage_VolumeCapability req) = Some (AccessMount fs flags) →
  fst (verifyTargetDir (stage_StagingTargetPath req) true w) = Ok true →
  fst (getDiskID (stage_PublishContext req) w) = Ok diskID →
  fst (verifyVolumeAttached diskID w) = Ok volPath →
  fst (getDevice volPath w) = Ok dev →
  GetDevMounts (RealDev dev) w = Ok mnts →
  let params := stageParams req flags in
  NodeStageVolume req w =
    if Nat.eqb (length mnts) 0 then
      if sp_ro params then
        or_fail (Mount (FullPath dev) (sp_stagingTarget params) (sp_fsType params)
                   (sp_mntFlags params ++ ["ro"]))
          (Status Internal "error mounting volume. Parameters: %v err: %v") w
      else
        or_fail (FormatAndMount (FullPath dev) (sp_stagingTarget params)
                   (sp_fsType params) (sp_mntFlags params))
          (Status Internal "error in formating and mounting volume. Parameters: %v err: %v") w
    else
      match List.find (fun m => String.eqb (Path m) (sp_stagingTarget params)) mnts with
      | Some m =>
          if contains (Opts m) (rwo_of (sp_ro params)) then (Ok tt, w)
          else (Err (Status AlreadyExists
                       "access mode conflicts with existing mount at %q"), w)
      | None =>
          (Err (Status Internal "device already in use and mounted elsewhere"), w)
      end.
Proof.
  intros Hfile Hacc Hver Hid Hvol Hdev Hmnts params.
  apply run_read_only in Hver; [|apply verifyTargetDir_ro].
  apply run_read_only in Hid; [|apply getDiskID_ro].
  apply run_read_only in Hvol; [|apply verifyVolumeAttached_ro].
  apply run_read_only in Hdev; [|apply getDevice_ro].
  assert (Hq : query (GetDevMounts (RealDev dev)) w = (Ok mnts, w)).
  { unfold query. by rewrite Hmnts. }
  unfold NodeStageVolume; simpl. rewrite Hfile, Hacc.
  unfold ensureMountVol. rewrite Hacc.
  rewrite (run_bind _ _ _ _ _ (eq_refl : ret _ w = (Ok _, w))). simpl.
  rewrite (run_bind _ _ _ _ _ Hver).
  unfold nodeStageBlockVolume.
  rewrite (run_bind _ _ _ _ _ Hid), (run_bind _ _ _ _ _ Hvol).
  rewrite (run_bind _ _ _ _ _ (run_or_fail_ok _ _ _ _ _ Hdev)).
  rewrite Hacc.
  rewrite (run_bind _ _ _ _ _ (run_or_fail_ok _ _ _ _ _ Hq)). simpl.
  destruct (Nat.eqb (length mnts) 0).
  - by destruct (IsVolumeReadOnly (stage_VolumeCapability req)).
  - destruct (List.find _ mnts) as [m|]; [|done].
    by destruct (contains (Opts m) _).
Qed.


(** C3. Stage of a mount volume whose device has no mount issues exactly one
    command: for a read-only volume a plain mount (no formatting) of the
    device at the staging target with "ro" appended to the requested mount
    flags, otherwise a format-and-mount with the requested flags; in both
    cases with the filesystem type of the capability.  The call succeeds when
    the host accepts the command and fails Internal when it refuses. *)
Theorem C3_stage_on_unmounted_device req w fs flags diskID volPath dev :
  IsFileVolumeRequest (stage_VolumeCapability req) = false →
  access_type (stage_VolumeCapability req) = Some (AccessMount fs flags) →
  fst (verifyTargetDir (stage_StagingTargetPath req) true w) = Ok true →
  fst (getDiskID (stage_PublishContext req) w) = Ok diskID →
  fst (verifyVolumeAttached diskID w) = Ok volPath →
  fst (getDevice volPath w) = Ok dev →
  GetDevMounts (RealDev dev) w = Ok [] →
  let staging := stage_StagingTargetPath req in
  let fsType := GetVolumeCapabilityFsType (stage_VolumeCapability req) in
  let c := if IsVolumeReadOnly (stage_VolumeCapability req)
           then CmdMount (FullPath dev) staging fsType (flags ++ ["ro"])
           else CmdFormatAndMount (FullPath dev) staging fsType flags in
  log (snd (NodeStageVolume req w)) = log w ++ [c]
  ∧ (refuses w c = false → NodeStageVolume req w = (Ok tt, mounted c w))
  ∧ (refuses w c = true →
       ∃ msg, NodeStageVolume req w = (Err (Status Internal msg), issue c w)).
Proof.
  intros Hfile Hacc Hver Hid Hvol Hdev Hmnts staging fsType c.
  rewrite (NodeStageVolume_mount req w fs flags diskID volPath dev [])
    by done.
  simpl. fold staging fsType. unfold Mount, FormatAndMount. subst c.
  destruct (IsVolumeReadOnly (stage_VolumeCapability req));
    (split; [apply mount_command_log|]);
    rewrite mount_command_run;
    (split; intros ->; eauto).
Qed.

(** X29. Stage twice, starting from a device that is not mounted: when the host
    accepts the mount and shows it as a mount of the device at the staging
    target with the requested rw/ro option, both calls succeed, the second
    changes nothing, and the device has exactly one mount, at the staging
    target. *)
Lemma stage_twice_from_unmounted req w fs flags diskID volPath dev :
  IsFileVolumeRequest (stage_VolumeCapability req) = false →
  access_type (stage_VolumeCapability req) = Some (AccessMount fs flags) →
  fst (verifyTargetDir (stage_StagingTargetPath req) true w) = Ok true →
  fst (getDiskID (stage_PublishContext req) w) = Ok diskID →
  fst (verifyVolumeAttached diskID w) = Ok volPath →
  fst (getDevice volPath w) = Ok dev →
  GetDevMounts (RealDev dev) w = Ok [] →
  let staging := stage_StagingTargetPath req in
  let fsType := GetVolumeCapabilityFsType (stage_VolumeCapability req) in
  let c := if IsVolumeReadOnly (stage_VolumeCapability req)
           then CmdMount (FullPath dev) staging fsType (flags ++ ["ro"])
           else CmdFormatAndMount (FullPath dev) staging fsType flags in
  let entry := mount_entry w c in
  refuses w c = false →
  Device_ entry = RealDev dev →
  Path entry = staging →
  contains (Opts entry)
    (rwo_of (IsVolumeReadOnly (stage_VolumeCapability req))) = true →
  bind (NodeStageVolume req) (fun _ => NodeStageVolume req) w
    = (Ok tt, mounted c w)
  ∧ GetDevMounts (RealDev dev) (mounted c w) = Ok [entry]
  ∧ mounts_at staging [entry] = 1.
Proof.
  intros Hfile Hacc Hver Hid Hvol Hdev Hmnts staging fsType c entry
         Haccept Hedev Hepath Heopt.
  assert (Hfirst : NodeStageVolume req w = (Ok tt, mounted c w)).
  { rewrite (NodeStageVolume_mount req w fs flags diskID volPath dev [])
      by done.
    simpl. fold staging fsType. unfold Mount, FormatAndMount. subst c.
    destruct (IsVolumeReadOnly (stage_VolumeCapability req));
      rewrite mount_command_run; by rewrite Haccept. }
  assert (Hmnts' : GetDevMounts (RealDev dev) (mounted c w) = Ok [entry]).
  { unfold GetDevMounts, GetMounts in *. simpl.
    destruct (mounts_unreadable w); [done|].
    injection Hmnts as Hmnts.
    rewrite List.filter_app, Hmnts. simpl. fold entry.
    by rewrite Hedev, String.eqb_refl. }
  assert (Hfiles : files (mounted c w) = files w) by done.
  split; [|split; [done|]].
  - rewrite (run_bind _ _ _ _ _ Hfirst).
    rewrite (NodeStageVolume_mount req (mounted c w) fs flags diskID volPath
               dev [entry]); try done.
    + simpl. fold staging. by rewrite Hepath, String.eqb_refl, Heopt.
    + by rewrite (verifyTargetDir_fo _ _ w (mounted c w) Hfiles).
    + unfold getDiskID in *.
      by destruct (stage_PublishContext req !! AttributeFirstClassDiskUUID).
    + by rewrite (verifyVolumeAttached_fo _ w (mounted c w) Hfiles).
    + by rewrite (getDevice_fo _ w (mounted c w) Hfiles).
  - unfold mounts_at. simpl. by rewrite Hepath, String.eqb_refl.
Qed.

(** *** Unpublish and unstage *)

Lemma find_none_not_in_mounts tgt mnts :
  IsTargetInMounts tgt mnts = false →
  List.find (fun m => String.eqb (Path m) tgt) mnts = None.
Proof.
  unfold IsTargetInMounts.
  induction mnts as [|m mnts IH]; simpl; [done|].
  destruct (String.eqb (Path m) tgt); simpl; [done | apply IH].
Qed.

Lemma getDevFromMount_nothing_mounted tgt w mnts :
  GetMounts w = Ok mnts → IsTargetInMounts tgt mnts = false →
  getDevFromMount tgt w = (Ok None, w).
Proof.
  intros Hm Hno. unfold getDevFromMount, bind, query.
  by rewrite Hm, (find_none_not_in_mounts _ _ Hno).
Qed.

(** C6. When nothing is mounted at the target path, the lookup
    of the device behind the mount returns nil, not an error, and both
    NodeUnpublishVolume (on a target that exists or is absent) and
    NodeUnstageVolume return success without unmounting; NodeUnstageVolume
    leaves the host exactly as it was. *)
Theorem C6_nothing_mounted_at_target w mnts tgt :
  GetMounts w = Ok mnts →
  IsTargetInMounts tgt mnts = false →
  getDevFromMount tgt w = (Ok None, w)
  ∧ (∀ req, unstage_StagingTargetPath req = tgt →
       NodeUnstageVolume req w = (Ok tt, w))
  ∧ (∀ req, unpub_TargetPath req = tgt →
       is_ok (os_Stat tgt w) = true ∨ os_Stat tgt w = Err ENOENT →
       fst (NodeUnpublishVolume req w) = Ok tt
       ∧ mountTable (snd (NodeUnpublishVolume req w)) = mountTable w).
Proof.
  intros Hm Hno. split; [by eapply getDevFromMount_nothing_mounted|]. split.
  - intros req <-. unfold NodeUnstageVolume, bind, or_fail, query.
    by rewrite Hm, Hno.
  - intros req <- Hstat.
    unfold NodeUnpublishVolume, bind, try, or_fail, query.
    destruct Hstat as [Hstat | ->]; [|done].
    destruct (os_Stat (unpub_TargetPath req) w) as [st|e|]; try done.
    by rewrite Hm, Hno.
Qed.

End Service.

(** ** The theorems on a concrete host *)

Import Fixture.

Lemma C9_witness :
  is_uuid "6B8C2042-0DD1-D037-156F-435F999D94C1" = true
  ∧ String.length "6B8C2042-0DD1-D037-156F-435F999D94C1" = 36.
Proof.
  split; [reflexivity|].
  apply (proj1 C9_convertUUID "6B8C2042-0DD1-D037-156F-435F999D94C1").
  reflexivity.
Defined.



Lemma C10_witness :
  ∃ w',
    @NodePublishVolume fx_common (fx_publish cap_block true) (fx_host fx_files [])
      = (Err (Status InvalidArgument "read only not supported for Block Volume"), w')
    ∧ os_Stat "/target" (fx_host fx_files []) = Err ENOENT
    ∧ os_Stat "/target" w' = Ok (mkFileInfo "target" false false).
Proof.
  destruct (@C10_rejected_block_publish_leaves_file fx_common
              (fx_publish cap_block true) (fx_host fx_files [])
              "6000c29" "/dev/disk/by-id/wwn-0x6000c29" fx_dev)
    as (w' & Hrun & Hfile & _); [vm_compute; reflexivity..|].
  exists w'. split; [exact Hrun|]. split; [vm_compute; reflexivity|].
  exact Hfile.
Defined.

(** C7. The disk is attached as /dev/sdb and the mount table holds one line
    for it, under the udev placeholder, at /pods/x (the line the source
    documents for a raw block device).  getDevFromMount resolves that line
    to /dev/sdb, so the device has exactly one mount and it is not at the
    target; getDevMounts reports no mount for the device, and a block
    publish with readOnly=false at /target bind-mounts the device again and
    returns success instead of failing Internal. *)
Theorem C7_udev_mount_not_counted :
  let req := fx_publish cap_block false in
  let w := fx_udev_host fx_files [fx_udev_line "/pods/x"] in
  let c := CmdBindMount "/dev/disk/by-id/wwn-0x6000c29" "/target" [] in
  access_type (pub_VolumeCapability req) = Some AccessBlock
  ∧ pub_Readonly req = false
  ∧ fst (getDevice "/dev/disk/by-id/wwn-0x6000c29" w) = Ok fx_dev
  ∧ mountTable w = [fx_udev_line "/pods/x"]
  ∧ (∃ d, fst (getDevFromMount "/pods/x" w) = Ok (Some d)
          ∧ RealDev d = RealDev fx_dev)
  ∧ String.eqb "/pods/x" (pub_TargetPath req) = false
  ∧ fst (getDevMounts fx_dev w) = Ok []
  ∧ @NodePublishVolume fx_common req w
    = (Ok tt, mounted c (snd (mkfile "/target" w)))
  ∧ mounts_at "/target"
      (mountTable (snd (@NodePublishVolume fx_common req w))) = 1
  ∧ ¬ (∃ msg, fst (@NodePublishVolume fx_common req w)
              = Err (Status Internal msg)).
Proof.
  intros req w c.
  split; [reflexivity|]. split; [reflexivity|].
  split; [vm_compute; reflexivity|]. split; [reflexivity|].
  split; [eexists; split; vm_compute; reflexivity|].
  split; [reflexivity|]. split; [vm_compute; reflexivity|].
  split; [vm_compute; reflexivity|]. split; [vm_compute; reflexivity|].
  intros [msg Hmsg]. vm_compute in Hmsg. discriminate Hmsg.
Qed.

Lemma block_publish_by_mount_count_example :
  fst (@NodePublishVolume fx_common (fx_publish cap_block false)
         (fx_host fx_files [])) = Ok tt.
Proof.
  destruct (@block_publish_by_mount_count fx_common
              (fx_publish cap_block false) (fx_host fx_files [])
              "6000c29" "/dev/disk/by-id/wwn-0x6000c29" fx_dev true [])
    as [Hzero _]; [vm_compute; reflexivity..|].
  destruct (Hzero eq_refl) as [_ Hrun].
  rewrite Hrun; reflexivity.
Defined.

Lemma C5_witness :
  @NodePublishVolume fx_common (fx_publish cap_mount false)
    (fx_host (<["/target" := Directory]> fx_files)
       [fx_staged; fx_elsewhere "/pods/a"])
  = (Ok tt,
     mounted (CmdBindMount "/staging" "/target" ["noatime"])
       (fx_host (<["/target" := Directory]> fx_files)
          [fx_staged; fx_elsewhere "/pods/a"])).
Proof.
  destruct (@C5_publish_with_two_other_mounts fx_common
              (fx_publish cap_mount false)
              (fx_host (<["/target" := Directory]> fx_files)
                 [fx_staged; fx_elsewhere "/pods/a"])
              "6000c29" "/dev/disk/by-id/wwn-0x6000c29" fx_dev
              [fx_staged; fx_elsewhere "/pods/a"]
              fx_staged (fx_elsewhere "/pods/a"))
    as [_ Hmount]; [vm_compute; reflexivity..|].
  rewrite (Hmount "ext4" ["noatime"] false); reflexivity.
Defined.

(** Two mounts of the device, neither at the publish target: the block
    publish fails AlreadyExists and the mount publish succeeds; neither fails
    Internal. *)
Lemma C5_counterexample :
  let w := fx_host fx_files [fx_staged; fx_elsewhere "/pods/a"] in
  fst (getDevMounts fx_dev w) = Ok [fx_staged; fx_elsewhere "/pods/a"]
  ∧ fst (@NodePublishVolume fx_common (fx_publish cap_block false) w)
      = Err (Status AlreadyExists
               "block volume already mounted in more than one place")
  ∧ fst (@NodePublishVolume fx_common (fx_publish cap_mount false) w) = Ok tt
  ∧ ¬ (∃ msg, fst (@NodePublishVolume fx_common (fx_publish cap_block false) w)
              = Err (Status Internal msg))
  ∧ ¬ (∃ msg, fst (@NodePublishVolume fx_common (fx_publish cap_mount false) w)
              = Err (Status Internal msg)).
Proof.
  repeat split; try (vm_compute; reflexivity);
    intros [msg Hmsg]; vm_compute in Hmsg; discriminate.
Qed.



Lemma C3_witness :
  @NodeStageVolume fx_common (fx_stage cap_mount_ro) (fx_host fx_files [])
  = (Ok tt,
     mounted (CmdMount "/dev/disk/by-id/wwn-0x6000c29" "/staging" "ext4"
                ["noatime"; "ro"])
       (fx_host fx_files [])).
Proof.
  destruct (@C3_stage_on_unmounted_device fx_common (fx_stage cap_mount_ro)
              (fx_host fx_files []) "ext4" ["noatime"]
              "6000c29" "/dev/disk/by-id/wwn-0x6000c29" fx_dev)
    as (_ & Hrun & _); [vm_compute; reflexivity..|].
  rewrite Hrun; reflexivity.
Defined.

Lemma C6_witness :
  NodeUnstageVolume fx_unstage (fx_host fx_files [])
  = (Ok tt, fx_host fx_files []).
Proof.
  destruct (@C6_nothing_mounted_at_target fx_common (fx_host fx_files []) []
              "/staging") as (_ & Hunstage & _); [reflexivity..|].
  apply Hunstage. reflexivity.
Defined.

(** Nothing is mounted at the staging target or at the publish target, and
    both paths exist: unstage and unpublish return success and the paths are
    still there. *)
Lemma C6_counterexample :
  let w := fx_host (<["/target" := Regular]> fx_files) [] in
  IsTargetInMounts "/staging" (mountTable w) = false
  ∧ IsTargetInMounts "/target" (mountTable w) = false
  ∧ is_ok (os_Stat "/staging" w) = true
  ∧ is_ok (os_Stat "/target" w) = true
  ∧ NodeUnstageVolume fx_unstage w = (Ok tt, w)
  ∧ is_ok (os_Stat "/staging" (snd (NodeUnstageVolume fx_unstage w))) = true
  ∧ fst (@NodeUnpublishVolume fx_common fx_unpublish w) = Ok tt
  ∧ is_ok (os_Stat "/target" (snd (@NodeUnpublishVolume fx_common fx_unpublish w)))
    = true
  ∧ log (snd (@NodeUnpublishVolume fx_common fx_unpublish w)) = [].
Proof. repeat split; vm_compute; reflexivity. Qed.

End NodeSpec.

(** * More properties of the ledger *)
Module LedgerExtra.
Import Ledger LedgerMore LedgerSpec.
Local Open Scope nat_scope.

(** ** What a store does to the server *)

(** A store of an operation with details either fails and leaves the server
    alone, or creates the entry (the name was free), or replaces the entry
    by its update. *)
Lemma store_cases op d s :
  OperationDetails_ op = Some d →
  (∃ e, StoreRequestDetails (Some op) s = (Err e, s))
  ∨ (objects s !! Name op = None
     ∧ StoreRequestDetails (Some op) s
       = (Ok tt, set_objects s (<[Name op := createdInstance op d]> (objects s))))
  ∨ (∃ instance,
       objects s !! Name op = Some instance
       ∧ fail_get s (Name op) = None
       ∧ StoreRequestDetails (Some op) s
         = (Ok tt, set_objects s
                     (<[Name op := updatedInstance instance op (TaskID d) d]>
                        (objects s)))).
Proof.
  intros Hd. unfold StoreRequestDetails. rewrite Hd, convert_id.
  assert (Hcreate :
    (∃ e, k8sclient_Create (Name op) (createdInstance op d) s = (Err e, s))
    ∨ (objects s !! Name op = None
       ∧ k8sclient_Create (Name op) (createdInstance op d) s
         = (Ok tt, set_objects s (<[Name op := createdInstance op d]> (objects s))))).
  { unfold k8sclient_Create.
    destruct (fail_create s (Name op)); [eauto|].
    destruct (objects s !! Name op); eauto. }
  unfold k8sclient_Get.
  destruct (fail_get s (Name op)) as [e|] eqn:Hfg.
  - destruct (IsNotFound e); [|eauto].
    destruct Hcreate as [?|?]; eauto.
  - destruct (objects s !! Name op) as [instance|] eqn:Hobj; simpl.
    + unfold k8sclient_Update. rewrite Hobj.
      destruct (fail_update s (Name op)); [eauto|].
      right. right. by exists instance.
    + destruct Hcreate as [?|?]; eauto.
Qed.

(** A property of single entries that creation establishes and update
    keeps holds of every entry after a store. *)
Lemma store_entrywise (P : string → CnsVolumeOperationRequest → Prop) op s :
  (∀ name instance, objects s !! name = Some instance → P name instance) →
  (∀ o d, P (Name o) (createdInstance o d)) →
  (∀ o d instance, objects s !! Name o = Some instance →
     P (Name o) instance →
     P (Name o) (updatedInstance instance o (TaskID d) d)) →
  ∀ name instance,
    objects (snd (StoreRequestDetails op s)) !! name = Some instance →
    P name instance.
Proof.
  intros Hold Hnew Hupd.
  destruct op as [op|]; [|exact Hold].
  destruct (OperationDetails_ op) as [d|] eqn:Hd;
    [|unfold StoreRequestDetails; rewrite Hd; exact Hold].
  destruct (store_cases op d s Hd)
    as [[e ->] | [[Hfree ->] | (old & Hobj & _ & ->)]]; [exact Hold| |];
    intros name instance; simpl; rewrite lookup_insert;
    case_decide; try (by apply Hold); intros [= <-]; subst name.
  - apply Hnew.
  - apply Hupd; [done | by apply Hold].
Qed.

(** X1. A store never touches the entries stored under other names, and a
    store that returns an error (or panics) leaves the whole server as it
    was. *)
Theorem store_frame op s :
  (∀ o name, op = Some o → name ≠ Name o →
     objects (snd (StoreRequestDetails op s)) !! name = objects s !! name)
  ∧ (fst (StoreRequestDetails op s) ≠ Ok tt →
       snd (StoreRequestDetails op s) = s).
Proof.
  split.
  - intros o name -> Hne.
    destruct (OperationDetails_ o) as [d|] eqn:Hd;
      [|unfold StoreRequestDetails; by rewrite Hd].
    destruct (store_cases o d s Hd)
      as [[e ->] | [[Hfree ->] | (old & Hobj & _ & ->)]]; [done| |];
      simpl; by rewrite lookup_insert_ne.
  - intros Hfail. destruct op as [op|]; [|done].
    destruct (OperationDetails_ op) as [d|] eqn:Hd;
      [|unfold StoreRequestDetails; by rewrite Hd].
    destruct (store_cases op d s Hd)
      as [[e ->] | [[Hfree Hrun] | (old & Hobj & _ & Hrun)]]; [done| |];
      by rewrite Hrun in Hfail.
Qed.

(** ** Invariants of ledgers built by stores *)

Lemma names_agree_store op s :
  names_agree s → names_agree (snd (StoreRequestDetails op s)).
Proof.
  intros Hinv.
  refine (store_entrywise (fun name instance => Spec_Name instance = name)
            op s Hinv _ _); [done|].
  intros o d instance Hobj Hname. unfold updatedInstance.
  by destruct (updateExistingOperation _ _ _ _) as [latest []].
Qed.

Lemma NoDup_insert_same_key (l : list OperationDetails) i old d :
  l !! i = Some old → TaskID old = TaskID d →
  TaskID <$> <[i := d]> l = TaskID <$> l.
Proof.
  intros Hl Ht. rewrite list_fmap_insert, <- Ht.
  apply list_insert_id. by rewrite list_lookup_fmap, Hl.
Qed.

Lemma stored_list_distinct (l : list OperationDetails) d :
  NoDup (TaskID <$> l) → NoDup (TaskID <$> stored_list l d).
Proof.
  intros Hnd. unfold stored_list, updatedInstance; simpl.
  destruct (updateExistingOperation_spec d l l (length l))
    as [[-> Hno] | (i & old & Hi & Hl & Ht & -> & _)]; simpl.
  - assert (Happ : NoDup (TaskID <$> l ++ [d])).
    { rewrite fmap_app. apply NoDup_app. split; [done|]. split.
      - intros t Ht Hd. apply list_elem_of_singleton in Hd as ->.
        apply list_elem_of_fmap in Ht as (x & Hx & Hin).
        apply list_elem_of_lookup in Hin as [j Hj].
        apply (Hno j x); [by eapply lookup_lt_Some | done | done].
      - simpl. apply NoDup_singleton. }
    destruct (Nat.ltb _ _); [|done].
    rewrite fmap_drop. eapply sublist_NoDup; [exact Happ | apply sublist_drop].
  - by rewrite (NoDup_insert_same_key l i old d).
Qed.

Lemma tasks_distinct_store op s :
  tasks_distinct s → tasks_distinct (snd (StoreRequestDetails op s)).
Proof.
  intros Hinv.
  refine (store_entrywise
            (fun _ instance => NoDup (TaskID <$> LatestOperationDetails instance))
            op s Hinv _ _).
  - intros o d. simpl. apply NoDup_singleton.
  - intros o d instance Hobj Hnd.
    rewrite updatedInstance_latest. by apply stored_list_distinct.
Qed.

Lemma reachable_names s0 s : reachable s0 s → names_agree s.
Proof.
  induction 1 as [Hempty | s op _ IH].
  - intros name instance. by rewrite Hempty, lookup_empty.
  - by apply names_agree_store.
Qed.

(** X2. In a ledger built from the empty store by any sequence of stores,
    every entry holds between 1 and 10 latest operation details, and no two
    of them carry the same TaskID. *)
Theorem reachable_tasks_distinct s0 s :
  reachable s0 s → ledger_inv s ∧ tasks_distinct s.
Proof.
  intros Hreach. split; [by eapply reachable_inv|].
  induction Hreach as [Hempty | s op _ IH].
  - intros name instance. by rewrite Hempty, lookup_empty.
  - by apply tasks_distinct_store.
Qed.

(** What [GetRequestDetails] returns for an entry the server hands out. *)
Lemma get_of_entry s name instance :
  objects s !! name = Some instance →
  fail_get s name = None →
  (LatestOperationDetails instance = []
   ∧ ∃ msg, GetRequestDetails name s = Err (ErrMsg msg))
  ∨ (∃ latest,
       last (LatestOperationDetails instance) = Some latest
       ∧ GetRequestDetails name s
         = Ok {| Name := Spec_Name instance;
                 VolumeID := Status_VolumeID instance;
                 SnapshotID := Status_SnapshotID instance;
                 Capacity := Status_Capacity instance;
                 OperationDetails_ := Some latest |}).
Proof.
  intros Hobj Hfg. unfold GetRequestDetails, k8sclient_Get.
  rewrite Hfg, Hobj.
  destruct (LatestOperationDetails instance) as [|x l _] using rev_ind.
  - left. simpl. eauto.
  - right. exists x. rewrite last_snoc. split; [done|].
    rewrite length_app; simpl.
    replace (length l + 1 - 1) with (length l + 0) by lia.
    rewrite lookup_app_r, Nat.add_0_r, Nat.sub_diag by lia; simpl.
    destruct (Nat.eqb_spec (length l + 1) 0); [lia|].
    unfold CreateVolumeOperationRequestDetails. by destruct x.
Qed.

(** X3. In a ledger built from the empty store by any sequence of stores,
    GetRequestDetails on a stored name never reports the empty-list error:
    it returns details carrying that name and the entry's volume, snapshot
    and capacity. *)
Theorem reachable_get_succeeds s0 s name instance :
  reachable s0 s →
  objects s !! name = Some instance →
  fail_get s name = None →
  ∃ r latest,
    GetRequestDetails name s = Ok r
    ∧ Name r = name
    ∧ VolumeID r = Status_VolumeID instance
    ∧ SnapshotID r = Status_SnapshotID instance
    ∧ Capacity r = Status_Capacity instance
    ∧ OperationDetails_ r = Some latest
    ∧ last (LatestOperationDetails instance) = Some latest.
Proof.
  intros Hreach Hobj Hfg.
  pose proof (reachable_inv _ _ Hreach name instance Hobj) as [Hlen _].
  pose proof (reachable_names _ _ Hreach name instance Hobj) as Hname.
  destruct (get_of_entry s name instance Hobj Hfg) as [[Hnil _] | Hget].
  { rewrite Hnil in Hlen. simpl in Hlen. lia. }
  destruct Hget as (latest & Hlast & ->). rewrite Hname.
  eexists _, latest. by repeat split.
Qed.

(** ** Store, then get *)

Lemma existsb_task_false (l : list OperationDetails) d :
  (∀ j x, j < length l → l !! j = Some x → TaskID x ≠ TaskID d) →
  existsb (fun y => String.eqb (TaskID y) (TaskID d)) l = false.
Proof.
  intros Hno. apply not_true_is_false. intros Hex.
  apply existsb_exists in Hex as (y & Hin & Hy%String.eqb_eq).
  apply list_elem_of_In, list_elem_of_lookup in Hin as [j Hj].
  apply (Hno j y); [by eapply lookup_lt_Some | done | done].
Qed.

Lemma existsb_task_true (l : list OperationDetails) d i old :
  l !! i = Some old → TaskID old = TaskID d →
  existsb (fun y => String.eqb (TaskID y) (TaskID d)) l = true.
Proof.
  intros Hl Ht. apply existsb_exists. exists old. split.
  - apply list_elem_of_In, list_elem_of_lookup. eauto.
  - by apply String.eqb_eq.
Qed.

Lemma last_stored_list (l : list OperationDetails) d :
  last (stored_list l d) = Some (latest_after l d).
Proof.
  unfold latest_after, stored_list, updatedInstance; simpl.
  destruct (updateExistingOperation_spec d l l (length l))
    as [[-> Hno] | (i & old & Hi & Hl & Ht & -> & Hlater)]; simpl.
  - rewrite (existsb_task_false l d Hno).
    assert (Hlast : last (if Nat.ltb maxEntriesInLatestOperationDetails
                               (length (l ++ [d]))
                          then drop 1 (l ++ [d]) else l ++ [d]) = Some d).
    { destruct (Nat.ltb_spec maxEntriesInLatestOperationDetails
                  (length (l ++ [d]))) as [Hlt|_]; [|apply last_snoc].
      destruct l as [|y l].
      - simpl in Hlt. unfold maxEntriesInLatestOperationDetails in Hlt. lia.
      - simpl. rewrite drop_0. apply last_snoc. }
    rewrite Hlast. destruct (last l); [|done]. by rewrite andb_false_r.
  - rewrite (existsb_task_true l d i old Hl Ht).
    destruct l as [|x h _] using rev_ind; [done|].
    rewrite last_snoc, andb_true_r.
    destruct (String.eqb (TaskID x) (TaskID d)) eqn:Hx; simpl.
    + apply String.eqb_eq in Hx.
      assert (i = length h) as ->.
      { rewrite length_app in Hi; simpl in Hi.
        destruct (decide (i = length h)) as [|Hne]; [done|].
        exfalso. apply (Hlater (length h) x); [lia | | | done].
        - rewrite length_app; simpl; lia.
        - by rewrite lookup_app_r, Nat.sub_diag by lia. }
      replace (length h) with (length h + 0) by lia.
      rewrite insert_app_r. simpl. apply last_snoc.
    + apply String.eqb_neq in Hx.
      assert (i < length h).
      { rewrite length_app in Hi; simpl in Hi.
        destruct (decide (i = length h)) as [->|Hne]; [|lia].
        rewrite lookup_app_r, Nat.sub_diag in Hl by lia.
        injection Hl as <-. congruence. }
      rewrite insert_app_l by done. apply last_snoc.
Qed.

(** X4. After a store that succeeded, GetRequestDetails under the same name
    returns the stored volume, snapshot and capacity, and as operation the
    stored one, except when its TaskID was already in the entry's list at a
    place other than the end: then the get still returns the entry's
    previous last operation. *)
Theorem store_then_get op d s s' :
  OperationDetails_ op = Some d →
  StoreRequestDetails (Some op) s = (Ok tt, s') →
  fail_get s (Name op) = None →
  ∃ r,
    GetRequestDetails (Name op) s' = Ok r
    ∧ VolumeID r = VolumeID op
    ∧ SnapshotID r = SnapshotID op
    ∧ Capacity r = Capacity op
    ∧ OperationDetails_ r
      = Some (match objects s !! Name op with
              | None => d
              | Some instance => latest_after (LatestOperationDetails instance) d
              end).
Proof.
  intros Hd Hrun Hfg.
  destruct (store_cases op d s Hd)
    as [[e He] | [[Hfree Hc] | (old & Hobj & _ & Hu)]];
    [congruence | |]; rewrite Hrun in *.
  - injection Hc as ->. rewrite Hfree.
    destruct (get_of_entry
                (set_objects s (<[Name op := createdInstance op d]> (objects s)))
                (Name op) (createdInstance op d))
      as [[Hnil _] | (latest & Hlast & ->)];
      [simpl; apply lookup_insert_eq | done | done |].
    simpl in Hlast. injection Hlast as <-. eexists. by repeat split.
  - injection Hu as ->. rewrite Hobj.
    destruct (get_of_entry
                (set_objects s
                   (<[Name op := updatedInstance old op (TaskID d) d]> (objects s)))
                (Name op) (updatedInstance old op (TaskID d) d))
      as [[Hnil _] | (latest & Hlast & ->)];
      [simpl; apply lookup_insert_eq | done | |].
    + rewrite updatedInstance_latest in Hnil.
      pose proof (last_stored_list (LatestOperationDetails old) d) as Hl.
      by rewrite Hnil in Hl.
    + rewrite updatedInstance_latest, last_stored_list in Hlast.
      injection Hlast as <-.
      eexists. split; [done|]. repeat split;
        unfold updatedInstance;
        by destruct (updateExistingOperation _ _ _ _) as [latest []].
Qed.

(** X5. The TaskID of an entry's FirstOperationDetails never changes once it
    is not empty; while it is empty, a store puts the stored operation
    there. *)
Theorem first_operation_task_stable op d s s' instance :
  OperationDetails_ op = Some d →
  StoreRequestDetails (Some op) s = (Ok tt, s') →
  objects s !! Name op = Some instance →
  ∃ instance',
    objects s' !! Name op = Some instance'
    ∧ (TaskID (FirstOperationDetails instance) ≠ "" →
         TaskID (FirstOperationDetails instance')
         = TaskID (FirstOperationDetails instance))
    ∧ (TaskID (FirstOperationDetails instance) = "" →
         FirstOperationDetails instance' = d).
Proof.
  intros Hd Hrun Hobj.
  destruct (store_cases op d s Hd)
    as [[e He] | [[Hfree Hc] | (old & Hobj' & _ & Hu)]];
    [congruence | congruence |].
  rewrite Hrun in Hu. injection Hu as ->.
  rewrite Hobj in Hobj'. injection Hobj' as <-.
  eexists. split; [simpl; apply lookup_insert_eq|].
  unfold updatedInstance.
  destruct (updateExistingOperation _ _ _ _) as [latest flag]; simpl.
  split.
  - intros Hne. apply String.eqb_neq in Hne. rewrite Hne. simpl.
    destruct (String.eqb _ (TaskID d)) eqn:Heq; [|done].
    by apply String.eqb_eq in Heq.
  - by intros ->.
Qed.

(** ** The theorems on a concrete ledger *)

Import LedgerFixture.

Lemma store_frame_witness :
  objects (snd (StoreRequestDetails (Some (fx_request (fx_task 2 "task-2")))
                  (fx_server [fx_task 1 "task-1"]))) !! "pvc-2"
  = None.
Proof.
  rewrite (proj1 (store_frame (Some (fx_request (fx_task 2 "task-2")))
                    (fx_server [fx_task 1 "task-1"]))
             (fx_request (fx_task 2 "task-2")) "pvc-2" eq_refl);
    [reflexivity | discriminate].
Defined.

Lemma reachable_tasks_distinct_witness :
  tasks_distinct
    (snd (StoreRequestDetails (Some (fx_request (fx_task 1 "task-1")))
            (mkApiServer ∅ (fun _ => None) (fun _ => None) (fun _ => None)))).
Proof.
  apply (reachable_tasks_distinct
           (mkApiServer ∅ (fun _ => None) (fun _ => None) (fun _ => None))).
  apply reach_store, reach_init. reflexivity.
Defined.

Lemma reachable_get_succeeds_witness :
  ∃ r, GetRequestDetails "pvc-1"
         (snd (StoreRequestDetails (Some (fx_request (fx_task 1 "task-1")))
                 (mkApiServer ∅ (fun _ => None) (fun _ => None) (fun _ => None))))
       = Ok r ∧ Name r = "pvc-1".
Proof.
  destruct (reachable_get_succeeds
              (mkApiServer ∅ (fun _ => None) (fun _ => None) (fun _ => None))
              (snd (StoreRequestDetails (Some (fx_request (fx_task 1 "task-1")))
                      (mkApiServer ∅ (fun _ => None) (fun _ => None)
                         (fun _ => None))))
              "pvc-1" (createdInstance (fx_request (fx_task 1 "task-1"))
                         (fx_task 1 "task-1")))
    as (r & latest & Hget & Hname & _);
    [apply reach_store, reach_init; reflexivity | reflexivity | reflexivity |].
  exists r. by split.
Defined.

(** Re-storing [task-1] after [task-2]: the get still returns [task-2]. *)
Lemma store_then_get_witness :
  ∃ r, GetRequestDetails "pvc-1"
         (snd (StoreRequestDetails (Some (fx_request (fx_task 3 "task-1")))
                 (fx_server [fx_task 1 "task-1"; fx_task 2 "task-2"])))
       = Ok r
     ∧ OperationDetails_ r = Some (fx_task 2 "task-2").
Proof.
  destruct (store_then_get (fx_request (fx_task 3 "task-1")) (fx_task 3 "task-1")
              (fx_server [fx_task 1 "task-1"; fx_task 2 "task-2"])
              (snd (StoreRequestDetails (Some (fx_request (fx_task 3 "task-1")))
                      (fx_server [fx_task 1 "task-1"; fx_task 2 "task-2"]))))
    as (r & Hget & _ & _ & _ & Hop); [reflexivity..|].
  exists r. split; [exact Hget | exact Hop].
Defined.

Lemma first_operation_task_stable_witness :
  ∃ instance',
    objects (snd (StoreRequestDetails (Some (fx_request (fx_task 2 "task-2")))
                    (fx_server [fx_task 1 "task-1"]))) !! "pvc-1"
    = Some instance'
    ∧ TaskID (FirstOperationDetails instance') = "task-1".
Proof.
  destruct (first_operation_task_stable
              (fx_request (fx_task 2 "task-2")) (fx_task 2 "task-2")
              (fx_server [fx_task 1 "task-1"])
              (snd (StoreRequestDetails (Some (fx_request (fx_task 2 "task-2")))
                      (fx_server [fx_task 1 "task-1"])))
              (fx_instance [fx_task 1 "task-1"]))
    as (instance' & Hobj & Hkeep & _); [reflexivity..|].
  exists instance'. split; [exact Hobj|]. apply Hkeep. discriminate.
Defined.

End LedgerExtra.

(** * More properties of the node service *)
Module NodeExtra.
Import Node NodeMore NodeSpec.
Local Open Scope nat_scope.

(** Splits the goal and the hypotheses into their parts and closes what
    follows by congruence. *)
Ltac crush :=
  repeat (split || intros);
  repeat match goal with
         | H : _ ∧ _ |- _ => destruct H
         | H : ∃ _, _ |- _ => destruct H
         | H : Ok _ = Ok _ |- _ => injection H as H; subst
         end;
  try congruence; eauto.

(** ** Target paths: [verifyTargetDir], [mkdir], [mkfile], [rmpath] *)

Lemma verifyTargetDir_result tgt targetShouldExist w :
  fst (verifyTargetDir tgt targetShouldExist w) =
    if String.eqb tgt "" then Err (Status InvalidArgument "target path required")
    else
      match os_Stat tgt w with
      | Ok st =>
          if negb (fi_IsDir st) then
            Err (Status FailedPrecondition "existing path: %s is not a directory")
          else Ok true
      | Err e =>
          if IsNotExist e then
            if targetShouldExist then
              Err (Status FailedPrecondition "target: %s not pre-created")
            else Ok false
          else Err (Status Internal "failed to stat target, err: %s")
      | Panic => Panic
      end.
Proof.
  unfold verifyTargetDir, bind, try, query.
  destruct (String.eqb tgt ""); [done|].
  destruct (os_Stat tgt w) as [st|e|]; simpl; [by destruct (fi_IsDir st)| |done].
  by destruct (IsNotExist e), targetShouldExist.
Qed.

(** X6. verifyTargetDir only reads the host; it answers true exactly for a
    non-empty path that stat reports as a directory, and false exactly for a
    non-empty path that does not exist when existence is not required. An
    empty path is InvalidArgument, a missing required path and an existing
    non-directory are FailedPrecondition. *)
Theorem verifyTargetDir_outcomes tgt targetShouldExist w :
  snd (verifyTargetDir tgt targetShouldExist w) = w
  ∧ (fst (verifyTargetDir tgt targetShouldExist w) = Ok true
     ↔ tgt ≠ "" ∧ ∃ st, os_Stat tgt w = Ok st ∧ fi_IsDir st = true)
  ∧ (fst (verifyTargetDir tgt targetShouldExist w) = Ok false
     ↔ tgt ≠ "" ∧ targetShouldExist = false ∧ os_Stat tgt w = Err ENOENT)
  ∧ (tgt = "" →
     ∃ msg, fst (verifyTargetDir tgt targetShouldExist w)
            = Err (Status InvalidArgument msg))
  ∧ (tgt ≠ "" → targetShouldExist = true → os_Stat tgt w = Err ENOENT →
     ∃ msg, fst (verifyTargetDir tgt targetShouldExist w)
            = Err (Status FailedPrecondition msg))
  ∧ (tgt ≠ "" → ∀ st, os_Stat tgt w = Ok st → fi_IsDir st = false →
     ∃ msg, fst (verifyTargetDir tgt targetShouldExist w)
            = Err (Status FailedPrecondition msg)).
Proof.
  split; [apply verifyTargetDir_ro|].
  rewrite verifyTargetDir_result.
  destruct (String.eqb_spec tgt "") as [->|Hne]; [crush|].
  destruct (os_Stat tgt w) as [st|e|] eqn:Hstat; simpl.
  - destruct (fi_IsDir st) eqn:Hdir; simpl; crush.
  - destruct e as [c msg| |msg], targetShouldExist; simpl; crush.
  - crush.
Qed.

(** X7. After a mkdir that returned without error the path is a directory;
    the flag says whether it had to be created, and a second mkdir finds it
    in place: it returns false and changes nothing. *)
Theorem mkdir_establishes path w created :
  fst (mkdir path w) = Ok created →
  let w1 := snd (mkdir path w) in
  (∃ st, os_Stat path w1 = Ok st ∧ fi_IsDir st = true)
  ∧ (created = true ↔ os_Stat path w = Err ENOENT)
  ∧ (created = false → w1 = w)
  ∧ mkdir path w1 = (Ok false, w1).
Proof.
  unfold mkdir at 1 2 3. unfold bind, try, query.
  destruct (os_Stat path w) as [st|e|] eqn:Hstat; simpl; [| |done].
  - destruct (fi_IsDir st) eqn:Hdir; simpl; [|done].
    intros [= <-]. repeat split; eauto; try done.
    unfold mkdir, bind, try, query. by rewrite Hstat, Hdir.
  - destruct (IsNotExist e) eqn:He; [|done].
    destruct e; try done.
    unfold os_Mkdir; simpl.
    destruct (refuses w (CmdMkdir path)); [done|].
    destruct (files w !! path) eqn:Hp; [done|]. simpl.
    intros [= <-].
    assert (Hnow : os_Stat path
                     (set_files (issue (CmdMkdir path) w)
                        (<[path := Directory]> (files w)))
                   = Ok (mkFileInfo (Base path) true false)).
    { unfold os_Stat; simpl. by rewrite lookup_insert_eq. }
    repeat split; eauto; try done.
    unfold mkdir, bind, try, query. by rewrite Hnow.
Qed.

(** X8. After a mkfile that returned without error the path exists and is
    not a directory; the flag says whether it had to be created, and a
    second mkfile returns false and changes nothing. *)
Theorem mkfile_establishes path w created :
  fst (mkfile path w) = Ok created →
  let w1 := snd (mkfile path w) in
  (∃ st, os_Stat path w1 = Ok st ∧ fi_IsDir st = false)
  ∧ (created = true ↔ os_Stat path w = Err ENOENT)
  ∧ (created = false → w1 = w)
  ∧ mkfile path w1 = (Ok false, w1).
Proof.
  intros Hrun w1.
  destruct (os_Stat path w) as [st|e|] eqn:Hstat.
  - unfold w1 in *. unfold mkfile, bind, try, query in *.
    rewrite Hstat in *. simpl in *.
    destruct (fi_IsDir st) eqn:Hdir; simpl in *; [done|].
    injection Hrun as <-. repeat split; eauto; try done.
    by rewrite Hstat, Hdir.
  - assert (e = ENOENT ∧ refuses w (CmdOpenCreate path) = false) as [-> Hacc].
    { rewrite mkfile_result, Hstat in Hrun.
      destruct e; try done. simpl in Hrun.
      by destruct (refuses w (CmdOpenCreate path)). }
    destruct (mkfile_creates path w Hstat Hacc) as (w' & Hmk & Hnow & _).
    unfold w1. rewrite Hmk in *. simpl in *. injection Hrun as <-.
    repeat split; eauto; try done.
    unfold mkfile, bind, try, query. by rewrite Hnow.
  - rewrite mkfile_result, Hstat in Hrun. done.
Qed.

(** X9. rmpath either removes the path, which then no longer exists, or
    fails Internal and leaves the file system as it was; it never touches
    the mount table. *)
Theorem rmpath_outcomes tgt w :
  let w1 := snd (rmpath tgt w) in
  mountTable w1 = mountTable w
  ∧ (fst (rmpath tgt w) = Ok tt →
       files w !! tgt ≠ None ∧ files w1 = delete tgt (files w)
       ∧ os_Lstat tgt w1 = Err ENOENT)
  ∧ (fst (rmpath tgt w) ≠ Ok tt →
       files w1 = files w
       ∧ ∃ msg, fst (rmpath tgt w) = Err (Status Internal msg)).
Proof.
  unfold rmpath, or_fail, os_Remove; simpl.
  destruct (refuses w (CmdRemove tgt)); simpl; [crush|].
  destruct (files w !! tgt) eqn:Hp; simpl; [|crush].
  repeat split; try done.
  unfold os_Lstat; simpl. by rewrite lookup_delete_eq.
Qed.

(** ** Devices: [getDevice], [verifyVolumeAttached], [getDevFromMount],
       [getDevMounts] *)

Lemma os_Lstat_name p w fi : os_Lstat p w = Ok fi → fi_Name fi = Base p.
Proof.
  unfold os_Lstat. destruct (files w !! p) as [[]|]; simpl; try done;
    by intros [= <-].
Qed.

(** What [EvalSymlinks] returns is an existing path that is not a link. *)
Lemma EvalSymlinks_target p w d :
  EvalSymlinks p w = Ok d →
  files w !! d = Some Regular ∨ files w !! d = Some Directory
  ∨ files w !! d = Some DeviceNode.
Proof.
  unfold EvalSymlinks.
  destruct (files w !! p) as [[| | |d'|]|] eqn:Hp; try done;
    try (intros [= <-]; rewrite Hp; eauto).
  destruct (files w !! d') as [[| | |d''|]|] eqn:Hd; try done;
    intros [= <-]; rewrite Hd; eauto.
Qed.

Lemma getDevice_device_node w d :
  files w !! d = Some DeviceNode →
  getDevice d w = (Ok (mkDevice d (Base d) d), w).
Proof.
  intros Hd. unfold getDevice, bind, query, os_Lstat, EvalSymlinks, os_Stat.
  rewrite Hd. simpl. rewrite Hd. reflexivity.
Qed.

Lemma getDevice_real_node path w dev :
  fst (getDevice path w) = Ok dev → files w !! RealDev dev = Some DeviceNode.
Proof.
  unfold getDevice, bind, query.
  destruct (os_Lstat path w) as [fi| |] eqn:Hl; simpl; try done.
  destruct (EvalSymlinks path w) as [d| |] eqn:He; simpl; try done.
  destruct (os_Stat d w) as [ds| |] eqn:Hs; simpl; try done.
  destruct (fi_IsDevice ds) eqn:Hdev; simpl; [|done].
  intros [= <-]. simpl.
  unfold os_Stat in Hs.
  destruct (EvalSymlinks_target _ _ _ He) as [Hd | [Hd | Hd]];
    rewrite Hd in Hs; simpl in Hs; injection Hs as <-; done.
Qed.

Lemma getDevice_FullPath path w dev :
  fst (getDevice path w) = Ok dev → FullPath dev = path.
Proof.
  unfold getDevice, bind, query.
  destruct (os_Lstat path w) as [fi| |]; simpl; try done.
  destruct (EvalSymlinks path w) as [d| |]; simpl; try done.
  destruct (os_Stat d w) as [ds| |]; simpl; try done.
  destruct (fi_IsDevice ds); simpl; [|done]. by intros [= <-].
Qed.

(** X10. A device that getDevice returns carries the path it was asked for,
    the base name of that path, and as real path the place the links lead
    to, which is a device node; resolving the real path again gives the same
    real path.  getDevice only reads the host. *)
Theorem getDevice_success path w dev :
  fst (getDevice path w) = Ok dev →
  snd (getDevice path w) = w
  ∧ FullPath dev = path
  ∧ Name dev = Base path
  ∧ EvalSymlinks path w = Ok (RealDev dev)
  ∧ files w !! RealDev dev = Some DeviceNode
  ∧ ∃ dev', fst (getDevice (RealDev dev) w) = Ok dev'
            ∧ RealDev dev' = RealDev dev.
Proof.
  intros Hrun. split; [apply getDevice_ro|].
  unfold getDevice, bind, query in Hrun.
  destruct (os_Lstat path w) as [fi| |] eqn:Hl; simpl in Hrun; try done.
  destruct (EvalSymlinks path w) as [d| |] eqn:He; simpl in Hrun; try done.
  destruct (os_Stat d w) as [ds| |] eqn:Hs; simpl in Hrun; try done.
  destruct (fi_IsDevice ds) eqn:Hdev; simpl in Hrun; [|done].
  injection Hrun as <-. simpl.
  assert (Hnode : files w !! d = Some DeviceNode).
  { unfold os_Stat in Hs.
    destruct (EvalSymlinks_target _ _ _ He) as [Hd | [Hd | Hd]];
      rewrite Hd in Hs; simpl in Hs; injection Hs as <-; done. }
  repeat split; try done; [by eapply os_Lstat_name|].
  rewrite (getDevice_device_node w d Hnode). by eexists.
Qed.

Lemma string_app_assoc a b c : (a +:+ b) +:+ c = a +:+ b +:+ c.
Proof.
  induction a as [|x a IH]; [done|].
  change (String x ((a +:+ b) +:+ c) = String x (a +:+ b +:+ c)).
  by rewrite IH.
Qed.

Lemma strip_prefix_app pre s : strip_prefix pre (pre +:+ s) = Some s.
Proof.
  induction pre as [|c pre IH]; simpl; [by destruct s|].
  by rewrite Ascii.eqb_refl.
Qed.

Lemma strip_prefix_inv pre p n : strip_prefix pre p = Some n → p = pre +:+ n.
Proof.
  revert p. induction pre as [|c pre IH]; intros p; simpl.
  - destruct p; by intros [= <-].
  - destruct p as [|b p]; [done|].
    destruct (Ascii.eqb_spec c b) as [->|]; [|done].
    intros Hp. by rewrite (IH _ Hp).
Qed.

Lemma child_name_spec dir p n :
  child_name dir p = Some n
  ↔ p = dir +:+ "/" +:+ n ∧ n ≠ "" ∧ has_slash n = false.
Proof.
  unfold child_name. split.
  - destruct (strip_prefix (dir +:+ "/") p) as [n'|] eqn:Hs; [|done].
    destruct (String.eqb_spec n' ""); simpl; [done|].
    destruct (has_slash n') eqn:Hn; [done|].
    intros [= <-]. apply strip_prefix_inv in Hs. subst p.
    repeat split; try done. apply string_app_assoc.
  - intros (-> & Hne & Hsl).
    rewrite <- string_app_assoc, strip_prefix_app, Hsl.
    by destruct (String.eqb_spec n "").
Qed.

Lemma ReadDir_elem dir w names n :
  ReadDir dir w = Ok names →
  n ∈ names
  ↔ n ≠ "" ∧ has_slash n = false ∧ files w !! (dir +:+ "/" +:+ n) ≠ None.
Proof.
  unfold ReadDir. destruct (files w !! dir) as [[]|]; try done.
  intros [= <-]. rewrite list_elem_of_omap. split.
  - intros ([p i] & Hin & Hc). simpl in Hc.
    apply elem_of_map_to_list in Hin.
    apply child_name_spec in Hc as (-> & Hne & Hsl).
    repeat split; try done. by rewrite Hin.
  - intros (Hne & Hsl & Hp).
    destruct (files w !! (dir +:+ "/" +:+ n)) as [i|] eqn:Hi; [|done].
    exists (dir +:+ "/" +:+ n, i). split; [by apply elem_of_map_to_list|].
    simpl. by apply child_name_spec.
Qed.

Lemma find_eqb_Some (l : list string) t x :
  List.find (fun f => String.eqb f t) l = Some x → x = t ∧ t ∈ l.
Proof.
  intros Hf. apply List.find_some in Hf as [Hin Hx].
  apply String.eqb_eq in Hx. subst. split; [done|].
  by apply list_elem_of_In.
Qed.

Lemma find_eqb_None (l : list string) t :
  List.find (fun f => String.eqb f t) l = None → t ∉ l.
Proof.
  intros Hf Hin. apply list_elem_of_In in Hin.
  apply (List.find_none _ _ Hf) in Hin. by rewrite String.eqb_refl in Hin.
Qed.



Lemma find_at_target_None tgt mnts :
  List.find (fun m => String.eqb (Path m) tgt) mnts = None
  ↔ IsTargetInMounts tgt mnts = false.
Proof.
  unfold IsTargetInMounts.
  induction mnts as [|m mnts IH]; simpl; [done|].
  by destruct (String.eqb (Path m) tgt).
Qed.

Lemma getDevFromMount_nil tgt w :
  fst (getDevFromMount tgt w) = Ok None
  ↔ ∃ mnts, GetMounts w = Ok mnts ∧ IsTargetInMounts tgt mnts = false.
Proof.
  unfold getDevFromMount, bind, query.
  destruct (GetMounts w) as [mnts|e|]; simpl; [|crush..].
  destruct (List.find _ mnts) as [m|] eqn:Hfind; simpl.
  - assert (Hin : IsTargetInMounts tgt mnts = true).
    { destruct (IsTargetInMounts tgt mnts) eqn:Hno; [done|].
      apply find_at_target_None in Hno. congruence. }
    split.
    + destruct (getDevice _ w) as [[dev| |] w']; done.
    + intros (mnts' & [= <-] & Hno). congruence.
  - apply find_at_target_None in Hfind. split; [|done].
    intros _. by exists mnts.
Qed.

(** X12. getDevFromMount returns nil exactly when the mount table can be read
    and nothing is mounted at the target.  When it returns a device, that is
    the device behind the first mount at the target: its path is the mount's
    device token, or the mount's source when the token is the udev or
    devtmpfs placeholder, and its real path is a device node. *)
Theorem getDevFromMount_outcomes tgt w :
  (fst (getDevFromMount tgt w) = Ok None
   ↔ ∃ mnts, GetMounts w = Ok mnts ∧ IsTargetInMounts tgt mnts = false)
  ∧ (∀ dev, fst (getDevFromMount tgt w) = Ok (Some dev) →
       ∃ mnts m,
         GetMounts w = Ok mnts
         ∧ List.find (fun m => String.eqb (Path m) tgt) mnts = Some m
         ∧ FullPath dev = mount_token m
         ∧ files w !! RealDev dev = Some DeviceNode).
Proof.
  unfold getDevFromMount, bind, query.
  destruct (GetMounts w) as [mnts|e|]; simpl; [|crush..].
  destruct (List.find _ mnts) as [m|] eqn:Hfind; simpl.
  - fold (mount_token m).
    assert (Hin : IsTargetInMounts tgt mnts = true).
    { destruct (IsTargetInMounts tgt mnts) eqn:Hno; [done|].
      apply find_at_target_None in Hno. congruence. }
    split.
    + split.
      * destruct (getDevice (mount_token m) w) as [[dev| |] w']; done.
      * intros (mnts' & [= <-] & Hno). congruence.
    + intros dev Hdev.
      destruct (getDevice (mount_token m) w) as [[dev'| |] w'] eqn:Hg;
        simpl in Hdev; try done.
      injection Hdev as ->.
      assert (Hrun : fst (getDevice (mount_token m) w) = Ok dev)
        by by rewrite Hg.
      pose proof (getDevice_FullPath _ _ _ Hrun) as Hfull.
      pose proof (getDevice_real_node _ _ _ Hrun) as Hnode.
      by exists mnts, m.
  - apply find_at_target_None in Hfind. split; [|done].
    split; [|done]. intros _. by exists mnts.
Qed.

Lemma filter_sublist_weaken {A} (P Q : A → bool) (l : list A) :
  (∀ x, P x = true → Q x = true) →
  List.filter P l `sublist_of` List.filter Q l.
Proof.
  intros HPQ. induction l as [|x l IH]; simpl; [done|].
  destruct (P x) eqn:HP.
  - rewrite (HPQ x HP). by apply sublist_skip.
  - destruct (Q x); [by apply sublist_cons | done].
Qed.

(** X13. The mounts getDevMounts reports for a device are entries of the
    mount table whose device token is the device's real path, or the
    devtmpfs placeholder with that real path as source; they include, in
    order, every mount that gofsutil's GetDevMounts reports for the real
    path. *)
Theorem getDevMounts_covers dev w mnts :
  GetDevMounts (RealDev dev) w = Ok mnts →
  ∃ devMnts,
    getDevMounts dev w = (Ok devMnts, w)
    ∧ mnts `sublist_of` devMnts
    ∧ devMnts `sublist_of` mountTable w
    ∧ ∀ m, m ∈ devMnts →
        Device_ m = RealDev dev
        ∨ (Device_ m = "devtmpfs" ∧ Source m = RealDev dev).
Proof.
  unfold GetDevMounts, getDevMounts, bind, query, GetMounts.
  destruct (mounts_unreadable w); [done|]. intros [= <-].
  eexists. split; [reflexivity|]. split; [|split].
  - apply filter_sublist_weaken. intros m ->. done.
  - induction (mountTable w) as [|x l IH]; simpl; [done|].
    destruct (_ || _); [by apply sublist_skip | by apply sublist_cons].
  - intros m Hm. apply list_elem_of_In, List.filter_In in Hm as [_ Hm].
    apply orb_prop in Hm as [Hm | Hm].
    + left. by apply String.eqb_eq.
    + right. apply andb_prop in Hm as [H1 H2].
      split; by apply String.eqb_eq.
Qed.

(** ** What the calls issue *)

Lemma emits_ro {T} n A (m : M T) : read_only m → emits n A m.
Proof.
  intros Hro w. exists []. rewrite (Hro w), app_nil_r.
  repeat split; [simpl; lia | constructor].
Qed.

Lemma emits_bind {T U} n n' A (m : M T) (k : T → M U) :
  emits n A m → (∀ a, emits n' A (k a)) → emits (n + n') A (bind m k).
Proof.
  intros Hm Hk w. unfold bind. destruct (Hm w) as (cs & Hlog & Hlen & Hall).
  destruct (m w) as [[a|e|] w1]; simpl in *.
  - destruct (Hk a w1) as (cs' & Hlog' & Hlen' & Hall').
    exists (cs ++ cs'). rewrite Hlog', Hlog, app_assoc, length_app.
    repeat split; [lia | by apply Forall_app].
  - exists cs. repeat split; [done | lia | done].
  - exists cs. repeat split; [done | lia | done].
Qed.

Lemma emits_bind_ro {T U} n A (m : M T) (k : T → M U) :
  read_only m → (∀ a, emits n A (k a)) → emits n A (bind m k).
Proof.
  intros Hm Hk. apply (emits_bind 0 n); [by apply emits_ro | done].
Qed.

Lemma emits_or_fail {T} n A (m : M T) e : emits n A m → emits n A (or_fail m e).
Proof.
  intros Hm w. unfold or_fail. specialize (Hm w).
  by destruct (m w) as [[a|e'|] w1].
Qed.

Lemma emits_weaken {T} n n' A (m : M T) : n ≤ n' → emits n A m → emits n' A m.
Proof.
  intros Hle Hm w. destruct (Hm w) as (cs & Hlog & Hlen & Hall).
  exists cs. repeat split; [done | lia | done].
Qed.

Lemma emits_one {T} (A : Cmd → Prop) c (m : M T) :
  A c → (∀ w, log (snd (m w)) = log w ++ [c]) → emits 1 A m.
Proof.
  intros Hc Hm w. exists [c]. repeat split; [apply Hm | done | by constructor].
Qed.

Lemma mount_command_emits A c : A c → emits 1 A (mount_command c).
Proof.
  intros Hc. apply (emits_one A c); [done|]. intros w.
  unfold mount_command; simpl. by destruct (refuses w c).
Qed.

Lemma Unmount_emits A t : A (CmdUnmount t) → emits 1 A (Unmount t).
Proof.
  intros Hc. apply (emits_one A (CmdUnmount t)); [done|]. intros w.
  unfold Unmount; simpl. destruct (refuses w (CmdUnmount t)); [done|].
  by destruct (remove_last_at t (mountTable w)).
Qed.

Lemma os_Remove_emits A p : A (CmdRemove p) → emits 1 A (os_Remove p).
Proof.
  intros Hc. apply (emits_one A (CmdRemove p)); [done|]. intros w.
  unfold os_Remove; simpl. destruct (refuses w (CmdRemove p)); [done|].
  by destruct (files w !! p).
Qed.

Lemma mkdir_emits A p : A (CmdMkdir p) → emits 1 A (mkdir p).
Proof.
  intros Hc. unfold mkdir.
  apply emits_bind_ro; [apply ro_try, ro_query | intros [st|e]].
  - destruct (negb (fi_IsDir st)); by apply emits_ro.
  - destruct (IsNotExist e); [|by apply emits_ro].
    apply (emits_one A (CmdMkdir p)); [done|]. intros w.
    unfold bind, os_Mkdir; simpl. destruct (refuses w (CmdMkdir p)); [done|].
    by destruct (files w !! p).
Qed.

Lemma mkfile_emits A p : A (CmdOpenCreate p) → emits 1 A (mkfile p).
Proof.
  intros Hc. unfold mkfile.
  apply emits_bind_ro; [apply ro_try, ro_query | intros [st|e]].
  - destruct (fi_IsDir st); by apply emits_ro.
  - destruct (IsNotExist e); [|by apply emits_ro].
    apply (emits_one A (CmdOpenCreate p)); [done|]. intros w.
    unfold bind, os_OpenFile_create; simpl.
    destruct (refuses w (CmdOpenCreate p)); [done|].
    by destruct (files w !! create_path p (issue (CmdOpenCreate p) w)).
Qed.

(** ** What the calls leave alone *)

Lemma kf_ro {T} (m : M T) : read_only m → keeps_files m.
Proof. intros Hro w. by rewrite (Hro w). Qed.

Lemma kf_bind {T U} (m : M T) (k : T → M U) :
  keeps_files m → (∀ a, keeps_files (k a)) → keeps_files (bind m k).
Proof.
  intros Hm Hk w. unfold bind. specialize (Hm w).
  destruct (m w) as [[a|e|] w1]; simpl in *; [|done..].
  by rewrite (Hk a w1).
Qed.

Lemma kf_or_fail {T} (m : M T) e : keeps_files m → keeps_files (or_fail m e).
Proof.
  intros Hm w. unfold or_fail. specialize (Hm w).
  by destruct (m w) as [[a|e'|] w1].
Qed.

Lemma mount_command_kf c : keeps_files (mount_command c).
Proof. intros w. unfold mount_command; simpl. by destruct (refuses w c). Qed.

Lemma Unmount_kf t : keeps_files (Unmount t).
Proof.
  intros w. unfold Unmount; simpl. destruct (refuses w (CmdUnmount t)); [done|].
  by destruct (remove_last_at t (mountTable w)).
Qed.

Section Service.
Context `{C : Common}.

Lemma ensureMountVol_ro cap : read_only (ensureMountVol cap).
Proof. unfold ensureMountVol. by destruct (access_type cap) as [[]|]. Qed.

Lemma nodeStageBlockVolume_emits req params :
  emits 1 (is_stage_cmd (sp_stagingTarget params))
    (nodeStageBlockVolume req params).
Proof.
  unfold nodeStageBlockVolume.
  apply emits_bind_ro; [apply getDiskID_ro | intros diskID].
  apply emits_bind_ro; [apply verifyVolumeAttached_ro | intros volPath].
  apply emits_bind_ro; [apply ro_or_fail, getDevice_ro | intros dev].
  assert (Hrest : emits 1 (is_stage_cmd (sp_stagingTarget params))
    (bind (or_fail (query (GetDevMounts (RealDev dev)))
             (Status Internal "could not reliably determine existing mount status. Parameters: %v err: %v"))
       (fun mnts =>
          if Nat.eqb (length mnts) 0 then
            if sp_ro params then
              or_fail (Mount (FullPath dev) (sp_stagingTarget params)
                         (sp_fsType params) (sp_mntFlags params ++ ["ro"]))
                (Status Internal "error mounting volume. Parameters: %v err: %v")
            else
              or_fail (FormatAndMount (FullPath dev) (sp_stagingTarget params)
                         (sp_fsType params) (sp_mntFlags params))
                (Status Internal "error in formating and mounting volume. Parameters: %v err: %v")
          else
            match List.find (fun m => String.eqb (Path m) (sp_stagingTarget params)) mnts with
            | Some m =>
                if contains (Opts m) (rwo_of (sp_ro params)) then ret tt
                else fail (Status AlreadyExists "access mode conflicts with existing mount at %q")
            | None => fail (Status Internal "device already in use and mounted elsewhere")
            end))).
  { apply emits_bind_ro; [apply ro_or_fail, ro_query | intros mnts].
    destruct (Nat.eqb (length mnts) 0).
    - destruct (sp_ro params); apply emits_or_fail, mount_command_emits; done.
    - destruct (List.find _ mnts) as [m|]; [|by apply emits_ro].
      destruct (contains _ _); by apply emits_ro. }
  destruct (access_type (stage_VolumeCapability req)) as [[]|];
    [exact Hrest | by apply emits_ro | exact Hrest].
Qed.

Lemma nodeStageBlockVolume_kf req params :
  keeps_files (nodeStageBlockVolume req params).
Proof.
  unfold nodeStageBlockVolume.
  apply kf_bind; [apply kf_ro, getDiskID_ro | intros diskID].
  apply kf_bind; [apply kf_ro, verifyVolumeAttached_ro | intros volPath].
  apply kf_bind; [apply kf_ro, ro_or_fail, getDevice_ro | intros dev].
  assert (Hrest : ∀ k : list Info → M unit,
            (∀ mnts, keeps_files (k mnts)) →
            keeps_files
              (bind (or_fail (query (GetDevMounts (RealDev dev)))
                       (Status Internal "could not reliably determine existing mount status. Parameters: %v err: %v")) k)).
  { intros k Hk. apply kf_bind; [apply kf_ro, ro_or_fail, ro_query | done]. }
  destruct (access_type (stage_VolumeCapability req)) as [[]|];
    [| by apply kf_ro | ]; apply Hrest; intros mnts;
    (destruct (Nat.eqb (length mnts) 0);
     [destruct (sp_ro params); apply kf_or_fail, mount_command_kf
     |destruct (List.find _ mnts) as [m|]; [|by apply kf_ro];
      destruct (contains _ _); by apply kf_ro]).
Qed.

(** X14. NodeStageVolume never creates, removes or unmounts anything: the
    file system stays as it is, and at most one command is issued, a mount
    or a format-and-mount at the staging target.  For a file volume it
    returns success at once, and for a block volume it only reads the
    host. *)
Theorem stage_effects req :
  keeps_files (NodeStageVolume req)
  ∧ emits 1 (is_stage_cmd (stage_target req)) (NodeStageVolume req)
  ∧ (IsFileVolumeRequest (stage_VolumeCapability req) = true →
       ∀ w, NodeStageVolume req w = (Ok tt, w))
  ∧ (access_type (stage_VolumeCapability req) = Some AccessBlock →
       read_only (NodeStageVolume req)).
Proof.
  unfold NodeStageVolume, stage_target; simpl.
  destruct (IsFileVolumeRequest (stage_VolumeCapability req)) eqn:Hfile.
  { split; [by apply kf_ro|]. split; [by apply emits_ro|]. done. }
  destruct (access_type (stage_VolumeCapability req)) as [[fs flags|]|] eqn:Hacc.
  - split; [|split; [|done]].
    + apply kf_bind; [apply kf_ro, ensureMountVol_ro | intros fm].
      apply kf_bind; [apply kf_ro, verifyTargetDir_ro | intros _].
      apply nodeStageBlockVolume_kf.
    + apply emits_bind_ro; [apply ensureMountVol_ro | intros fm].
      apply emits_bind_ro; [apply verifyTargetDir_ro | intros _].
      apply (nodeStageBlockVolume_emits req
               (mkStageParams _ _ (stage_StagingTargetPath req) _ _)).
  - split; [apply nodeStageBlockVolume_kf|].
    split; [apply (nodeStageBlockVolume_emits req (mkStageParams _ _ "" _ _))|].
    split; [done|]. intros _.
    unfold nodeStageBlockVolume. rewrite Hacc.
    apply ro_bind; [apply getDiskID_ro | intros diskID].
    apply ro_bind; [apply verifyVolumeAttached_ro | intros volPath].
    apply ro_bind; [apply ro_or_fail, getDevice_ro | intros dev]. apply ro_ret.
  - split; [apply nodeStageBlockVolume_kf|].
    split; [apply (nodeStageBlockVolume_emits req (mkStageParams _ _ "" _ _))|].
    done.
Qed.

Lemma publishBlockVol_emits req dev params :
  emits 2 (is_publish_cmd (target params)) (publishBlockVol req dev params).
Proof.
  unfold publishBlockVol.
  apply (emits_bind 1 1); [by apply emits_or_fail, mkfile_emits | intros _].
  destruct (ro params); [by apply emits_ro|].
  apply emits_bind_ro; [apply ro_or_fail, getDevMounts_ro | intros devMnts].
  destruct devMnts as [|m [|m' rest]]; [| |by apply emits_ro].
  - by apply emits_or_fail, mount_command_emits.
  - destruct (negb _); by apply emits_ro.
Qed.

Lemma publishMountVol_emits req dev params :
  emits 2 (is_publish_cmd (target params)) (publishMountVol req dev params).
Proof.
  unfold publishMountVol.
  apply emits_bind_ro; [apply ensureMountVol_ro | intros fm].
  apply (emits_bind 1 1); [by apply emits_or_fail, mkdir_emits | intros _].
  apply emits_bind_ro; [apply verifyTargetDir_ro | intros _].
  apply emits_bind_ro; [apply ro_or_fail, getDevMounts_ro | intros devMnts].
  assert (Hbind : ∀ flags, emits 1 (is_publish_cmd (target params))
            (or_fail (BindMount (stagingTarget params) (target params) flags)
               (Status Internal "error mounting volume. Parameters: %v err: %v"))).
  { intros flags. by apply emits_or_fail, mount_command_emits. }
  destruct (Nat.ltb 1 (length devMnts)).
  - destruct (List.find _ devMnts) as [m|]; [|apply Hbind].
    destruct (negb _); by apply emits_ro.
  - destruct (Nat.eqb (length devMnts) 0); [by apply emits_ro | apply Hbind].
Qed.

Lemma publishFileVol_emits req params :
  emits 2 (is_publish_cmd (target params)) (publishFileVol req params).
Proof.
  unfold publishFileVol.
  apply emits_bind_ro; [apply ensureMountVol_ro | intros fm].
  apply (emits_bind 1 1); [by apply emits_or_fail, mkdir_emits | intros _].
  apply emits_bind_ro; [apply ro_or_fail, ro_query | intros mnts].
  destruct (List.find _ mnts) as [m|].
  - destruct (negb _); by apply emits_ro.
  - apply emits_bind_ro; [done | intros flavor].
    destruct (pub_PublishContext req !! Nfsv4AccessPoint);
      [|by apply emits_ro].
    by apply emits_or_fail, mount_command_emits.
Qed.

(** X15. NodePublishVolume issues at most two commands, and each of them is
    the creation of the target path or a mount or bind mount at the target
    path: it never unmounts, removes or formats anything, for any request on
    any host. *)
Theorem publish_effects req :
  emits 2 (is_publish_cmd (pub_TargetPath req)) (NodePublishVolume req).
Proof.
  unfold NodePublishVolume; simpl.
  destruct (String.eqb (pub_StagingTargetPath req) ""); [by apply emits_ro|].
  destruct (negb (IsFileVolumeRequest (pub_VolumeCapability req)));
    [|apply (publishFileVol_emits req (mkPublishParams _ (pub_TargetPath req) _ _ _ _ _))].
  apply emits_bind_ro; [apply getDiskID_ro | intros diskID].
  apply emits_bind_ro; [apply verifyVolumeAttached_ro | intros volPath].
  apply emits_bind_ro; [apply ro_or_fail, getDevice_ro | intros dev].
  destruct (access_type (pub_VolumeCapability req)) as [[]|].
  - apply (publishMountVol_emits req dev (mkPublishParams _ (pub_TargetPath req) _ _ _ _ _)).
  - apply (publishBlockVol_emits req dev (mkPublishParams _ (pub_TargetPath req) _ _ _ _ _)).
  - apply (publishMountVol_emits req dev (mkPublishParams _ (pub_TargetPath req) _ _ _ _ _)).
Qed.

(** ** Unmounting *)

Lemma bind_ro_run {T U} (m : M T) (k : T → M U) w :
  read_only m →
  bind m k w = match fst (m w) with
               | Ok a => k a w
               | Err e => (Err e, w)
               | Panic => (Panic, w)
               end.
Proof.
  intros Hro. unfold bind. specialize (Hro w).
  destruct (m w) as [[a|e|] w1]; simpl in *; by subst.
Qed.

Lemma remove_last_at_None t l :
  remove_last_at t l = None ↔ IsTargetInMounts t l = false.
Proof.
  unfold IsTargetInMounts. induction l as [|m l IH]; simpl; [done|].
  destruct (remove_last_at t l) as [l'|].
  - destruct (existsb _ l); [|by destruct IH as [_ IH]; discriminate IH].
    by rewrite orb_true_r.
  - destruct IH as [IH _]. rewrite (IH eq_refl), orb_false_r.
    by destruct (String.eqb (Path m) t).
Qed.

(** Dropping the last mount at [t] takes one mount at [t] away and leaves
    the mounts at other paths. *)
Lemma remove_last_at_count t l l' :
  remove_last_at t l = Some l' →
  mounts_at t l = S (mounts_at t l')
  ∧ ∀ p, p ≠ t → mounts_at p l' = mounts_at p l.
Proof.
  unfold mounts_at. revert l'. induction l as [|m l IH]; intros l'; simpl; [done|].
  destruct (remove_last_at t l) as [l0|] eqn:Hr.
  - intros [= <-]. destruct (IH l0 eq_refl) as [Hc Ho]. simpl. split.
    + destruct (String.eqb (Path m) t); simpl; by rewrite Hc.
    + intros p Hp. destruct (String.eqb (Path m) p); simpl; by rewrite (Ho p Hp).
  - destruct (String.eqb_spec (Path m) t) as [Heq|]; [|done].
    intros [= <-]. split; [done|].
    intros p Hp. destruct (String.eqb_spec (Path m) p); [congruence | done].
Qed.

Lemma remove_last_at_snoc t l e :
  Path e = t → remove_last_at t (l ++ [e]) = Some l.
Proof.
  intros He. induction l as [|m l IH]; simpl.
  - by rewrite He, String.eqb_refl.
  - by rewrite IH.
Qed.

Lemma Unmount_run t w :
  Unmount t w =
    if refuses w (CmdUnmount t) then
      (Err (GoError "unmount failed"), issue (CmdUnmount t) w)
    else
      match remove_last_at t (mountTable w) with
      | None => (Err (GoError "not mounted"), issue (CmdUnmount t) w)
      | Some l => (Ok tt, set_mountTable (issue (CmdUnmount t) w) l)
      end.
Proof. reflexivity. Qed.

Lemma isBlockVolumeMounted_ro volID t : read_only (isBlockVolumeMounted volID t).
Proof.
  unfold isBlockVolumeMounted.
  apply ro_bind; [apply ro_or_fail, getDevFromMount_ro | intros [dev|]];
    [|apply ro_ret].
  apply ro_bind; [apply ro_or_fail, ro_query | intros mnts].
  destruct (Nat.ltb 1 (length mnts)); [apply ro_fail | apply ro_ret].
Qed.

(** X16. NodeUnstageVolume never touches the file system, and the only
    command it ever issues is one unmount of the staging target.  When it
    returns success it has either left the host exactly as it was, or
    dropped the most recent mount at the staging target, so that one mount
    fewer is at the staging target and the mounts elsewhere are as
    before. *)
Theorem unstage_effects req w :
  let s := unstage_StagingTargetPath req in
  let w' := snd (NodeUnstageVolume req w) in
  files w' = files w
  ∧ (w' = w ∨ log w' = log w ++ [CmdUnmount s])
  ∧ (fst (NodeUnstageVolume req w) = Ok tt →
       w' = w
       ∨ (log w' = log w ++ [CmdUnmount s]
          ∧ remove_last_at s (mountTable w) = Some (mountTable w')
          ∧ mounts_at s (mountTable w) = S (mounts_at s (mountTable w'))
          ∧ ∀ p, p ≠ s → mounts_at p (mountTable w') = mounts_at p (mountTable w))).
Proof.
  intros s w'. unfold w', NodeUnstageVolume. fold s.
  assert (Hsame : ∀ r : result error unit,
    files (snd (r, w)) = files w
    ∧ (snd (r, w) = w ∨ log (snd (r, w)) = log w ++ [CmdUnmount s])
    ∧ (fst (r, w) = Ok tt →
         snd (r, w) = w
         ∨ (log (snd (r, w)) = log w ++ [CmdUnmount s]
            ∧ remove_last_at s (mountTable w) = Some (mountTable (snd (r, w)))
            ∧ mounts_at s (mountTable w) = S (mounts_at s (mountTable (snd (r, w))))
            ∧ ∀ p, p ≠ s →
                mounts_at p (mountTable (snd (r, w))) = mounts_at p (mountTable w)))).
  { intros r. simpl. split; [done|]. split; by left. }
  rewrite bind_ro_run by apply ro_or_fail, ro_query.
  destruct (fst (or_fail (query GetMounts) _ w)) as [mnts|e|]; [|apply Hsame..].
  destruct (negb (IsTargetInMounts s mnts)); [apply Hsame|].
  rewrite bind_ro_run by apply verifyTargetDir_ro.
  destruct (fst (verifyTargetDir s false w)) as [dirExists|e|]; [|apply Hsame..].
  destruct (negb dirExists); [apply Hsame|].
  rewrite bind_ro_run by apply isBlockVolumeMounted_ro.
  destruct (fst (isBlockVolumeMounted _ s w)) as [isMounted|e|]; [|apply Hsame..].
  destruct isMounted; [|apply Hsame].
  unfold or_fail. rewrite Unmount_run.
  destruct (refuses w (CmdUnmount s)).
  { simpl. split; [done|]. split; [by right | done]. }
  destruct (remove_last_at s (mountTable w)) as [l|] eqn:Hr.
  2:{ simpl. split; [done|]. split; [by right | done]. }
  simpl. split; [done|]. split; [by right|]. intros _. right.
  destruct (remove_last_at_count _ _ _ Hr) as [Hc Ho]. by repeat split.
Qed.

Lemma run_bind_panic {T U} (m : M T) (k : T → M U) w w1 :
  m w = (Panic, w1) → bind m k w = (Panic, w1).
Proof. intros Hm. unfold bind. by rewrite Hm. Qed.

Lemma isBlockVolumePublished_mounted volID t w mnts :
  GetMounts w = Ok mnts → IsTargetInMounts t mnts = true →
  isBlockVolumePublished volID t w = (Ok true, w)
  ∨ (∃ e, isBlockVolumePublished volID t w = (Err e, w))
  ∨ isBlockVolumePublished volID t w = (Panic, w).
Proof.
  intros Hm Hin. unfold isBlockVolumePublished.
  rewrite bind_ro_run by apply ro_or_fail, getDevFromMount_ro.
  destruct (fst (or_fail (getDevFromMount t) _ w)) as [[dev|]|e|] eqn:Hdev;
    [by left | | right; left; eauto | right; by right].
  exfalso. unfold or_fail in Hdev.
  destruct (getDevFromMount t w) as [[[dev|]|e|] w1] eqn:Hg; try done.
  assert (Hnil : fst (getDevFromMount t w) = Ok None) by by rewrite Hg.
  apply (proj1 (getDevFromMount_nil t w)) in Hnil as (mnts' & Hm' & Hno).
  congruence.
Qed.

(** X17. NodeUnpublishVolume issues nothing, or one unmount of the target,
    or that unmount followed by the removal of the target path: it never
    removes the path without having unmounted.  When it returns success it
    has either left the host exactly as it was, or dropped the most recent
    mount at the target and removed the target path, which then no longer
    exists. *)
Theorem unpublish_effects req w :
  let t := unpub_TargetPath req in
  let w' := snd (NodeUnpublishVolume req w) in
  (w' = w
   ∨ log w' = log w ++ [CmdUnmount t]
   ∨ log w' = log w ++ [CmdUnmount t; CmdRemove t])
  ∧ (fst (NodeUnpublishVolume req w) = Ok tt →
       w' = w
       ∨ (log w' = log w ++ [CmdUnmount t; CmdRemove t]
          ∧ remove_last_at t (mountTable w) = Some (mountTable w')
          ∧ mounts_at t (mountTable w) = S (mounts_at t (mountTable w'))
          ∧ files w' = delete t (files w)
          ∧ os_Lstat t w' = Err ENOENT)).
Proof.
  intros t w'. unfold w', NodeUnpublishVolume. fold t.
  assert (Hsame : ∀ r : result error unit,
    (snd (r, w) = w
     ∨ log (snd (r, w)) = log w ++ [CmdUnmount t]
     ∨ log (snd (r, w)) = log w ++ [CmdUnmount t; CmdRemove t])
    ∧ (fst (r, w) = Ok tt →
         snd (r, w) = w
         ∨ (log (snd (r, w)) = log w ++ [CmdUnmount t; CmdRemove t]
            ∧ remove_last_at t (mountTable w) = Some (mountTable (snd (r, w)))
            ∧ mounts_at t (mountTable w) = S (mounts_at t (mountTable (snd (r, w))))
            ∧ files (snd (r, w)) = delete t (files w)
            ∧ os_Lstat t (snd (r, w)) = Err ENOENT))).
  { intros r. simpl. split; by left. }
  rewrite bind_ro_run by apply ro_try, ro_query.
  destruct (fst (try (query (os_Stat t)) w)) as [[st|e]|e|]; [| |apply Hsame..].
  2:{ destruct (IsNotExist e); apply Hsame. }
  rewrite bind_ro_run by apply ro_or_fail, ro_query.
  destruct (fst (or_fail (query GetMounts) _ w)) as [mnts|e|] eqn:Hm;
    [|apply Hsame..].
  assert (Hmnts : GetMounts w = Ok mnts).
  { unfold or_fail, query in Hm. by destruct (GetMounts w). }
  destruct (IsTargetInMounts t mnts) eqn:Hin; simpl; [|apply Hsame].
  assert (Hunmount :
    let r := bind (or_fail (Unmount t)
                     (Status Internal "Error unmounting target %q for volume %q. %q"))
                  (fun _ => rmpath t) w in
    (snd r = w
     ∨ log (snd r) = log w ++ [CmdUnmount t]
     ∨ log (snd r) = log w ++ [CmdUnmount t; CmdRemove t])
    ∧ (fst r = Ok tt →
         snd r = w
         ∨ (log (snd r) = log w ++ [CmdUnmount t; CmdRemove t]
            ∧ remove_last_at t (mountTable w) = Some (mountTable (snd r))
            ∧ mounts_at t (mountTable w) = S (mounts_at t (mountTable (snd r)))
            ∧ files (snd r) = delete t (files w)
            ∧ os_Lstat t (snd r) = Err ENOENT))).
  { unfold bind, or_fail. rewrite Unmount_run.
    destruct (refuses w (CmdUnmount t)).
    { simpl. split; [right; by left | done]. }
    destruct (remove_last_at t (mountTable w)) as [l|] eqn:Hr.
    2:{ simpl. split; [right; by left | done]. }
    unfold rmpath, or_fail, os_Remove; simpl.
    destruct (refuses w (CmdRemove t)); simpl.
    { rewrite <- app_assoc. split; [right; by right | done]. }
    destruct (files w !! t) eqn:Hp; simpl; rewrite <- app_assoc; simpl.
    - split; [right; by right|]. intros _. right.
      destruct (remove_last_at_count _ _ _ Hr) as [Hc _].
      repeat split; try done.
      unfold os_Lstat; simpl. by rewrite lookup_delete_eq.
    - split; [right; by right | done]. }
  destruct (negb (IsFileVolumeMount t mnts)).
  - destruct (isBlockVolumePublished_mounted (unpub_VolumeId req) t w mnts
                Hmnts Hin) as [Hp | [[e Hp] | Hp]].
    + rewrite (run_bind _ _ _ _ _ Hp). exact Hunmount.
    + rewrite (run_bind_err _ _ _ _ _ Hp). apply Hsame.
    + rewrite (run_bind_panic _ _ _ _ Hp). apply Hsame.
  - rewrite (run_bind _ _ _ _ _ (eq_refl : ret true w = (Ok true, w))).
    exact Hunmount.
Qed.

(** ** Publishing twice, and publishing then unpublishing *)

(** Paths that exist keep what they are when the file system grows. *)
Lemma os_Lstat_grow p w w' fi :
  files w ⊆ files w' → os_Lstat p w = Ok fi → os_Lstat p w' = Ok fi.
Proof.
  intros Hsub. unfold os_Lstat.
  destruct (files w !! p) as [i|] eqn:Hp; [|done].
  by rewrite (lookup_weaken _ _ _ _ Hp Hsub).
Qed.

Lemma os_Stat_grow p w w' fi :
  files w ⊆ files w' → os_Stat p w = Ok fi → os_Stat p w' = Ok fi.
Proof.
  intros Hsub. unfold os_Stat.
  destruct (files w !! p) as [i|] eqn:Hp; [|done].
  rewrite (lookup_weaken _ _ _ _ Hp Hsub).
  destruct i; try done.
  destruct (files w !! dest) as [j|] eqn:Hd; [|done].
  by rewrite (lookup_weaken _ _ _ _ Hd Hsub).
Qed.

Lemma EvalSymlinks_grow p w w' d :
  files w ⊆ files w' → EvalSymlinks p w = Ok d → EvalSymlinks p w' = Ok d.
Proof.
  intros Hsub. unfold EvalSymlinks.
  destruct (files w !! p) as [i|] eqn:Hp; [|done].
  rewrite (lookup_weaken _ _ _ _ Hp Hsub).
  destruct i; try done.
  destruct (files w !! dest) as [j|] eqn:Hd; [|done].
  by rewrite (lookup_weaken _ _ _ _ Hd Hsub).
Qed.

Lemma getDevice_grow path w w' dev :
  files w ⊆ files w' →
  fst (getDevice path w) = Ok dev → fst (getDevice path w') = Ok dev.
Proof.
  intros Hsub. unfold getDevice, bind, query.
  destruct (os_Lstat path w) as [fi| |] eqn:Hl; simpl; try done.
  rewrite (os_Lstat_grow _ _ _ _ Hsub Hl).
  destruct (EvalSymlinks path w) as [d| |] eqn:He; simpl; try done.
  rewrite (EvalSymlinks_grow _ _ _ _ Hsub He).
  destruct (os_Stat d w) as [ds| |] eqn:Hs; simpl; try done.
  rewrite (os_Stat_grow _ _ _ _ Hsub Hs). by destruct (fi_IsDevice ds).
Qed.

Lemma verifyTargetDir_grow tgt w w' :
  files w ⊆ files w' →
  fst (verifyTargetDir tgt true w) = Ok true →
  fst (verifyTargetDir tgt true w') = Ok true.
Proof.
  intros Hsub. rewrite !verifyTargetDir_result.
  destruct (String.eqb tgt ""); [done|].
  destruct (os_Stat tgt w) as [st|e|] eqn:Hs; [| |done].
  - by rewrite (os_Stat_grow _ _ _ _ Hsub Hs).
  - by destruct (IsNotExist e).
Qed.

Lemma verifyVolumeAttached_grow diskID w w' volPath :
  files w ⊆ files w' →
  fst (verifyVolumeAttached diskID w) = Ok volPath →
  fst (verifyVolumeAttached diskID w') = Ok volPath.
Proof.
  intros Hsub. unfold verifyVolumeAttached, getDiskPath, bind, or_fail, query.
  destruct (ReadDir devDiskID w) as [names|e|] eqn:Hread; simpl; try done.
  assert (Hdir : files w !! devDiskID = Some Directory).
  { unfold ReadDir in Hread. by destruct (files w !! devDiskID) as [[]|]. }
  destruct (List.find _ names) as [f|] eqn:Hfind; simpl; [|done].
  intros Hp. apply find_eqb_Some in Hfind as [-> Hin].
  apply (ReadDir_elem devDiskID w names _ Hread) in Hin as (Hne & Hsl & Hex).
  destruct (files w !! (devDiskID +:+ "/" +:+ blockPrefix +:+ diskID))
    as [i|] eqn:Hi; [|done].
  destruct (ReadDir devDiskID w') as [names'|e|] eqn:Hread'; simpl;
    try (unfold ReadDir in Hread';
         by rewrite (lookup_weaken _ _ _ _ Hdir Hsub) in Hread').
  destruct (List.find _ names') as [f|] eqn:Hfind'; simpl.
  - by apply find_eqb_Some in Hfind' as [-> _].
  - apply find_eqb_None in Hfind'. exfalso. apply Hfind'.
    apply (ReadDir_elem devDiskID w' names' _ Hread'). repeat split; try done.
    by rewrite (lookup_weaken _ _ _ _ Hi Hsub).
Qed.

(** [mkfile] and [mkdir] only ever add to the file system. *)
Lemma mkfile_grows path w : files w ⊆ files (snd (mkfile path w)).
Proof.
  unfold mkfile, bind, try, query.
  destruct (os_Stat path w) as [st|e|]; simpl; [by destruct (fi_IsDir st)| |done].
  destruct (IsNotExist e); [|done].
  unfold os_OpenFile_create; simpl.
  destruct (refuses w (CmdOpenCreate path)); [done|].
  destruct (files w !! create_path path (issue (CmdOpenCreate path) w)) eqn:Hc;
    simpl; [done|].
  by apply insert_subseteq.
Qed.

Lemma mkdir_grows path w : files w ⊆ files (snd (mkdir path w)).
Proof.
  unfold mkdir, bind, try, query.
  destruct (os_Stat path w) as [st|e|]; simpl; [by destruct (fi_IsDir st)| |done].
  destruct (IsNotExist e); [|done].
  unfold os_Mkdir; simpl.
  destruct (refuses w (CmdMkdir path)); [done|].
  destruct (files w !! path) eqn:Hc; simpl; [done|].
  by apply insert_subseteq.
Qed.

Lemma mkfile_present path w st :
  os_Stat path w = Ok st → fi_IsDir st = false → mkfile path w = (Ok false, w).
Proof.
  intros Hs Hd. unfold mkfile, bind, try, query. by rewrite Hs, Hd.
Qed.

Lemma mkdir_present path w st :
  os_Stat path w = Ok st → fi_IsDir st = true → mkdir path w = (Ok false, w).
Proof.
  intros Hs Hd. unfold mkdir, bind, try, query. by rewrite Hs, Hd.
Qed.

Lemma mkfile_post path w created :
  fst (mkfile path w) = Ok created →
  ∃ st, os_Stat path (snd (mkfile path w)) = Ok st ∧ fi_IsDir st = false.
Proof.
  intros Hrun.
  destruct (os_Stat path w) as [st|e|] eqn:Hstat.
  - unfold mkfile, bind, try, query in *. rewrite Hstat in *. simpl in *.
    destruct (fi_IsDir st) eqn:Hdir; simpl in *; [done|]. eauto.
  - assert (e = ENOENT ∧ refuses w (CmdOpenCreate path) = false) as [-> Hacc].
    { rewrite mkfile_result, Hstat in Hrun.
      destruct e; try done. simpl in Hrun.
      by destruct (refuses w (CmdOpenCreate path)). }
    destruct (mkfile_creates path w Hstat Hacc) as (w' & Hmk & Hnow & _).
    rewrite Hmk. eauto.
  - rewrite mkfile_result, Hstat in Hrun. done.
Qed.

Lemma mkdir_post path w created :
  fst (mkdir path w) = Ok created →
  ∃ st, os_Stat path (snd (mkdir path w)) = Ok st ∧ fi_IsDir st = true.
Proof.
  unfold mkdir. unfold bind, try, query.
  destruct (os_Stat path w) as [st|e|] eqn:Hstat; simpl; [| |done].
  - destruct (fi_IsDir st) eqn:Hdir; simpl; [|done]. eauto.
  - destruct (IsNotExist e) eqn:He; [|done].
    unfold os_Mkdir; simpl.
    destruct (refuses w (CmdMkdir path)); [done|].
    destruct (files w !! path) eqn:Hp; [done|]. simpl.
    intros _. unfold os_Stat; simpl. rewrite lookup_insert_eq. simpl. eauto.
Qed.

Lemma getDevMounts_run dev w :
  getDevMounts dev w =
    (match GetMounts w with
     | Ok mnts =>
         Ok (List.filter
               (fun m => String.eqb (Device_ m) (RealDev dev)
                         || (String.eqb (Device_ m) "devtmpfs"
                             && String.eqb (Source m) (RealDev dev))) mnts)
     | Err e => Err e
     | Panic => Panic
     end, w).
Proof. unfold getDevMounts, bind, query. by destruct (GetMounts w). Qed.

(** The mounts of the device once the host shows the new mount [e]. *)
Lemma getDevMounts_mounted dev w c devMnts :
  fst (getDevMounts dev w) = Ok devMnts →
  String.eqb (Device_ (mount_entry w c)) (RealDev dev)
  || (String.eqb (Device_ (mount_entry w c)) "devtmpfs"
      && String.eqb (Source (mount_entry w c)) (RealDev dev)) = true →
  fst (getDevMounts dev (mounted c w)) = Ok (devMnts ++ [mount_entry w c]).
Proof.
  rewrite !getDevMounts_run. unfold GetMounts; simpl.
  destruct (mounts_unreadable w); [done|]. simpl.
  intros [= <-] He. by rewrite List.filter_app; simpl; rewrite He.
Qed.

Lemma same_mounts_getDevMounts dev w w1 c devMnts :
  same_mounts w w1 →
  fst (getDevMounts dev w) = Ok devMnts →
  String.eqb (Device_ (mount_entry w c)) (RealDev dev)
  || (String.eqb (Device_ (mount_entry w c)) "devtmpfs"
      && String.eqb (Source (mount_entry w c)) (RealDev dev)) = true →
  fst (getDevMounts dev (mounted c w1)) = Ok (devMnts ++ [mount_entry w c]).
Proof.
  intros Hsame Hm He.
  pose proof Hsame as (_ & _ & _ & Hentry).
  rewrite <- Hentry in *.
  apply getDevMounts_mounted; [|done].
  by rewrite (getDevMounts_same dev w w1).
Qed.

Lemma find_app_new tgt (l : list Info) e :
  IsTargetInMounts tgt l = false → Path e = tgt →
  List.find (fun m => String.eqb (Path m) tgt) (l ++ [e]) = Some e.
Proof.
  intros Hno He. apply find_at_target_None in Hno.
  induction l as [|m l IH]; simpl in *.
  - by rewrite He, String.eqb_refl.
  - destruct (String.eqb (Path m) tgt); [done | by apply IH].
Qed.

(** X18. Publishing a staged mount volume twice: when the host accepts the
    bind mount and shows it as a mount of the device at the target with the
    requested rw/ro option, the first call succeeds and the second call
    succeeds without changing anything. *)
Theorem publish_mount_twice req w diskID volPath dev fs flags created devMnts :
  String.eqb (pub_StagingTargetPath req) "" = false →
  IsFileVolumeRequest (pub_VolumeCapability req) = false →
  access_type (pub_VolumeCapability req) = Some (AccessMount fs flags) →
  fst (getDiskID (pub_PublishContext req) w) = Ok diskID →
  fst (verifyVolumeAttached diskID w) = Ok volPath →
  fst (getDevice volPath w) = Ok dev →
  fst (mkdir (pub_TargetPath req) w) = Ok created →
  let w1 := snd (mkdir (pub_TargetPath req) w) in
  fst (verifyTargetDir (pub_StagingTargetPath req) true w1) = Ok true →
  fst (getDevMounts dev w) = Ok devMnts →
  Nat.eqb (length devMnts) 0 = false →
  IsTargetInMounts (pub_TargetPath req) devMnts = false →
  let c := CmdBindMount (pub_StagingTargetPath req) (pub_TargetPath req)
             (if pub_Readonly req then flags ++ ["ro"] else flags) in
  let e := mount_entry w c in
  refuses w c = false →
  Path e = pub_TargetPath req →
  String.eqb (Device_ e) (RealDev dev)
  || (String.eqb (Device_ e) "devtmpfs" && String.eqb (Source e) (RealDev dev))
  = true →
  contains (Opts e) (rwo_of (pub_Readonly req)) = true →
  NodePublishVolume req w = (Ok tt, mounted c w1)
  ∧ NodePublishVolume req (mounted c w1) = (Ok tt, mounted c w1).
Proof.
  intros Hst Hfile Hacc Hid Hvol Hdev Hmk w1 Hver Hmnts Hlen Hnot c e
         Haccept Hpath Hedev Hopt.
  pose proof (mkdir_keeps (pub_TargetPath req) w) as Hkeep. fold w1 in Hkeep.
  pose proof (mkdir_grows (pub_TargetPath req) w) as Hgrow. fold w1 in Hgrow.
  split.
  - rewrite (NodePublishVolume_mount req w diskID volPath dev fs flags) by done.
    rewrite (publishMountVol_by_count req dev _ w fs flags created devMnts)
      by done.
    simpl. fold w1. rewrite Hlen.
    rewrite (proj2 (find_at_target_None _ _) Hnot).
    unfold BindMount. rewrite mount_command_run. fold c.
    destruct Hkeep as (_ & _ & Hr & _). rewrite Hr, Haccept.
    by destruct (Nat.ltb 1 (length devMnts)).
  - destruct (mkdir_post _ _ _ Hmk) as (st & Hstat & Hdir). fold w1 in Hstat.
    assert (Hmk2 : mkdir (pub_TargetPath req) (mounted c w1)
                   = (Ok false, mounted c w1)).
    { apply (mkdir_present _ _ st); [|done]. by rewrite <- Hstat. }
    rewrite (NodePublishVolume_mount req (mounted c w1) diskID volPath dev
               fs flags); try done.
    + rewrite (publishMountVol_by_count req dev _ (mounted c w1) fs flags false
                 (devMnts ++ [e])); simpl; rewrite ?Hmk2; simpl; try done.
      * rewrite length_app; simpl.
        assert (Nat.ltb 1 (length devMnts + 1) = true) as ->.
        { apply Nat.ltb_lt. destruct devMnts; simpl in *; [done | lia]. }
        rewrite (find_app_new _ _ _ Hnot Hpath). by rewrite Hopt.
      * by apply (verifyTargetDir_grow _ w1).
      * by apply same_mounts_getDevMounts.
    + unfold getDiskID in *.
      by destruct (pub_PublishContext req !! AttributeFirstClassDiskUUID).
    + by apply (verifyVolumeAttached_grow diskID w).
    + by apply (getDevice_grow volPath w).
Qed.

(** The mounts of the device once the host shows a new mount that does not
    name the device. *)
Lemma same_mounts_getDevMounts_other dev w w1 c devMnts :
  same_mounts w w1 →
  fst (getDevMounts dev w) = Ok devMnts →
  lists_device dev (mount_entry w c) = false →
  fst (getDevMounts dev (mounted c w1)) = Ok devMnts.
Proof.
  intros (Ht & Hu & _ & Hentry) Hm He.
  rewrite getDevMounts_run in *. unfold GetMounts in *; simpl.
  rewrite Ht, Hu, Hentry.
  destruct (mounts_unreadable w); [done|]. simpl in *.
  injection Hm as <-. rewrite List.filter_app; simpl.
  unfold lists_device in He. rewrite He. by rewrite app_nil_r.
Qed.

(** X19. Publishing a read-write block volume twice with the same request,
    for a device that has no mount listed under its real path: the first
    call bind-mounts the device onto the target and succeeds when the host
    accepts the bind mount.  When the mount table lists that bind mount
    under the device's real path (as the device of the line, or as the
    source of a devtmpfs line), the second call succeeds without changing
    anything.  When the table lists it under another placeholder, such as
    udev, the second call succeeds as well but bind-mounts the device onto
    the target once more, so that the target carries the mount twice. *)
Theorem publish_block_twice req w diskID volPath dev created table :
  String.eqb (pub_StagingTargetPath req) "" = false →
  IsFileVolumeRequest (pub_VolumeCapability req) = false →
  access_type (pub_VolumeCapability req) = Some AccessBlock →
  fst (getDiskID (pub_PublishContext req) w) = Ok diskID →
  fst (verifyVolumeAttached diskID w) = Ok volPath →
  fst (getDevice volPath w) = Ok dev →
  pub_Readonly req = false →
  fst (mkfile (pub_TargetPath req) w) = Ok created →
  GetMounts w = Ok table →
  List.filter (lists_device dev) table = [] →
  let w1 := snd (mkfile (pub_TargetPath req) w) in
  let c := CmdBindMount (FullPath dev) (pub_TargetPath req) [] in
  let e := mount_entry w c in
  let w2 := mounted c w1 in
  refuses w c = false →
  Path e = pub_TargetPath req →
  NodePublishVolume req w = (Ok tt, w2)
  ∧ mountTable w2 = table ++ [e]
  ∧ (lists_device dev e = true → NodePublishVolume req w2 = (Ok tt, w2))
  ∧ (lists_device dev e = false →
       NodePublishVolume req w2 = (Ok tt, mounted c w2)
       ∧ mountTable (mounted c w2) = table ++ [e; e]).
Proof.
  intros Hst Hfile Hacc Hid Hvol Hdev Hro Hmk Htable Hnone w1 c e w2
         Haccept Hpath.
  pose proof (mkfile_keeps (pub_TargetPath req) w) as Hkeep. fold w1 in Hkeep.
  pose proof (mkfile_grows (pub_TargetPath req) w) as Hgrow. fold w1 in Hgrow.
  assert (Hmnts : fst (getDevMounts dev w) = Ok []).
  { rewrite getDevMounts_run, Htable. simpl. f_equal. exact Hnone. }
  assert (Hmt : mountTable w = table).
  { unfold GetMounts in Htable.
    destruct (mounts_unreadable w); by simplify_eq. }
  destruct (mkfile_post _ _ _ Hmk) as (st & Hstat & Hdir). fold w1 in Hstat.
  assert (Hmk2 : mkfile (pub_TargetPath req) w2 = (Ok false, w2)).
  { apply (mkfile_present _ _ st); [|done]. by rewrite <- Hstat. }
  assert (Hagain : NodePublishVolume req w2
                   = publishBlockVol req dev (publishParams req diskID dev) w2).
  { apply (NodePublishVolume_block req w2 diskID volPath dev); try done.
    - unfold getDiskID in *.
      by destruct (pub_PublishContext req !! AttributeFirstClassDiskUUID).
    - by apply (verifyVolumeAttached_grow diskID w).
    - by apply (getDevice_grow volPath w). }
  assert (Hentry : mount_entry w1 c = e).
  { destruct Hkeep as (_ & _ & _ & He). by rewrite He. }
  assert (Hmt2 : mountTable w2 = table ++ [e]).
  { unfold w2; simpl. destruct Hkeep as (Ht & _). by rewrite Ht, Hmt, Hentry. }
  split; [|split; [done|split]].
  - rewrite (NodePublishVolume_block req w diskID volPath dev) by done.
    rewrite (publishBlockVol_by_count req dev _ w created []) by done.
    simpl. fold w1. unfold BindMount. rewrite mount_command_run. fold c.
    destruct Hkeep as (_ & _ & Hr & _). by rewrite Hr, Haccept.
  - intros Hlisted. rewrite Hagain.
    rewrite (publishBlockVol_by_count req dev _ w2 false [e]);
      simpl; rewrite ?Hmk2; simpl; try done.
    + by rewrite Hpath, String.eqb_refl.
    + by apply (same_mounts_getDevMounts dev w w1 c []).
  - intros Hother. rewrite Hagain.
    rewrite (publishBlockVol_by_count req dev _ w2 false []);
      simpl; rewrite ?Hmk2; simpl; try done.
    + unfold BindMount. rewrite mount_command_run. fold c.
      assert (Hr2 : refuses w2 c = false).
      { destruct Hkeep as (_ & _ & Hr & _). unfold w2; simpl.
        by rewrite Hr. }
      rewrite Hr2. split; [done|]. simpl.
      change (mountTable w1 ++ [mount_entry w1 c]) with (mountTable w2).
      rewrite Hmt2, Hentry. by rewrite <- app_assoc.
    + by apply (same_mounts_getDevMounts_other dev w w1 c []).
Qed.

(** ** Undoing a publish and a stage *)

Lemma mkfile_fresh path w :
  files w !! path = None → refuses w (CmdOpenCreate path) = false →
  mkfile path w
  = (Ok true, set_files (issue (CmdOpenCreate path) w)
                 (<[path := Regular]> (files w))).
Proof.
  intros Hp Hacc. unfold mkfile, bind, try, query, os_Stat. rewrite Hp; simpl.
  unfold os_OpenFile_create, create_path; simpl. by rewrite Hacc, Hp, Hp.
Qed.

Lemma mkdir_fresh path w :
  files w !! path = None → refuses w (CmdMkdir path) = false →
  mkdir path w
  = (Ok true, set_files (issue (CmdMkdir path) w)
                 (<[path := Directory]> (files w))).
Proof.
  intros Hp Hacc. unfold mkdir, bind, try, query, os_Stat. rewrite Hp; simpl.
  unfold os_Mkdir; simpl. by rewrite Hacc, Hp.
Qed.

Lemma IsTargetInMounts_snoc t mt e :
  Path e = t → IsTargetInMounts t (mt ++ [e]) = true.
Proof.
  intros He. unfold IsTargetInMounts. rewrite existsb_app; simpl.
  rewrite He, String.eqb_refl. by destruct (existsb _ mt).
Qed.

Lemma IsTargetInMounts_filter t (f : Info → bool) mt :
  IsTargetInMounts t mt = false → IsTargetInMounts t (List.filter f mt) = false.
Proof.
  unfold IsTargetInMounts. induction mt as [|m mt IH]; simpl; [done|].
  destruct (String.eqb (Path m) t) eqn:Hm; simpl; [done|]. intros Hno.
  destruct (f m); simpl; [rewrite Hm; simpl|]; by apply IH.
Qed.

(** The device behind the only mount at [t], which is the latest mount. *)
Lemma getDevFromMount_new t w mt e :
  mounts_unreadable w = false → mountTable w = mt ++ [e] →
  IsTargetInMounts t mt = false → Path e = t →
  files w !! mount_token e = Some DeviceNode →
  getDevFromMount t w
  = (Ok (Some (mkDevice (mount_token e) (Base (mount_token e)) (mount_token e))),
     w).
Proof.
  intros Hu Hmt Hno He Hnode.
  unfold getDevFromMount, bind, query, GetMounts. rewrite Hu, Hmt; simpl.
  rewrite (find_app_new _ _ _ Hno He). fold (mount_token e).
  by rewrite (getDevice_device_node w _ Hnode).
Qed.

(** NodeUnpublishVolume at a target that exists and carries exactly one
    mount, the latest one, of an existing device. *)
Lemma unpublish_undoes ureq w mt e x :
  let t := unpub_TargetPath ureq in
  files w !! t = Some x → x = Regular ∨ x = Directory →
  mounts_unreadable w = false → mountTable w = mt ++ [e] →
  IsTargetInMounts t mt = false → Path e = t →
  files w !! mount_token e = Some DeviceNode →
  refuses w (CmdUnmount t) = false → refuses w (CmdRemove t) = false →
  ∃ w', NodeUnpublishVolume ureq w = (Ok tt, w')
        ∧ files w' = delete t (files w) ∧ mountTable w' = mt
        ∧ log w' = log w ++ [CmdUnmount t; CmdRemove t].
Proof.
  intros t Hx Hkind Hu Hmt Hno He Hnode Hum Hrm.
  assert (Hstat : ∃ st, os_Stat t w = Ok st).
  { unfold os_Stat. rewrite Hx. destruct Hkind as [-> | ->]; simpl; eauto. }
  destruct Hstat as [st Hstat].
  unfold NodeUnpublishVolume. fold t.
  assert (Htry : try (query (os_Stat t)) w = (Ok (inl st), w)).
  { unfold try, query. by rewrite Hstat. }
  rewrite (run_bind _ _ _ _ _ Htry).
  assert (Hget : ∀ err, or_fail (query GetMounts) err w = (Ok (mt ++ [e]), w)).
  { intros err. unfold or_fail, query, GetMounts. by rewrite Hu, Hmt. }
  rewrite (run_bind _ _ _ _ _ (Hget _)).
  rewrite (IsTargetInMounts_snoc _ _ _ He). simpl.
  assert (Hrest :
    bind (or_fail (Unmount t)
            (Status Internal "Error unmounting target %q for volume %q. %q"))
         (fun _ => rmpath t) w
    = (Ok tt, set_files (issue (CmdRemove t)
                           (set_mountTable (issue (CmdUnmount t) w) mt))
                (delete t (files w)))).
  { unfold bind, or_fail. rewrite Unmount_run, Hum, Hmt.
    rewrite (remove_last_at_snoc _ _ _ He).
    unfold rmpath, or_fail, os_Remove; simpl. by rewrite Hrm, Hx. }
  eexists. split.
  - destruct (negb (IsFileVolumeMount t (mt ++ [e]))).
    + assert (Hpub : isBlockVolumePublished (unpub_VolumeId ureq) t w
                     = (Ok true, w)).
      { unfold isBlockVolumePublished.
        by rewrite (run_bind _ _ _ _ _
                      (run_or_fail_ok _ _ _ _ _
                         (getDevFromMount_new t w mt e Hu Hmt Hno He Hnode))). }
      rewrite (run_bind _ _ _ _ _ Hpub). exact Hrest.
    + rewrite (run_bind _ _ _ _ _ (eq_refl : ret true w = (Ok true, w))).
      exact Hrest.
  - simpl. by rewrite <- app_assoc.
Qed.

(** X20. Round trip of a block volume: publishing it at a target path that
    does not exist and carries no mount, then unpublishing that target, both
    succeed when the host accepts the four commands and shows the bind mount
    at the target with the device as its source; together they issue exactly
    create, bind mount, unmount, remove, and leave the file system and the
    mount table as they were. *)
Theorem publish_unpublish_block req ureq w diskID volPath dev :
  String.eqb (pub_StagingTargetPath req) "" = false →
  IsFileVolumeRequest (pub_VolumeCapability req) = false →
  access_type (pub_VolumeCapability req) = Some AccessBlock →
  fst (getDiskID (pub_PublishContext req) w) = Ok diskID →
  fst (verifyVolumeAttached diskID w) = Ok volPath →
  fst (getDevice volPath w) = Ok dev →
  pub_Readonly req = false →
  let t := pub_TargetPath req in
  unpub_TargetPath ureq = t →
  files w !! t = None →
  IsTargetInMounts t (mountTable w) = false →
  fst (getDevMounts dev w) = Ok [] →
  let c := CmdBindMount (FullPath dev) t [] in
  let e := mount_entry w c in
  refuses w (CmdOpenCreate t) = false →
  refuses w c = false →
  refuses w (CmdUnmount t) = false →
  refuses w (CmdRemove t) = false →
  Path e = t →
  mount_token e = RealDev dev →
  ∃ w1 w2,
    NodePublishVolume req w = (Ok tt, w1)
    ∧ mountTable w1 = mountTable w ++ [e]
    ∧ files w1 = <[t := Regular]> (files w)
    ∧ NodeUnpublishVolume ureq w1 = (Ok tt, w2)
    ∧ files w2 = files w
    ∧ mountTable w2 = mountTable w
    ∧ log w2 = log w ++ [CmdOpenCreate t; c; CmdUnmount t; CmdRemove t].
Proof.
  intros Hst Hfile Hacc Hid Hvol Hdev Hro t Hut Hfresh Hno Hmnts c e
         Hcreate Hbind Hum Hrm Hpath Htok.
  pose proof (mkfile_fresh t w Hfresh Hcreate) as Hmk.
  pose proof (getDevice_real_node _ _ _ Hdev) as Hnode.
  assert (Hu : mounts_unreadable w = false).
  { rewrite getDevMounts_run in Hmnts. unfold GetMounts in Hmnts.
    by destruct (mounts_unreadable w). }
  set (w0 := set_files (issue (CmdOpenCreate t) w)
               (<[t := Regular]> (files w))) in *.
  assert (Hpub : NodePublishVolume req w = (Ok tt, mounted c w0)).
  { rewrite (NodePublishVolume_block req w diskID volPath dev) by done.
    rewrite (publishBlockVol_by_count req dev _ w true []); simpl; fold t;
      rewrite ?Hmk; try done.
    simpl. unfold BindMount. rewrite mount_command_run. fold c.
    by rewrite (eq_refl : refuses w0 c = refuses w c), Hbind. }
  assert (Hthere : files (mounted c w0) !! t = Some Regular).
  { simpl. apply lookup_insert_eq. }
  assert (Hnode' : files (mounted c w0) !! mount_token e = Some DeviceNode).
  { rewrite Htok. simpl. rewrite lookup_insert_ne; [done|].
    intros Heq. rewrite Heq in Hfresh. congruence. }
  destruct (unpublish_undoes ureq (mounted c w0) (mountTable w) e Regular)
    as (w2 & Hun & Hf2 & Hm2 & Hl2); rewrite ?Hut;
    [exact Hthere | auto | exact Hu | reflexivity | exact Hno | exact Hpath
    | exact Hnode' | exact Hum | exact Hrm |].
  exists (mounted c w0), w2. rewrite Hut in *.
  split; [done|]. split; [done|]. split; [done|]. split; [done|].
  split; [|split; [done|]].
  - rewrite Hf2. simpl. by apply delete_insert_id.
  - rewrite Hl2. simpl. by rewrite <- !app_assoc.
Qed.

(** X21. Round trip of a staged mount volume: publishing it at a target
    path that does not exist and carries no mount, then unpublishing that
    target, both succeed when the host accepts the four commands and shows
    the bind mount at the target with the device as its source; together
    they issue exactly mkdir, bind mount, unmount, remove, and leave the file
    system and the mount table as they were. *)
Theorem publish_unpublish_mount req ureq w diskID volPath dev fs flags devMnts :
  String.eqb (pub_StagingTargetPath req) "" = false →
  IsFileVolumeRequest (pub_VolumeCapability req) = false →
  access_type (pub_VolumeCapability req) = Some (AccessMount fs flags) →
  fst (getDiskID (pub_PublishContext req) w) = Ok diskID →
  fst (verifyVolumeAttached diskID w) = Ok volPath →
  fst (getDevice volPath w) = Ok dev →
  fst (verifyTargetDir (pub_StagingTargetPath req) true w) = Ok true →
  let t := pub_TargetPath req in
  unpub_TargetPath ureq = t →
  files w !! t = None →
  IsTargetInMounts t (mountTable w) = false →
  fst (getDevMounts dev w) = Ok devMnts →
  Nat.eqb (length devMnts) 0 = false →
  let c := CmdBindMount (pub_StagingTargetPath req) t
             (if pub_Readonly req then flags ++ ["ro"] else flags) in
  let e := mount_entry w c in
  refuses w (CmdMkdir t) = false →
  refuses w c = false →
  refuses w (CmdUnmount t) = false →
  refuses w (CmdRemove t) = false →
  Path e = t →
  mount_token e = RealDev dev →
  ∃ w1 w2,
    NodePublishVolume req w = (Ok tt, w1)
    ∧ mountTable w1 = mountTable w ++ [e]
    ∧ files w1 = <[t := Directory]> (files w)
    ∧ NodeUnpublishVolume ureq w1 = (Ok tt, w2)
    ∧ files w2 = files w
    ∧ mountTable w2 = mountTable w
    ∧ log w2 = log w ++ [CmdMkdir t; c; CmdUnmount t; CmdRemove t].
Proof.
  intros Hst Hfile Hacc Hid Hvol Hdev Hver t Hut Hfresh Hno Hmnts Hlen c e
         Hcreate Hbind Hum Hrm Hpath Htok.
  pose proof (mkdir_fresh t w Hfresh Hcreate) as Hmk.
  pose proof (getDevice_real_node _ _ _ Hdev) as Hnode.
  assert (Hu : mounts_unreadable w = false).
  { rewrite getDevMounts_run in Hmnts. unfold GetMounts in Hmnts.
    by destruct (mounts_unreadable w). }
  assert (Hnod : IsTargetInMounts t devMnts = false).
  { rewrite getDevMounts_run in Hmnts. unfold GetMounts in Hmnts.
    rewrite Hu in Hmnts. injection Hmnts as <-.
    by apply IsTargetInMounts_filter. }
  set (w0 := set_files (issue (CmdMkdir t) w)
               (<[t := Directory]> (files w))) in *.
  assert (Hpub : NodePublishVolume req w = (Ok tt, mounted c w0)).
  { rewrite (NodePublishVolume_mount req w diskID volPath dev fs flags) by done.
    rewrite (publishMountVol_by_count req dev _ w fs flags true devMnts);
      simpl; fold t; rewrite ?Hmk; try done.
    - simpl. rewrite Hlen.
      rewrite (proj2 (find_at_target_None _ _) Hnod).
      unfold BindMount. rewrite mount_command_run. fold c.
      rewrite (eq_refl : refuses w0 c = refuses w c), Hbind.
      by destruct (Nat.ltb 1 (length devMnts)).
    - apply (verifyTargetDir_grow _ w); [|done]. simpl.
      by apply insert_subseteq. }
  assert (Hthere : files (mounted c w0) !! t = Some Directory).
  { simpl. apply lookup_insert_eq. }
  assert (Hnode' : files (mounted c w0) !! mount_token e = Some DeviceNode).
  { rewrite Htok. simpl. rewrite lookup_insert_ne; [done|].
    intros Heq. rewrite Heq in Hfresh. congruence. }
  destruct (unpublish_undoes ureq (mounted c w0) (mountTable w) e Directory)
    as (w2 & Hun & Hf2 & Hm2 & Hl2); rewrite ?Hut;
    [exact Hthere | auto | exact Hu | reflexivity | exact Hno | exact Hpath
    | exact Hnode' | exact Hum | exact Hrm |].
  exists (mounted c w0), w2. rewrite Hut in *.
  split; [done|]. split; [done|]. split; [done|]. split; [done|].
  split; [|split; [done|]].
  - rewrite Hf2. simpl. by apply delete_insert_id.
  - rewrite Hl2. simpl. by rewrite <- !app_assoc.
Qed.

(** X22. Round trip of staging: staging a mount volume whose device has no
    mount at a staging path that carries no mount, then unstaging that path,
    both succeed when the host accepts the mount and the unmount and shows
    the mount at the staging path with the device as its source; the mount
    table is as it was, and no file is created or removed: the staging
    directory stays. *)
Theorem stage_unstage req ureq w fs flags diskID volPath dev :
  IsFileVolumeRequest (stage_VolumeCapability req) = false →
  access_type (stage_VolumeCapability req) = Some (AccessMount fs flags) →
  fst (verifyTargetDir (stage_StagingTargetPath req) true w) = Ok true →
  fst (getDiskID (stage_PublishContext req) w) = Ok diskID →
  fst (verifyVolumeAttached diskID w) = Ok volPath →
  fst (getDevice volPath w) = Ok dev →
  GetDevMounts (RealDev dev) w = Ok [] →
  let staging := stage_StagingTargetPath req in
  let fsType := GetVolumeCapabilityFsType (stage_VolumeCapability req) in
  let c := if IsVolumeReadOnly (stage_VolumeCapability req)
           then CmdMount (FullPath dev) staging fsType (flags ++ ["ro"])
           else CmdFormatAndMount (FullPath dev) staging fsType flags in
  let e := mount_entry w c in
  unstage_StagingTargetPath ureq = staging →
  IsTargetInMounts staging (mountTable w) = false →
  refuses w c = false →
  refuses w (CmdUnmount staging) = false →
  Path e = staging →
  mount_token e = RealDev dev →
  ∃ w2,
    NodeStageVolume req w = (Ok tt, mounted c w)
    ∧ NodeUnstageVolume ureq (mounted c w) = (Ok tt, w2)
    ∧ files w2 = files w
    ∧ mountTable w2 = mountTable w
    ∧ log w2 = log w ++ [c; CmdUnmount staging].
Proof.
  intros Hfile Hacc Hver Hid Hvol Hdev Hmnts staging fsType c e
         Hut Hno Haccept Hum Hpath Htok.
  pose proof (getDevice_real_node _ _ _ Hdev) as Hnode.
  assert (Hfirst : NodeStageVolume req w = (Ok tt, mounted c w)).
  { rewrite (NodeStageVolume_mount req w fs flags diskID volPath dev [])
      by done.
    simpl. fold staging fsType. unfold Mount, FormatAndMount. subst e c.
    destruct (IsVolumeReadOnly (stage_VolumeCapability req));
      rewrite mount_command_run; by rewrite Haccept. }
  assert (Hu : mounts_unreadable w = false
               ∧ List.filter (fun m => String.eqb (Device_ m) (RealDev dev))
                   (mountTable w) = []).
  { unfold GetDevMounts, GetMounts in Hmnts.
    destruct (mounts_unreadable w); [done|]. by injection Hmnts as ->. }
  destruct Hu as [Hu Hnone].
  set (w1 := mounted c w) in *.
  exists (set_mountTable (issue (CmdUnmount staging) w1) (mountTable w)).
  split; [done|]. split; [|simpl; by rewrite <- app_assoc].
  unfold NodeUnstageVolume. rewrite Hut.
  assert (Hget : ∀ err, or_fail (query GetMounts) err w1
                        = (Ok (mountTable w ++ [e]), w1)).
  { intros err. unfold or_fail, query, GetMounts. simpl. by rewrite Hu. }
  rewrite (run_bind _ _ _ _ _ (Hget _)).
  rewrite (IsTargetInMounts_snoc _ _ _ Hpath). simpl.
  assert (Hdir : verifyTargetDir staging false w1 = (Ok true, w1)).
  { apply run_read_only; [apply verifyTargetDir_ro|].
    rewrite verifyTargetDir_result in *. fold staging in Hver.
    destruct (String.eqb staging ""); [done|].
    rewrite (eq_refl : os_Stat staging w1 = os_Stat staging w).
    destruct (os_Stat staging w) as [st|err|]; [| |done].
    - by destruct (fi_IsDir st).
    - by destruct (IsNotExist err). }
  rewrite (run_bind _ _ _ _ _ Hdir). simpl.
  assert (Hmounted : isBlockVolumeMounted (unstage_VolumeId ureq) staging w1
                     = (Ok true, w1)).
  { assert (Hnode' : files w1 !! mount_token e = Some DeviceNode)
      by by rewrite Htok.
    unfold isBlockVolumeMounted.
    rewrite (run_bind _ _ _ _ _
               (run_or_fail_ok _ _ _ _ _
                  (getDevFromMount_new staging w1 (mountTable w) e Hu eq_refl
                     Hno Hpath Hnode'))).
    simpl. rewrite Htok.
    unfold bind, or_fail, query, GetDevMounts, GetMounts; simpl. rewrite Hu.
    rewrite List.filter_app, Hnone; simpl. fold e.
    by destruct (String.eqb (Device_ e) (RealDev dev)). }
  rewrite (run_bind _ _ _ _ _ Hmounted).
  unfold or_fail. rewrite Unmount_run.
  rewrite (eq_refl : refuses w1 (CmdUnmount staging)
                     = refuses w (CmdUnmount staging)), Hum.
  rewrite (eq_refl : mountTable w1 = mountTable w ++ [e]).
  by rewrite (remove_last_at_snoc _ _ _ Hpath).
Qed.

(** ** File volumes *)

Lemma mkdir_environ path w : environ (snd (mkdir path w)) = environ w.
Proof.
  unfold mkdir, bind, try, query.
  destruct (os_Stat path w) as [st|e|]; simpl; [by destruct (fi_IsDir st)| |done].
  destruct (IsNotExist e); [|done].
  unfold os_Mkdir; simpl.
  destruct (refuses w (CmdMkdir path)); [done|].
  by destruct (files w !! path).
Qed.

(** The file branch once the target directory is in place and the mount
    table is read. *)
Lemma publishFileVol_run req params w fs flags created mnts :
  access_type (pub_VolumeCapability req) = Some (AccessMount fs flags) →
  fst (mkdir (target params) w) = Ok created →
  GetMounts w = Ok mnts →
  let w1 := snd (mkdir (target params) w) in
  let opts1 := if ro params then flags ++ ["ro"] else flags in
  let opts := if String.eqb (os_Getenv EnvClusterFlavor w) CnsClusterFlavorGuest
              then opts1 ++ ["hard"] else opts1 in
  publishFileVol req params w =
    match List.find (fun m => String.eqb (Path m) (target params)) mnts with
    | Some m =>
        if negb (contains (Opts m) (rwo_of (ro params))) then
          (Err (Status AlreadyExists
                  "volume previously published with different options"), w1)
        else (Ok tt, w1)
    | None =>
        match pub_PublishContext req !! Nfsv4AccessPoint with
        | None =>
            (Err (Status Internal "NFSv4 accesspoint not set in publish context"),
             w1)
        | Some src =>
            or_fail (Mount src (target params)
                       (GetVolumeCapabilityFsType (pub_VolumeCapability req)) opts)
              (Status Internal "error publish volume to target path: %q") w1
        end
    end.
Proof.
  intros Hacc Hmk Hm w1 opts1 opts.
  assert (Hmk' : mkdir (target params) w = (Ok created, w1)).
  { unfold w1. by destruct (mkdir (target params) w); simpl in *; subst. }
  pose proof (mkdir_keeps (target params) w) as (Ht & Hu & _). fold w1 in Ht, Hu.
  assert (Hm1 : ∀ err, or_fail (query GetMounts) err w1 = (Ok mnts, w1)).
  { intros err. unfold or_fail, query, GetMounts in *. rewrite Ht, Hu.
    by destruct (mounts_unreadable w); simplify_eq. }
  unfold publishFileVol, ensureMountVol. rewrite Hacc.
  rewrite (run_bind _ _ _ _ _ (eq_refl : ret _ w = (Ok _, w))). simpl.
  rewrite (run_bind _ _ _ _ _ (run_or_fail_ok _ _ _ _ _ Hmk')).
  rewrite (run_bind _ _ _ _ _ (Hm1 _)).
  destruct (List.find _ mnts) as [m|].
  - by destruct (negb (contains (Opts m) (rwo_of (ro params)))).
  - unfold bind at 1. simpl.
    assert (os_Getenv EnvClusterFlavor w1 = os_Getenv EnvClusterFlavor w) as ->.
    { unfold os_Getenv, w1. by rewrite mkdir_environ. }
    by destruct (pub_PublishContext req !! Nfsv4AccessPoint).
Qed.

(** X23. Publishing a file volume at a target that carries no mount mounts
    the NFSv4 access point of the publish context at the target, with the
    filesystem type of the capability and the requested flags, followed by
    "ro" for a read-only publish and by "hard" when the cluster flavor of the
    environment is the guest flavor.  When the host accepts the mount and
    shows it at the target with the requested rw/ro option, a second call
    succeeds and changes nothing. *)
Theorem publish_file_twice req w fs flags created mnts src :
  String.eqb (pub_StagingTargetPath req) "" = false →
  IsFileVolumeRequest (pub_VolumeCapability req) = true →
  access_type (pub_VolumeCapability req) = Some (AccessMount fs flags) →
  pub_PublishContext req !! Nfsv4AccessPoint = Some src →
  let t := pub_TargetPath req in
  fst (mkdir t w) = Ok created →
  GetMounts w = Ok mnts →
  IsTargetInMounts t mnts = false →
  let w1 := snd (mkdir t w) in
  let opts1 := if pub_Readonly req then flags ++ ["ro"] else flags in
  let opts := if String.eqb (os_Getenv EnvClusterFlavor w) CnsClusterFlavorGuest
              then opts1 ++ ["hard"] else opts1 in
  let c := CmdMount src t
             (GetVolumeCapabilityFsType (pub_VolumeCapability req)) opts in
  let e := mount_entry w c in
  refuses w c = false →
  Path e = t →
  contains (Opts e) (rwo_of (pub_Readonly req)) = true →
  NodePublishVolume req w = (Ok tt, mounted c w1)
  ∧ NodePublishVolume req (mounted c w1) = (Ok tt, mounted c w1).
Proof.
  intros Hst Hfile Hacc Hsrc t Hmk Hm Hno w1 opts1 opts c e Haccept Hpath Hopt.
  pose proof (mkdir_keeps t w) as Hkeep. fold w1 in Hkeep.
  assert (Hrun : ∀ w0, NodePublishVolume req w0
                       = publishFileVol req
                           (mkPublishParams (pub_VolumeId req) t
                              (pub_StagingTargetPath req) "" "" ""
                              (pub_Readonly req)) w0).
  { intros w0. unfold NodePublishVolume; simpl. by rewrite Hst, Hfile. }
  split.
  - rewrite Hrun.
    rewrite (publishFileVol_run req _ w fs flags created mnts) by done.
    simpl. fold t.
    rewrite (proj2 (find_at_target_None _ _) Hno), Hsrc.
    unfold Mount. rewrite mount_command_run. fold w1 opts1 opts c.
    destruct Hkeep as (_ & _ & Hr & _). by rewrite Hr, Haccept.
  - destruct (mkdir_post _ _ _ Hmk) as (st & Hstat & Hdir). fold w1 in Hstat.
    assert (Hmk2 : mkdir t (mounted c w1) = (Ok false, mounted c w1)).
    { apply (mkdir_present _ _ st); [|done]. by rewrite <- Hstat. }
    rewrite Hrun.
    rewrite (publishFileVol_run req _ (mounted c w1) fs flags false
               (mnts ++ [e])); simpl; fold t; rewrite ?Hmk2; simpl; try done.
    + rewrite (find_app_new _ _ _ Hno Hpath). by rewrite Hopt.
    + destruct Hkeep as (Ht & Hu & _ & He).
      unfold GetMounts in *; simpl. rewrite Ht, Hu, He.
      destruct (mounts_unreadable w); by simplify_eq.
Qed.

(** ** No change before the device is found *)

(** X24. A NodePublishVolume request for a disk volume whose device cannot
    be resolved on the host (no disk UUID in the publish context, the disk
    not attached, or its path not a block device) fails and leaves the host
    exactly as it was: nothing is created or mounted. *)
Theorem publish_needs_device req w :
  IsFileVolumeRequest (pub_VolumeCapability req) = false →
  (∀ diskID volPath dev,
     fst (getDiskID (pub_PublishContext req) w) = Ok diskID →
     fst (verifyVolumeAttached diskID w) = Ok volPath →
     fst (getDevice volPath w) = Ok dev → False) →
  snd (NodePublishVolume req w) = w
  ∧ is_ok (fst (NodePublishVolume req w)) = false.
Proof.
  intros Hfile Hnone. unfold NodePublishVolume; simpl.
  destruct (String.eqb (pub_StagingTargetPath req) ""); [done|].
  rewrite Hfile; simpl.
  rewrite bind_ro_run by apply getDiskID_ro.
  destruct (fst (getDiskID _ w)) as [diskID|e|] eqn:Hid; [|done..].
  rewrite bind_ro_run by apply verifyVolumeAttached_ro.
  destruct (fst (verifyVolumeAttached diskID w)) as [volPath|e|] eqn:Hvol;
    [|done..].
  rewrite bind_ro_run by apply ro_or_fail, getDevice_ro.
  destruct (fst (or_fail (getDevice volPath) _ w)) as [dev|e|] eqn:Hdev;
    [|done..].
  exfalso. apply (Hnone diskID volPath dev); [done..|].
  unfold or_fail in Hdev. by destruct (getDevice volPath w) as [[]].
Qed.

(** X25. A NodeStageVolume request for a disk volume whose device cannot be
    resolved on the host fails and leaves the host exactly as it was: nothing
    is formatted or mounted. *)
Theorem stage_needs_device req w :
  IsFileVolumeRequest (stage_VolumeCapability req) = false →
  (∀ diskID volPath dev,
     fst (getDiskID (stage_PublishContext req) w) = Ok diskID →
     fst (verifyVolumeAttached diskID w) = Ok volPath →
     fst (getDevice volPath w) = Ok dev → False) →
  snd (NodeStageVolume req w) = w
  ∧ is_ok (fst (NodeStageVolume req w)) = false.
Proof.
  intros Hfile Hnone.
  assert (Hblock : ∀ params,
    snd (nodeStageBlockVolume req params w) = w
    ∧ is_ok (fst (nodeStageBlockVolume req params w)) = false).
  { intros params. unfold nodeStageBlockVolume.
    rewrite bind_ro_run by apply getDiskID_ro.
    destruct (fst (getDiskID _ w)) as [diskID|e|] eqn:Hid; [|done..].
    rewrite bind_ro_run by apply verifyVolumeAttached_ro.
    destruct (fst (verifyVolumeAttached diskID w)) as [volPath|e|] eqn:Hvol;
      [|done..].
    rewrite bind_ro_run by apply ro_or_fail, getDevice_ro.
    destruct (fst (or_fail (getDevice volPath) _ w)) as [dev|e|] eqn:Hdev;
      [|done..].
    exfalso. apply (Hnone diskID volPath dev); [done..|].
    unfold or_fail in Hdev. by destruct (getDevice volPath w) as [[]]. }
  unfold NodeStageVolume. rewrite Hfile.
  destruct (access_type (stage_VolumeCapability req)) as [[fs flags|]|] eqn:Hacc;
    [|apply Hblock..].
  rewrite bind_ro_run by apply ensureMountVol_ro.
  destruct (fst (ensureMountVol _ w)) as [fm|e|]; [|done..].
  rewrite bind_ro_run by apply verifyTargetDir_ro.
  destruct (fst (verifyTargetDir _ true w)) as [b|e|]; [|done..].
  apply Hblock.
Qed.

End Service.

(** ** [contains] and [convertUUID] *)

(** X26. contains is membership in the list. *)
Theorem contains_spec (l : list string) (item : string) :
  contains l item = true ↔ item ∈ l.
Proof.
  induction l as [|x l IH]; simpl.
  - split; [done | by intros ?%elem_of_nil].
  - destruct (String.eqb_spec x item) as [->|Hne].
    + split; [intros _; by left | done].
    + rewrite IH. split; [by right|].
      intros [?|?]%elem_of_cons; [congruence | done].
Qed.

Lemma lower_idem c : lower (lower c) = lower c.
Proof. by destruct c as [[] [] [] [] [] [] [] []]. Qed.

Lemma ToLower_idem s : ToLower (ToLower s) = ToLower s.
Proof. induction s as [|c s IH]; simpl; [done|]. by rewrite lower_idem, IH. Qed.

Lemma ToLower_length s : String.length (ToLower s) = String.length s.
Proof. induction s as [|c s IH]; simpl; [done|]. by rewrite IH. Qed.

Lemma lower_ascii c :
  N.ltb (N_of_ascii c) 128 = true → N.ltb (N_of_ascii (lower c)) 128 = true.
Proof. by destruct c as [[] [] [] [] [] [] [] []]. Qed.

Lemma is_ascii_ToLower s : is_ascii s = true → is_ascii (ToLower s) = true.
Proof.
  induction s as [|c s IH]; simpl; [done|].
  intros [Hc Hs]%andb_prop. by rewrite (lower_ascii c Hc), (IH Hs).
Qed.

Lemma is_ascii_app a b : is_ascii (a +:+ b) = is_ascii a && is_ascii b.
Proof.
  induction a as [|c a IH]; simpl; [done|].
  change (is_ascii (String c (a +:+ b)))
    with (N.ltb (N_of_ascii c) 128 && is_ascii (a +:+ b)).
  by rewrite IH, andb_assoc.
Qed.

Lemma is_ascii_substring n m s :
  is_ascii s = true → is_ascii (substring n m s) = true.
Proof.
  revert n m. induction s as [|c s IH]; intros [|n] [|m]; simpl; try done.
  - intros [Hc Hs]%andb_prop. by rewrite Hc, (IH 0 m Hs).
  - intros [_ Hs]%andb_prop. by apply IH.
  - intros [_ Hs]%andb_prop. by apply IH.
Qed.

(** On ASCII input the result of [convertUUID] is ASCII. *)
Lemma convertUUID_ascii uuid v :
  is_ascii uuid = true → convertUUID uuid = Ok v → is_ascii v = true.
Proof.
  intros Hascii. unfold convertUUID.
  destruct (negb _); [done|]. intros [= <-].
  apply is_ascii_ToLower.
  rewrite !is_ascii_app, !is_ascii_substring by done. reflexivity.
Qed.

(** X27. On an ASCII string (every byte below 0x80, where strings.ToLower
    works byte by byte) what convertUUID returns has 36 bytes, is ASCII and
    is in lower case.  Converting it again undoes the byte swaps: on its own
    results the conversion is an involution, and for an input with hyphens
    at bytes 8, 13, 18 and 23 the second conversion gives the input in
    lower case. *)
Theorem convertUUID_involution uuid v :
  is_ascii uuid = true →
  convertUUID uuid = Ok v →
  String.length v = 36
  ∧ is_ascii v = true
  ∧ ToLower v = v
  ∧ (∃ v', convertUUID v = Ok v' ∧ is_ascii v' = true ∧ convertUUID v' = Ok v)
  ∧ (String.get 8 uuid = Some "-"%char → String.get 13 uuid = Some "-"%char →
     String.get 18 uuid = Some "-"%char → String.get 23 uuid = Some "-"%char →
     convertUUID v = Ok (ToLower uuid)).
Proof.
  intros Hascii Hrun.
  pose proof (convertUUID_ascii uuid v Hascii Hrun) as Hv.
  clear Hascii. revert Hv Hrun.
  unfold convertUUID at 1.
  destruct (Nat.eqb_spec (String.length uuid) 36) as [Hlen|]; [|done].
  simpl. intros Hv [= <-].
  split; [|split; [exact Hv|split; [apply ToLower_idem|]]];
    explode Hlen; [done|].
  revert Hv. cbv -[lower is_ascii]. intros Hv. split.
  - eexists. split; [reflexivity|]. split.
    + eapply convertUUID_ascii; [exact Hv | reflexivity].
    + cbv -[lower]. by rewrite !lower_idem.
  - intros [= ->] [= ->] [= ->] [= ->]. by rewrite !lower_idem.
Qed.

(** ** [getDeviceRescanPath] *)

Lemma split_on_slash_group g rest :
  has_slash g = false →
  split_on "/" (g +:+ String "/" rest) = g :: split_on "/" rest.
Proof.
  induction g as [|c g IH]; simpl; [done|].
  destruct (Ascii.eqb c "/"); simpl; [done|].
  intros Hg. by rewrite (IH Hg).
Qed.

Lemma split_on_slash_last g : has_slash g = false → split_on "/" g = [g].
Proof.
  induction g as [|c g IH]; simpl; [done|].
  destruct (Ascii.eqb c "/"); simpl; [done|].
  intros Hg. by rewrite (IH Hg).
Qed.

Lemma split_on_nonempty sep s : split_on sep s ≠ [].
Proof.
  destruct s as [|c s]; simpl; [done|].
  destruct (Ascii.eqb c sep); [done|]. by destruct (split_on sep s).
Qed.

(** The first piece has no slash, and the others are the pieces of what
    follows the first slash. *)
Lemma split_on_slash_inv s g gs :
  split_on "/" s = g :: gs →
  has_slash g = false
  ∧ (gs = [] ∧ s = g
     ∨ ∃ rest, s = g +:+ String "/" rest ∧ split_on "/" rest = gs).
Proof.
  revert g gs. induction s as [|c s IH]; simpl; intros g gs.
  - intros [= <- <-]. eauto.
  - destruct (Ascii.eqb_spec c "/") as [->|Hc].
    + intros [= <- <-]. split; [done|]. right. by exists s.
    + destruct (split_on "/" s) as [|g' gs'] eqn:Hs;
        [by apply split_on_nonempty in Hs|].
      intros [= <- <-].
      assert (Hc' : Ascii.eqb c "/" = false) by by apply Ascii.eqb_neq.
      destruct (IH g' gs' eq_refl) as [Hg [[-> ->] | (rest & -> & Hrest)]].
      * split; [|by left]. simpl. by rewrite Hc'.
      * split; [simpl; by rewrite Hc'|]. right. by exists rest.
Qed.

Lemma split_on_three s a d n :
  split_on "/" s = [a; d; n]
  ↔ s = a +:+ String "/" (d +:+ String "/" n)
    ∧ has_slash a = false ∧ has_slash d = false ∧ has_slash n = false.
Proof.
  split.
  - intros Hs.
    apply split_on_slash_inv in Hs as [Ha [[? _] | (r1 & -> & Hs)]]; [done|].
    apply split_on_slash_inv in Hs as [Hd [[? _] | (r2 & -> & Hs)]]; [done|].
    apply split_on_slash_inv in Hs as [Hn [[_ ->] | (r3 & -> & Hs)]]; [done|].
    by apply split_on_nonempty in Hs.
  - intros (-> & Ha & Hd & Hn).
    by rewrite !split_on_slash_group, split_on_slash_last.
Qed.

(** X28. getDeviceRescanPath only reads the host.  It accepts the real
    paths of exactly three slash-separated pieces whose second piece starts
    with "dev", whatever the first piece is, and then resolves the rescan
    file of the third piece under /sys/block; every other path is an
    error. *)
Theorem getDeviceRescanPath_outcomes dev w :
  snd (getDeviceRescanPath dev w) = w
  ∧ (∀ a d n,
       RealDev dev = a +:+ String "/" (d +:+ String "/" n) →
       has_slash a = false → has_slash d = false → has_slash n = false →
       fst (getDeviceRescanPath dev w) =
         if String.prefix "dev" d then EvalSymlinks (rescan_file n) w
         else Err (GoError "illegal path for device %q"))
  ∧ ((∀ a d n,
        RealDev dev = a +:+ String "/" (d +:+ String "/" n) →
        has_slash a = false → has_slash d = false → has_slash n = false →
        String.prefix "dev" d = false) →
     fst (getDeviceRescanPath dev w)
     = Err (GoError "illegal path for device %q")).
Proof.
  unfold getDeviceRescanPath. split; [|split].
  - destruct (split_on "/" (RealDev dev)) as [|a [|d [|n [|]]]]; try done.
    by destruct (String.prefix "dev" d).
  - intros a d n Hs Ha Hd Hn.
    rewrite (proj2 (split_on_three (RealDev dev) a d n)) by done.
    by destruct (String.prefix "dev" d).
  - intros Hnone.
    destruct (split_on "/" (RealDev dev)) as [|a [|d [|n [|]]]] eqn:Hs;
      try done.
    apply split_on_three in Hs as (Hs & Ha & Hd & Hn).
    by rewrite (Hnone a d n Hs Ha Hd Hn).
Qed.

(** ** The theorems on a concrete host *)

Import Fixture FixtureMore.

Lemma verifyTargetDir_outcomes_witness :
  fst (verifyTargetDir "/staging" true (fx_host fx_files [])) = Ok true.
Proof.
  destruct (verifyTargetDir_outcomes "/staging" true (fx_host fx_files []))
    as (_ & Htrue & _).
  apply Htrue. split; [discriminate|].
  eexists. split; vm_compute; reflexivity.
Defined.

Lemma mkdir_establishes_witness :
  let w1 := snd (mkdir "/target" (fx_host fx_files [])) in
  mkdir "/target" w1 = (Ok false, w1).
Proof.
  destruct (mkdir_establishes "/target" (fx_host fx_files []) true)
    as (_ & _ & _ & Hagain); [vm_compute; reflexivity|].
  exact Hagain.
Defined.

Lemma mkfile_establishes_witness :
  let w1 := snd (mkfile "/target" (fx_host fx_files [])) in
  mkfile "/target" w1 = (Ok false, w1).
Proof.
  destruct (mkfile_establishes "/target" (fx_host fx_files []) true)
    as (_ & _ & _ & Hagain); [vm_compute; reflexivity|].
  exact Hagain.
Defined.

Lemma rmpath_outcomes_witness :
  let w := fx_host (<["/target" := Regular]> fx_files) [] in
  os_Lstat "/target" (snd (rmpath "/target" w)) = Err ENOENT.
Proof.
  intros w.
  destruct (rmpath_outcomes "/target" w) as (_ & Hok & _).
  apply Hok. vm_compute; reflexivity.
Defined.

Lemma getDevice_success_witness :
  files (fx_host fx_files []) !! RealDev fx_dev = Some DeviceNode.
Proof.
  destruct (getDevice_success "/dev/disk/by-id/wwn-0x6000c29"
              (fx_host fx_files []) fx_dev)
    as (_ & _ & _ & _ & Hnode & _); [vm_compute; reflexivity|].
  exact Hnode.
Defined.


Lemma getDevFromMount_outcomes_witness :
  fst (getDevFromMount "/target" (fx_host fx_files [fx_staged])) = Ok None.
Proof.
  apply (proj1 (getDevFromMount_outcomes "/target"
                  (fx_host fx_files [fx_staged]))).
  exists [fx_staged]. split; reflexivity.
Defined.

Lemma getDevMounts_covers_witness :
  ∃ devMnts,
    getDevMounts fx_dev (fx_host fx_files [fx_staged])
    = (Ok devMnts, fx_host fx_files [fx_staged])
    ∧ [fx_staged] `sublist_of` devMnts.
Proof.
  destruct (getDevMounts_covers fx_dev (fx_host fx_files [fx_staged])
              [fx_staged])
    as (devMnts & Hrun & Hsub & _); [vm_compute; reflexivity|].
  exists devMnts. split; [exact Hrun | exact Hsub].
Defined.

Lemma stage_effects_witness :
  @NodeStageVolume fx_common (fx_stage cap_file) (fx_host fx_files [])
  = (Ok tt, fx_host fx_files []).
Proof.
  destruct (@stage_effects fx_common (fx_stage cap_file))
    as (_ & _ & Hfile & _).
  apply Hfile. reflexivity.
Defined.

Lemma unstage_effects_witness :
  let w := fx_host fx_files [fx_staged] in
  let w' := snd (NodeUnstageVolume fx_unstage w) in
  w' = w
  ∨ (log w' = log w ++ [CmdUnmount "/staging"]
     ∧ remove_last_at "/staging" (mountTable w) = Some (mountTable w')
     ∧ mounts_at "/staging" (mountTable w)
       = S (mounts_at "/staging" (mountTable w'))
     ∧ ∀ p, p ≠ "/staging" →
         mounts_at p (mountTable w') = mounts_at p (mountTable w)).
Proof.
  intros w w'.
  destruct (unstage_effects fx_unstage w) as (_ & _ & Hok).
  apply Hok. vm_compute; reflexivity.
Defined.

Lemma unpublish_effects_witness :
  let w := fx_host (<["/target" := Regular]> fx_files)
             [fx_elsewhere "/target"] in
  let w' := snd (@NodeUnpublishVolume fx_common fx_unpublish w) in
  w' = w
  ∨ (log w' = log w ++ [CmdUnmount "/target"; CmdRemove "/target"]
     ∧ remove_last_at "/target" (mountTable w) = Some (mountTable w')
     ∧ mounts_at "/target" (mountTable w)
       = S (mounts_at "/target" (mountTable w'))
     ∧ files w' = delete "/target" (files w)
     ∧ os_Lstat "/target" w' = Err ENOENT).
Proof.
  intros w w'.
  destruct (@unpublish_effects fx_common fx_unpublish w) as (_ & Hok).
  apply Hok. vm_compute; reflexivity.
Defined.

Lemma publish_mount_twice_witness :
  let w := fx_host fx_files [fx_staged] in
  let c := CmdBindMount "/staging" "/target" ["noatime"] in
  let w2 := mounted c (snd (mkdir "/target" w)) in
  @NodePublishVolume fx_common (fx_publish cap_mount false) w = (Ok tt, w2)
  ∧ @NodePublishVolume fx_common (fx_publish cap_mount false) w2 = (Ok tt, w2).
Proof.
  apply (@publish_mount_twice fx_common (fx_publish cap_mount false)
           (fx_host fx_files [fx_staged])
           "6000c29" "/dev/disk/by-id/wwn-0x6000c29" fx_dev
           "ext4" ["noatime"] true [fx_staged]);
    vm_compute; reflexivity.
Defined.

(** On a host that lists the bind mount under the device's real path the
    second publish changes nothing; on a host that lists it under udev the
    second publish mounts again. *)
Lemma publish_block_twice_witness :
  let req := fx_publish cap_block false in
  let c := CmdBindMount "/dev/disk/by-id/wwn-0x6000c29" "/target" [] in
  let w2 := mounted c (snd (mkfile "/target" (fx_host fx_files []))) in
  let u2 := mounted c (snd (mkfile "/target" (fx_udev_host fx_files []))) in
  @NodePublishVolume fx_common req w2 = (Ok tt, w2)
  ∧ @NodePublishVolume fx_common req u2 = (Ok tt, mounted c u2)
  ∧ mounts_at "/target" (mountTable (mounted c u2)) = 2.
Proof.
  intros req c w2 u2.
  destruct (@publish_block_twice fx_common req (fx_host fx_files [])
              "6000c29" "/dev/disk/by-id/wwn-0x6000c29" fx_dev true [])
    as (_ & _ & Hlisted & _); [vm_compute; reflexivity..|].
  destruct (@publish_block_twice fx_common req (fx_udev_host fx_files [])
              "6000c29" "/dev/disk/by-id/wwn-0x6000c29" fx_dev true [])
    as (_ & _ & _ & Hother); [vm_compute; reflexivity..|].
  split; [apply Hlisted; reflexivity|].
  split; [apply Hother; reflexivity | reflexivity].
Defined.

Lemma publish_unpublish_block_witness :
  let w := fx_host fx_files [] in
  ∃ w1 w2,
    @NodePublishVolume fx_common (fx_publish cap_block false) w = (Ok tt, w1)
    ∧ @NodeUnpublishVolume fx_common fx_unpublish w1 = (Ok tt, w2)
    ∧ files w2 = files w ∧ mountTable w2 = mountTable w.
Proof.
  intros w.
  destruct (@publish_unpublish_block fx_common (fx_publish cap_block false)
              fx_unpublish w
              "6000c29" "/dev/disk/by-id/wwn-0x6000c29" fx_dev)
    as (w1 & w2 & Hpub & _ & _ & Hun & Hfiles & Hmnts & _);
    [vm_compute; reflexivity..|].
  exists w1, w2. repeat split; assumption.
Defined.

Lemma publish_unpublish_mount_witness :
  let w := fx_host fx_files [fx_staged] in
  ∃ w1 w2,
    @NodePublishVolume fx_common (fx_publish cap_mount false) w = (Ok tt, w1)
    ∧ @NodeUnpublishVolume fx_common fx_unpublish w1 = (Ok tt, w2)
    ∧ files w2 = files w ∧ mountTable w2 = mountTable w.
Proof.
  intros w.
  destruct (@publish_unpublish_mount fx_common (fx_publish cap_mount false)
              fx_unpublish w
              "6000c29" "/dev/disk/by-id/wwn-0x6000c29" fx_dev
              "ext4" ["noatime"] [fx_staged])
    as (w1 & w2 & Hpub & _ & _ & Hun & Hfiles & Hmnts & _);
    [vm_compute; reflexivity..|].
  exists w1, w2. repeat split; assumption.
Defined.

Lemma stage_unstage_witness :
  let w := fx_host fx_files [] in
  let c := CmdFormatAndMount "/dev/disk/by-id/wwn-0x6000c29" "/staging" "ext4"
             ["noatime"] in
  ∃ w2,
    @NodeStageVolume fx_common (fx_stage cap_mount) w = (Ok tt, mounted c w)
    ∧ NodeUnstageVolume fx_unstage (mounted c w) = (Ok tt, w2)
    ∧ files w2 = files w ∧ mountTable w2 = mountTable w.
Proof.
  intros w c.
  destruct (@stage_unstage fx_common (fx_stage cap_mount) fx_unstage w
              "ext4" ["noatime"]
              "6000c29" "/dev/disk/by-id/wwn-0x6000c29" fx_dev)
    as (w2 & Hstage & Hun & Hfiles & Hmnts & _);
    [vm_compute; reflexivity..|].
  exists w2. repeat split; assumption.
Defined.

Lemma stage_twice_from_unmounted_witness :
  let w := fx_host fx_files [] in
  let c := CmdFormatAndMount "/dev/disk/by-id/wwn-0x6000c29" "/staging" "ext4"
             ["noatime"] in
  bind (@NodeStageVolume fx_common (fx_stage cap_mount))
       (fun _ => @NodeStageVolume fx_common (fx_stage cap_mount)) w
  = (Ok tt, mounted c w).
Proof.
  intros w c.
  destruct (@stage_twice_from_unmounted fx_common (fx_stage cap_mount) w
              "ext4" ["noatime"]
              "6000c29" "/dev/disk/by-id/wwn-0x6000c29" fx_dev)
    as (Hrun & _); [vm_compute; reflexivity..|].
  exact Hrun.
Defined.

Lemma publish_file_twice_witness :
  let w := fx_guest_host fx_files [] in
  let c := CmdMount "10.0.0.7:/share" "/target" "nfs4"
             ["noatime"; "ro"; "hard"] in
  let w2 := mounted c (snd (mkdir "/target" w)) in
  @NodePublishVolume fx_common (fx_publish_file true) w = (Ok tt, w2)
  ∧ @NodePublishVolume fx_common (fx_publish_file true) w2 = (Ok tt, w2).
Proof.
  apply (@publish_file_twice fx_common (fx_publish_file true)
           (fx_guest_host fx_files []) "nfs4" ["noatime"] true []
           "10.0.0.7:/share");
    vm_compute; reflexivity.
Defined.

Lemma publish_needs_device_witness :
  snd (@NodePublishVolume fx_common fx_publish_no_disk (fx_host fx_files []))
  = fx_host fx_files []
  ∧ is_ok (fst (@NodePublishVolume fx_common fx_publish_no_disk
                  (fx_host fx_files []))) = false.
Proof.
  apply (@publish_needs_device fx_common fx_publish_no_disk
           (fx_host fx_files [])); [reflexivity|].
  intros diskID volPath dev Hid _ _. vm_compute in Hid. discriminate Hid.
Defined.

Lemma stage_needs_device_witness :
  snd (@NodeStageVolume fx_common fx_stage_no_disk (fx_host fx_files []))
  = fx_host fx_files []
  ∧ is_ok (fst (@NodeStageVolume fx_common fx_stage_no_disk
                  (fx_host fx_files []))) = false.
Proof.
  apply (@stage_needs_device fx_common fx_stage_no_disk (fx_host fx_files []));
    [reflexivity|].
  intros diskID volPath dev Hid _ _. vm_compute in Hid. discriminate Hid.
Defined.

Lemma contains_spec_witness : "ro" ∈ ["noatime"; "ro"].
Proof. apply (contains_spec ["noatime"; "ro"] "ro"). reflexivity. Defined.

Lemma convertUUID_involution_witness :
  convertUUID "42208c6b-d10d-37d0-156f-435f999d94c1"
  = Ok (ToLower "6B8C2042-0DD1-D037-156F-435F999D94C1").
Proof.
  destruct (convertUUID_involution "6B8C2042-0DD1-D037-156F-435F999D94C1"
              "42208c6b-d10d-37d0-156f-435f999d94c1")
    as (_ & _ & _ & _ & Hback); [reflexivity..|].
  apply Hback; reflexivity.
Defined.

Lemma getDeviceRescanPath_outcomes_witness :
  let w := fx_host (<["/sys/block/sdb/device/rescan" := Regular]> fx_files) [] in
  fst (getDeviceRescanPath fx_dev w) = Ok "/sys/block/sdb/device/rescan".
Proof.
  intros w.
  destruct (getDeviceRescanPath_outcomes fx_dev w) as (_ & Hpath & _).
  rewrite (Hpath "" "dev" "sdb"); reflexivity.
Defined.

End NodeExtra.
